(** * changelog_helper: release_changelog.py

    A shallow embedding of [src/changelog_helper/release_changelog.py] and the
    properties of its version ordering, release transition and changelog
    aggregation.

    Conventions of the embedding.
    - A Python [str] is a [string]; a character is a code point below 256.
    - The builtins the program calls ([int], [str.split], slicing, tuple
      comparison, [sorted], iteration over a text file) are written out in
      [Py] and [PyText], following the language reference; integers are
      unbounded ([Z]), and the interpreter's optional limit on the number of
      digits [int] reads is not modelled.
    - The working tree is a [node] rooted at the directory [get_git_root]
      answers with; a directory keeps its entries in the order [os.listdir]
      reports them, and a new entry is appended. Links are not modelled.
    - A [path] lists the components joined below the root. The names the
      program joins are entries of a listing and the version, which [main]
      validates first: [check_version_no_separator] shows such a version is
      one component.
    - A call is a function from [world] to an [outcome] and the next world:
      [Ok] for a normal return, [Raised] for an exception that leaves the
      function, [Exited] for [exit(code)]. What was done before an exception
      or an exit stays done.
    - The two queries to git ([rev-parse --show-toplevel], [config
      user.name]) and today's date are read from the world; [git add] is
      recorded as the command line given to the shell.
    - [yaml.load] and [yaml.safe_dump] belong to an external library: they are
      [Variable]s of the sections that use them. A decoded mapping keeps its
      string keys; [changes], a [dict], keeps its keys in the order they were
      inserted. *)

From Stdlib Require Import String Ascii List ZArith Lia Bool Arith.
From Stdlib Require Import Permutation Sorted.
From Stdlib Require DecimalString.
Import ListNotations.
Local Open Scope string_scope.
Local Open Scope list_scope.

(** ** Outcomes of a call *)

Inductive exn : Type :=
| IndexError
| ValueError
| KeyError
| TypeError
| AttributeError
| FileNotFoundError
| FileExistsError
| NotADirectoryError
| IsADirectoryError
| ShutilError
| YAMLError
| CheckVersionException (message : string).

Inductive outcome (A : Type) : Type :=
| Ok (a : A)
| Raised (e : exn)
| Exited (code : Z).
Arguments Ok {A} a.
Arguments Raised {A} e.
Arguments Exited {A} code.

(** ** Python builtins on strings *)

Module Py.

(** [s[0]] *)
Definition index0 (s : string) : outcome ascii :=
  match s with
  | EmptyString => Raised IndexError
  | String c _ => Ok c
  end.

(** [s[1:]] *)
Definition slice_from1 (s : string) : string :=
  match s with
  | EmptyString => EmptyString
  | String _ rest => rest
  end.

(** [s[-4:]]: the last four characters, or all of [s] when it is shorter. *)
Definition slice_last4 (s : string) : string :=
  substring (String.length s - 4) 4 s.

(** [s.split(sep)] for a one-character separator. *)
Fixpoint split (sep : ascii) (s : string) : list string :=
  match s with
  | EmptyString => [EmptyString]
  | String c rest =>
      if Ascii.eqb c sep then EmptyString :: split sep rest
      else match split sep rest with
           | part :: parts => String c part :: parts
           | [] => [String c EmptyString]
           end
  end.

(** Characters [int] skips around the literal: TAB, LF, VT, FF, CR, space,
    NEL and NBSP. *)
Definition is_space (c : ascii) : bool :=
  let n := nat_of_ascii c in
  ((9 <=? n) && (n <=? 13) || (n =? 32) || (n =? 133) || (n =? 160))%nat.

Definition digit_of (c : ascii) : option Z :=
  let n := nat_of_ascii c in
  if ((48 <=? n) && (n <=? 57))%nat then Some (Z.of_nat n - 48)%Z else None.

Fixpoint lstrip (s : string) : string :=
  match s with
  | EmptyString => EmptyString
  | String c rest => if is_space c then lstrip rest else s
  end.

Fixpoint all_space (s : string) : bool :=
  match s with
  | EmptyString => true
  | String c rest => is_space c && all_space rest
  end.

(** The digits that follow a first digit: [digit] or [_ digit], repeated.
    Answers the value and the text left over; an underscore that no digit
    follows is an error. *)
Fixpoint more_digits (acc : Z) (s : string) {struct s} : option (Z * string) :=
  match s with
  | EmptyString => Some (acc, EmptyString)
  | String c rest =>
      if Ascii.eqb c "_" then
        match rest with
        | EmptyString => None
        | String d rest' =>
            match digit_of d with
            | Some v => more_digits (10 * acc + v)%Z rest'
            | None => None
            end
        end
      else
        match digit_of c with
        | Some v => more_digits (10 * acc + v)%Z rest
        | None => Some (acc, s)
        end
  end.

Definition unsigned (s : string) : option Z :=
  match s with
  | EmptyString => None
  | String c rest =>
      match digit_of c with
      | None => None
      | Some v =>
          match more_digits v rest with
          | Some (n, tail) => if all_space tail then Some n else None
          | None => None
          end
      end
  end.

(** [int(s)] in base ten: [None] stands for [ValueError]. *)
Definition parse_int (s : string) : option Z :=
  match lstrip s with
  | String "-" rest => option_map Z.opp (unsigned rest)
  | String "+" rest => unsigned rest
  | body => unsigned body
  end.

Definition int (s : string) : outcome Z :=
  match parse_int s with
  | Some n => Ok n
  | None => Raised ValueError
  end.

(** [tuple(map(int, parts))]: the first part [int] refuses raises. *)
Fixpoint tuple_map_int (parts : list string) : outcome (list Z) :=
  match parts with
  | [] => Ok []
  | p :: ps =>
      match int p with
      | Ok n =>
          match tuple_map_int ps with
          | Ok ns => Ok (n :: ns)
          | Raised e => Raised e
          | Exited c => Exited c
          end
      | Raised e => Raised e
      | Exited c => Exited c
      end
  end.

(** [a < b] on tuples of integers: decided at the first position where the
    two differ, a proper prefix being smaller. *)
Fixpoint tuple_lt (a b : list Z) : bool :=
  match a, b with
  | [], [] => false
  | [], _ :: _ => true
  | _ :: _, [] => false
  | x :: a', y :: b' => if (x =? y)%Z then tuple_lt a' b' else (x <? y)%Z
  end.

(** [sorted(items, key=..., reverse=True)] on items already paired with their
    keys: descending, and stable (items with equal keys keep their order). *)
Fixpoint insert_desc {A : Type} (kx : list Z * A) (l : list (list Z * A))
  : list (list Z * A) :=
  match l with
  | [] => [kx]
  | ky :: l' =>
      if tuple_lt (fst kx) (fst ky) then ky :: insert_desc kx l' else kx :: l
  end.

Definition sorted_reverse {A : Type} (l : list (list Z * A)) : list (list Z * A) :=
  fold_right insert_desc [] l.

(** [str(n)] for an integer. *)
Definition str_of_int (n : Z) : string :=
  DecimalString.NilZero.string_of_int (Z.to_int n).

End Py.

(** ** Version identifiers *)

Definition msg_no_marker : string :=
  "Version should start with 'v', like v1.2.19".
Definition msg_no_number : string :=
  "You should provide version number, like v1.2.19".
Definition msg_not_numeric : string :=
  "Version can contain only numbers divided by dots, like v1.2.19".

Definition check_version (version_string : string) : outcome unit :=
  match Py.index0 version_string with
  | Ok c =>
      if negb (Ascii.eqb c "v") then
        Raised (CheckVersionException msg_no_marker)
      else if (String.length version_string <? 2)%nat then
        Raised (CheckVersionException msg_no_number)
      else
        match Py.tuple_map_int (Py.split "." (Py.slice_from1 version_string)) with
        | Ok _ => Ok tt
        | Raised ValueError => Raised (CheckVersionException msg_not_numeric)
        | Raised e => Raised e
        | Exited c => Exited c
        end
  | Raised e => Raised e
  | Exited c => Exited c
  end.

(** The key [get_version_folders] sorts by. *)
Definition version_strings_key (version : string) : outcome (list Z) :=
  Py.tuple_map_int (Py.split "." (Py.slice_from1 version)).

Module PyText.

Definition LF : ascii := ascii_of_nat 10.
Definition CR : ascii := ascii_of_nat 13.
Definition newline : string := String LF EmptyString.

(** [for line in f] on a file opened in text mode: lines keep their end, and
    CR and CR LF are read as LF. [cur] is the line being collected. *)
Fixpoint readlines_from (cur : string) (s : string) {struct s} : list string :=
  match s with
  | EmptyString => if String.eqb cur EmptyString then [] else [cur]
  | String c rest =>
      if Ascii.eqb c LF then (cur ++ newline)%string :: readlines_from EmptyString rest
      else if Ascii.eqb c CR then
        match rest with
        | EmptyString => [(cur ++ newline)%string]
        | String c2 rest2 =>
            if Ascii.eqb c2 LF
            then (cur ++ newline)%string :: readlines_from EmptyString rest2
            else (cur ++ newline)%string :: readlines_from EmptyString rest
        end
      else readlines_from (cur ++ String c EmptyString)%string rest
  end.

Definition readlines (s : string) : list string := readlines_from EmptyString s.

(** [f.writelines(lines)] on a fresh file: the text is the concatenation. *)
Definition joined (lines : list string) : string := String.concat EmptyString lines.

End PyText.

(** ** The working tree *)

#[local] Set Warnings "-register-all".

Inductive node : Type :=
| File (text : string)
| Dir (entries : list (string * node)).

(** A path below the repository root, one component per element. *)
Definition path : Type := list string.

Module Tree.

Fixpoint assoc {A : Type} (name : string) (es : list (string * A)) : option A :=
  match es with
  | [] => None
  | (n, v) :: es' => if String.eqb name n then Some v else assoc name es'
  end.

(** Replace the entry called [name], or append it when there is none. *)
Fixpoint set_entry {A : Type} (name : string) (v : A) (es : list (string * A))
  : list (string * A) :=
  match es with
  | [] => [(name, v)]
  | (n, v') :: es' =>
      if String.eqb name n then (n, v) :: es' else (n, v') :: set_entry name v es'
  end.

Definition del_entry {A : Type} (name : string) (es : list (string * A))
  : list (string * A) :=
  filter (fun e => negb (String.eqb name (fst e))) es.

Fixpoint lookup (p : path) (n : node) : option node :=
  match p with
  | [] => Some n
  | c :: p' =>
      match n with
      | File _ => None
      | Dir es =>
          match assoc c es with
          | Some child => lookup p' child
          | None => None
          end
      end
  end.

(** Put [v] at [p]: the parent of [p] has to be a directory that exists. *)
Fixpoint put (p : path) (v : node) (n : node) : outcome node :=
  match p with
  | [] => Ok v
  | c :: p' =>
      match n with
      | File _ => Raised NotADirectoryError
      | Dir es =>
          match p' with
          | [] => Ok (Dir (set_entry c v es))
          | _ :: _ =>
              match assoc c es with
              | None => Raised FileNotFoundError
              | Some child =>
                  match put p' v child with
                  | Ok child' => Ok (Dir (set_entry c child' es))
                  | other => other
                  end
              end
          end
      end
  end.

(** Take the entry at [p] out of the tree. *)
Fixpoint remove (p : path) (n : node) : outcome node :=
  match p with
  | [] => Raised FileNotFoundError
  | c :: p' =>
      match n with
      | File _ => Raised NotADirectoryError
      | Dir es =>
          match assoc c es with
          | None => Raised FileNotFoundError
          | Some child =>
              match p' with
              | [] => Ok (Dir (del_entry c es))
              | _ :: _ =>
                  match remove p' child with
                  | Ok child' => Ok (Dir (set_entry c child' es))
                  | other => other
                  end
              end
          end
      end
  end.

(** A fresh chain of directories [c1/c2/.../cn] below a new directory. *)
Fixpoint chain (p : path) : node :=
  match p with
  | [] => Dir []
  | c :: p' => Dir [(c, chain p')]
  end.

(** [os.makedirs]: every missing directory on the way is created; the last
    one must not exist. *)
Fixpoint makedirs (p : path) (n : node) : outcome node :=
  match p with
  | [] => Raised FileExistsError
  | c :: p' =>
      match n with
      | File _ => Raised NotADirectoryError
      | Dir es =>
          match assoc c es with
          | None => Ok (Dir (es ++ [(c, chain p')]))
          | Some child =>
              match makedirs p' child with
              | Ok child' => Ok (Dir (set_entry c child' es))
              | other => other
              end
          end
      end
  end.

Definition is_dir (n : option node) : bool :=
  match n with
  | Some (Dir _) => true
  | _ => false
  end.

Definition is_some {A : Type} (o : option A) : bool :=
  match o with
  | Some _ => true
  | None => false
  end.

End Tree.

(** ** The world a run acts on *)

Record world : Type := mkWorld {
  fs : node;                 (* the working tree below the repository root *)
  git_root : string;         (* answer of [git rev-parse --show-toplevel] *)
  git_user_name : string;    (* answer of [git config user.name] *)
  today : string;            (* [datetime.date.today().isoformat()] *)
  stdout : list string;      (* lines printed so far *)
  shell : list string        (* commands handed to the shell to change the index *)
}.

Definition with_fs (t : node) (w : world) : world :=
  mkWorld t (git_root w) (git_user_name w) (today w) (stdout w) (shell w).

Definition M (A : Type) : Type := world -> outcome A * world.

Definition ret {A : Type} (a : A) : M A := fun w => (Ok a, w).
Definition raise {A : Type} (e : exn) : M A := fun w => (Raised e, w).
Definition exit {A : Type} (code : Z) : M A := fun w => (Exited code, w).

Definition bind {A B : Type} (m : M A) (k : A -> M B) : M B :=
  fun w =>
    match m w with
    | (Ok a, w') => k a w'
    | (Raised e, w') => (Raised e, w')
    | (Exited c, w') => (Exited c, w')
    end.

Declare Scope py_scope.
Delimit Scope py_scope with py.
Notation "x <- c1 ;; c2" := (bind c1 (fun x => c2))
  (at level 61, c1 at next level, right associativity) : py_scope.
Notation "c1 ;; c2" := (bind c1 (fun _ => c2))
  (at level 61, right associativity) : py_scope.
Local Open Scope py_scope.

(** A pure computation that may raise, run inside [M]. *)
Definition lift {A : Type} (o : outcome A) : M A := fun w => (o, w).

Definition when (b : bool) (m : M unit) : M unit := if b then m else ret tt.

Fixpoint for_each {A : Type} (l : list A) (body : A -> M unit) : M unit :=
  match l with
  | [] => ret tt
  | x :: l' => body x ;; for_each l' body
  end.

Definition print (line : string) : M unit :=
  fun w => (Ok tt, mkWorld (fs w) (git_root w) (git_user_name w) (today w)
                           (stdout w ++ [line]) (shell w)).

Definition subprocess_call (command : string) : M unit :=
  fun w => (Ok tt, mkWorld (fs w) (git_root w) (git_user_name w) (today w)
                           (stdout w) (shell w ++ [command])).

Definition get_git_root : M string := fun w => (Ok (git_root w), w).
Definition get_author : M string := fun w => (Ok (git_user_name w), w).
Definition date_today_isoformat : M string := fun w => (Ok (today w), w).

(** [os.path.join(get_git_root(), ...)] as text, for the command line. *)
Definition path_text (root : string) (p : path) : string :=
  fold_left (fun acc c => (acc ++ "/" ++ c)%string) p root.

Definition os_path_exists (p : path) : M bool :=
  fun w => (Ok (Tree.is_some (Tree.lookup p (fs w))), w).

Definition os_path_isdir (p : path) : M bool :=
  fun w => (Ok (Tree.is_dir (Tree.lookup p (fs w))), w).

Definition os_listdir (p : path) : M (list string) :=
  fun w =>
    match Tree.lookup p (fs w) with
    | Some (Dir es) => (Ok (map fst es), w)
    | Some (File _) => (Raised NotADirectoryError, w)
    | None => (Raised FileNotFoundError, w)
    end.

Definition os_makedirs (p : path) : M unit :=
  fun w =>
    match Tree.makedirs p (fs w) with
    | Ok t => (Ok tt, with_fs t w)
    | Raised e => (Raised e, w)
    | Exited c => (Exited c, w)
    end.

(** [shutil.move(src, dst)]: into [dst] when it is a directory (an entry of
    that name must not be there yet), onto [dst] otherwise. *)
Definition shutil_move (src dst : path) : M unit :=
  fun w =>
    let into := Tree.is_dir (Tree.lookup dst (fs w)) in
    let real_dst := if into then dst ++ [last src EmptyString] else dst in
    if into && Tree.is_some (Tree.lookup real_dst (fs w)) then (Raised ShutilError, w)
    else
      match Tree.lookup src (fs w) with
      | None => (Raised FileNotFoundError, w)
      | Some n =>
          match Tree.remove src (fs w) with
          | Ok t1 =>
              match Tree.put real_dst n t1 with
              | Ok t2 => (Ok tt, with_fs t2 w)
              | Raised e => (Raised e, w)
              | Exited c => (Exited c, w)
              end
          | Raised e => (Raised e, w)
          | Exited c => (Exited c, w)
          end
      end.

(** [open(p, 'w')] followed by writing [text]. *)
Definition write_file (p : path) (text : string) : M unit :=
  fun w =>
    match Tree.lookup p (fs w) with
    | Some (Dir _) => (Raised IsADirectoryError, w)
    | _ =>
        match Tree.put p (File text) (fs w) with
        | Ok t => (Ok tt, with_fs t w)
        | Raised e => (Raised e, w)
        | Exited c => (Exited c, w)
        end
    end.

(** [open(p, 'r')] followed by reading everything. *)
Definition read_file (p : path) : M string :=
  fun w =>
    match Tree.lookup p (fs w) with
    | Some (File text) => (Ok text, w)
    | Some (Dir _) => (Raised IsADirectoryError, w)
    | None => (Raised FileNotFoundError, w)
    end.

(** ** Decoded YAML *)

(** The values of a decoded mapping the development covers: text, null, an
    integer, or a sequence carried by its [str()]. *)
Inductive pyval : Type :=
| PyStr (s : string)
| PyNone
| PyInt (n : Z)
| PySeq (shown : string).

(** A decoded document: a mapping with its string keys, or anything else. *)
Inductive yaml_doc : Type :=
| YMap (fields : list (string * pyval))
| YOther.

Module PyVal.

(** [str(v)], which is what [format] puts in the text. *)
Definition str (v : pyval) : string :=
  match v with
  | PyStr s => s
  | PyNone => "None"
  | PyInt n => Py.str_of_int n
  | PySeq shown => shown
  end.

Definition hashable (v : pyval) : bool :=
  match v with
  | PySeq _ => false
  | _ => true
  end.

Definition eqb (a b : pyval) : bool :=
  match a, b with
  | PyStr s, PyStr t => String.eqb s t
  | PyNone, PyNone => true
  | PyInt m, PyInt n => Z.eqb m n
  | PySeq s, PySeq t => String.eqb s t
  | _, _ => false
  end.

(** [entry[key]] *)
Definition getitem (entry : yaml_doc) (key : string) : outcome pyval :=
  match entry with
  | YOther => Raised TypeError
  | YMap fields =>
      match Tree.assoc key fields with
      | Some v => Ok v
      | None => Raised KeyError
      end
  end.

(** [info.get(key, default)] *)
Definition get (info : yaml_doc) (key : string) (default : pyval) : outcome pyval :=
  match info with
  | YOther => Raised AttributeError
  | YMap fields =>
      match Tree.assoc key fields with
      | Some v => Ok v
      | None => Ok default
      end
  end.

(** ['- ' + title + '\n'] *)
Definition bullet (title : pyval) : outcome string :=
  match title with
  | PyStr s => Ok ("- " ++ s ++ PyText.newline)%string
  | _ => Raised TypeError
  end.

(** The dictionary [changes]: authors in the order they were first met. *)
Definition changes_dict : Type := list (pyval * list string).

(** [author in changes] *)
Definition contains (author : pyval) (changes : changes_dict) : outcome bool :=
  if hashable author then Ok (existsb (fun kv => eqb author (fst kv)) changes)
  else Raised TypeError.

(** [changes[author] = []] for an author that is not there yet. *)
Definition add_key (author : pyval) (changes : changes_dict) : changes_dict :=
  changes ++ [(author, [])].

(** [changes[author].append(line)] *)
Fixpoint append_to (author : pyval) (line : string) (changes : changes_dict)
  : changes_dict :=
  match changes with
  | [] => []
  | (k, lines) :: rest =>
      if eqb author k then (k, lines ++ [line]) :: rest
      else (k, lines) :: append_to author line rest
  end.

End PyVal.

(** ** The program *)

Definition CHANGELOG_FILE : string := "CHANGELOG.md".

Definition unreleased_folder : path := ["changelogs"; "unreleased"].
Definition released_folder : path := ["changelogs"; "released"].
Definition archive_changes_file : path := ["changelogs"; "archive.md"].

(** [lambda x: x[-4:] == '.yml'] *)
Definition is_yml (x : string) : bool := String.eqb (Py.slice_last4 x) ".yml".

Definition msg_duplicate : string := "Changelog for this version already exists.".
Definition msg_nothing : string := "There is no unreleased changes.".
Definition msg_info_exists : string := "Release-info already exists and will be erased".
Definition header_note : string :=
  ("**Note:** This file is automatically generated. Use changelog_helper to add your own entry"
   ++ PyText.newline)%string.

(** The command line: [version] defaults to ["v"]. *)
Record arguments : Type := mkArgs {
  version : string;
  rebuild : bool
}.

Section Program.

(** [yaml.load] of a file's text ([None]: the text does not decode) and
    [yaml.safe_dump] of a mapping. *)
Variable yaml_load : string -> option yaml_doc.
Variable yaml_safe_dump : list (string * pyval) -> string.

Definition load_yaml_file (p : path) : M yaml_doc :=
  text <- read_file p ;;
  match yaml_load text with
  | Some doc => ret doc
  | None => raise YAMLError
  end.

Definition write_release_info (released_version_folder : path) : M unit :=
  present <- os_path_exists (released_version_folder ++ ["release-info"]) ;;
  when present (print msg_info_exists) ;;
  date <- date_today_isoformat ;;
  author <- get_author ;;
  write_file (released_version_folder ++ ["release-info"])
    (yaml_safe_dump [("date", PyStr date); ("released_by", PyStr author)]).

Definition move_unreleased_changelogs (version : string) : M unit :=
  let released_version_folder := released_folder ++ [version] in
  present <- os_path_exists released_version_folder ;;
  when present (print msg_duplicate ;; exit 1) ;;
  os_makedirs released_version_folder ;;
  names <- os_listdir unreleased_folder ;;
  let files_to_move := filter is_yml names in
  when (length files_to_move =? 0)%nat (print msg_nothing ;; exit 1) ;;
  for_each files_to_move
    (fun yml_file => shutil_move (unreleased_folder ++ [yml_file]) released_version_folder) ;;
  write_release_info released_version_folder ;;
  root <- get_git_root ;;
  subprocess_call ("git add " ++ path_text root released_version_folder)%string.

(** The loop of [get_version_folders] over the listing. *)
Fixpoint scan_folders (listing : list string) (version_folders : list string)
  : M (list string) :=
  match listing with
  | [] => ret version_folders
  | folder :: rest =>
      is_directory <- os_path_isdir (released_folder ++ [folder]) ;;
      if is_directory then
        match check_version folder with
        | Ok _ => scan_folders rest (version_folders ++ [folder])
        | Raised (CheckVersionException _) =>
            print (folder ++ " have unsupported format. Skipping.")%string ;;
            scan_folders rest version_folders
        | Raised e => raise e
        | Exited c => exit c
        end
      else
        print (folder ++ " is not directory. Skipping.")%string ;;
        scan_folders rest version_folders
  end.

(** The keys [sorted] computes before it compares anything. *)
Fixpoint with_keys (folders : list string) : outcome (list (list Z * string)) :=
  match folders with
  | [] => Ok []
  | f :: rest =>
      match version_strings_key f with
      | Ok k =>
          match with_keys rest with
          | Ok keyed => Ok ((k, f) :: keyed)
          | other => other
          end
      | Raised e => Raised e
      | Exited c => Exited c
      end
  end.

Definition sorted_by_version_key (folders : list string) : outcome (list string) :=
  match with_keys folders with
  | Ok keyed => Ok (map snd (Py.sorted_reverse keyed))
  | Raised e => Raised e
  | Exited c => Exited c
  end.

Definition get_version_folders : M (list string) :=
  listing <- os_listdir released_folder ;;
  version_folders <- scan_folders listing [] ;;
  lift (sorted_by_version_key version_folders).

(** The loop of [get_version_changes] over the fragment files. *)
Fixpoint read_changes (version_folder : path) (yml_files : list string)
  (changes : PyVal.changes_dict) : M PyVal.changes_dict :=
  match yml_files with
  | [] => ret changes
  | file :: rest =>
      entry <- load_yaml_file (version_folder ++ [file]) ;;
      author <- lift (PyVal.getitem entry "author") ;;
      known <- lift (PyVal.contains author changes) ;;
      let changes := if negb known then PyVal.add_key author changes else changes in
      title <- lift (PyVal.getitem entry "title") ;;
      line <- lift (PyVal.bullet title) ;;
      read_changes version_folder rest (PyVal.append_to author line changes)
  end.

Definition get_version_changes (version : string) : M PyVal.changes_dict :=
  let version_folder := released_folder ++ [version] in
  names <- os_listdir version_folder ;;
  read_changes version_folder (filter is_yml names) [].

Definition get_release_info (version : string) : M yaml_doc :=
  let info_file := released_folder ++ [version; "release-info"] in
  present <- os_path_exists info_file ;;
  if negb present then ret (YMap [])
  else load_yaml_file info_file.

(** The lines one author contributes: the attribution and the bullets. *)
Definition author_lines (group : pyval * list string) : list string :=
  ("*@" ++ PyVal.str (fst group) ++ "*" ++ PyText.newline)%string :: snd group.

Definition heading (version : string) (date : pyval) : string :=
  ("## Version " ++ Py.slice_from1 version ++ " (" ++ PyVal.str date ++ ")"
   ++ PyText.newline)%string.

(** The loop of [build_changelog] over the versions. *)
Fixpoint build_versions (versions : list string) (result : list string)
  : M (list string) :=
  match versions with
  | [] => ret result
  | version :: rest =>
      release_info <- get_release_info version ;;
      date <- lift (PyVal.get release_info "date" (PyStr "")) ;;
      let result := result ++ [heading version date] in
      changes <- get_version_changes version ;;
      let result := result ++ concat (map author_lines changes) in
      build_versions rest (result ++ [PyText.newline])
  end.

Definition build_changelog : M (list string) :=
  let result := [header_note; PyText.newline] in
  versions <- get_version_folders ;;
  result <- build_versions versions result ;;
  present <- os_path_exists archive_changes_file ;;
  if present then
    text <- read_file archive_changes_file ;;
    ret (result ++ PyText.readlines text)
  else ret result.

(** The release step of [main], taken when [--rebuild] is not given. *)
Definition release_step (app_args : arguments) : M unit :=
  match check_version (version app_args) with
  | Ok _ => move_unreleased_changelogs (version app_args)
  | Raised (CheckVersionException message) => print message ;; exit 1
  | Raised e => raise e
  | Exited c => exit c
  end.

Definition main (app_args : arguments) : M unit :=
  when (negb (rebuild app_args)) (release_step app_args) ;;
  changelog <- build_changelog ;;
  write_file [CHANGELOG_FILE] (PyText.joined changelog).

End Program.

(** ** Notions the properties are stated with *)

(** [a] is at least [b]: greater, or the same tuple. *)
Definition tuple_ge (a b : list Z) : Prop := Py.tuple_lt b a = true \/ a = b.

Definition keyed_ge {A : Type} (x y : list Z * A) : Prop := tuple_ge (fst x) (fst y).

(** Version [a] does not sort after version [b]: both have a key, and the
    key of [a] is at least the key of [b]. *)
Definition newer_or_equal (a b : string) : Prop :=
  exists ka kb, version_strings_key a = Ok ka /\
                version_strings_key b = Ok kb /\ tuple_ge ka kb.

(** Validation in the words of the specification: the marker, then parts
    between dots, at least one, each of which reads as an integer that is
    not negative. *)
Definition spec_validate (s : string) : Prop :=
  exists rest, s = String "v" rest /\ Py.split "." rest <> [] /\
    Forall (fun p => exists n, Py.parse_int p = Some n /\ (0 <= n)%Z)
           (Py.split "." rest).

(** A folder [get_version_folders] keeps: a directory whose name passes
    [check_version]. *)
Definition kept (w : world) (folder : string) : bool :=
  Tree.is_dir (Tree.lookup (released_folder ++ [folder]) (fs w)) &&
  match check_version folder with
  | Ok _ => true
  | _ => false
  end.

(** A computation that leaves the working tree as it found it, and whose
    result depends on the working tree only. *)
Definition reads_only {A : Type} (m : M A) : Prop :=
  (forall w, fs (snd (m w)) = fs w) /\
  (forall w1 w2, fs w1 = fs w2 -> fst (m w1) = fst (m w2)).

(** A computation that never ends the process with [exit]. *)
Definition never_exits {A : Type} (m : M A) : Prop :=
  forall w c, fst (m w) <> Exited c.

(** ** Worlds for the closed examples *)

(** A repository whose release area holds the given folders, all empty, in
    that listing order, and nothing unreleased. *)
Definition released_world (folders : list string) : world :=
  mkWorld
    (Dir [("changelogs",
           Dir [("unreleased", Dir []);
                ("released", Dir (map (fun f => (f, Dir [])) folders))])])
    "/repo" "releaser" "2026-11-04" [] [].

(** ** Notions on paths and directories *)

(** Two paths part ways: at some position their components differ, so neither
    is above the other. *)
Fixpoint diverge (p q : path) : bool :=
  match p, q with
  | a :: p', b :: q' => if String.eqb a b then diverge p' q' else true
  | _, _ => false
  end.


(** An instance of the two library functions, for the closed examples: block
    mappings of plain strings, one [key: value] per line; the empty text
    decodes to a null document, a line without [": "] does not decode. *)
Module DemoYaml.

Fixpoint key_value (line : string) : option (string * string) :=
  match line with
  | EmptyString => None
  | String c rest =>
      if Ascii.eqb c ":" then
        match rest with
        | String " " value => Some (EmptyString, value)
        | _ => None
        end
      else option_map (fun kv => (String c (fst kv), snd kv)) (key_value rest)
  end.

Fixpoint fields_of (lines : list string) : option (list (string * pyval)) :=
  match lines with
  | [] => Some []
  | line :: rest =>
      if String.eqb line EmptyString then fields_of rest
      else match key_value line, fields_of rest with
           | Some (k, v), Some fields => Some ((k, PyStr v) :: fields)
           | _, _ => None
           end
  end.

Definition load (text : string) : option yaml_doc :=
  if String.eqb text EmptyString then Some YOther
  else option_map YMap (fields_of (Py.split PyText.LF text)).

Definition safe_dump (fields : list (string * pyval)) : string :=
  String.concat EmptyString
    (map (fun kv => (fst kv ++ ": " ++ PyVal.str (snd kv) ++ PyText.newline)%string)
         fields).

Definition fragment (author title : string) : node :=
  File (safe_dump [("author", PyStr author); ("title", PyStr title)]).

End DemoYaml.

(** A repository with two pending fragments and a note next to them, one
    release already made, and a changelog from an earlier run. *)
Definition pending_world : world :=
  mkWorld
    (Dir [("changelogs",
           Dir [("unreleased",
                 Dir [("fix.yml", DemoYaml.fragment "ana" "Fix bug");
                      ("notes.txt", File "not a fragment");
                      ("feature.yml", DemoYaml.fragment "bo" "Add feature")]);
                ("released",
                 Dir [("v1.0.0",
                       Dir [("first.yml", DemoYaml.fragment "ana" "First change");
                            ("release-info",
                             File (DemoYaml.safe_dump
                                     [("date", PyStr "2026-01-15");
                                      ("released_by", PyStr "ana")]))])])]);
          ("CHANGELOG.md", File "previous changelog")])
    "/repo" "releaser" "2026-11-04" [] [].

(** The same repository with nothing pending: only the note is left. *)
Definition idle_world : world :=
  mkWorld
    (Dir [("changelogs",
           Dir [("unreleased", Dir [("notes.txt", File "not a fragment")]);
                ("released", Dir [("v1.0.0", Dir [])])]);
          ("CHANGELOG.md", File "previous changelog")])
    "/repo" "releaser" "2026-11-04" [] [].

(** The record [write_release_info] writes in the world [w]. *)
Definition release_info_file (yaml_safe_dump : list (string * pyval) -> string)
    (w : world) : node :=
  File (yaml_safe_dump [("date", PyStr (today w));
                        ("released_by", PyStr (git_user_name w))]).

(** A fragment text that does not decode, or decodes to something that has
    no [author] or no [title]. *)
Definition malformed (yaml_load : string -> option yaml_doc) (text : string) : bool :=
  match yaml_load text with
  | None => true
  | Some entry =>
      match PyVal.getitem entry "author", PyVal.getitem entry "title" with
      | Ok _, Ok _ => false
      | _, _ => true
      end
  end.

(** A computation that leaves what is at the path [q] as it found it. *)
Definition keeps_path {A : Type} (q : path) (m : M A) : Prop :=
  forall w, Tree.lookup q (fs (snd (m w))) = Tree.lookup q (fs w).

(** A repository whose release v1.0.0 holds a fragment without a title. *)
Definition broken_world : world :=
  mkWorld
    (Dir [("changelogs",
           Dir [("unreleased", Dir []);
                ("released",
                 Dir [("v1.0.0",
                       Dir [("good.yml", DemoYaml.fragment "ana" "First change");
                            ("bad.yml",
                             File (DemoYaml.safe_dump [("author", PyStr "bo")]))])])]);
          ("CHANGELOG.md", File "previous changelog")])
    "/repo" "releaser" "2026-11-04" [] [].

(** A name without the path separator: it is one component of a path. *)
Fixpoint no_separator (s : string) : bool :=
  match s with
  | EmptyString => true
  | String c rest => negb (Ascii.eqb c "/") && no_separator rest
  end.

(** ** Notions the further properties are stated with *)

(** The world after the given lines were printed. *)
Definition printed (lines : list string) (w : world) : world :=
  mkWorld (fs w) (git_root w) (git_user_name w) (today w)
          (stdout w ++ lines) (shell w).

(** The warning [get_version_folders] prints for an entry of the release
    area it leaves out, if it leaves it out. *)
Definition skip_warning (w : world) (folder : string) : list string :=
  if Tree.is_dir (Tree.lookup (released_folder ++ [folder]) (fs w)) then
    match check_version folder with
    | Ok _ => []
    | _ => [(folder ++ " have unsupported format. Skipping.")%string]
    end
  else [(folder ++ " is not directory. Skipping.")%string].

(** A computation after which what was at the path [q] is still there, or
    something else is. *)
Definition keeps_present {A : Type} (q : path) (m : M A) : Prop :=
  forall w, Tree.lookup q (fs w) <> None ->
            Tree.lookup q (fs (snd (m w))) <> None.

(** A text without carriage return. *)
Fixpoint no_carriage_return (s : string) : bool :=
  match s with
  | EmptyString => true
  | String c rest => negb (Ascii.eqb c PyText.CR) && no_carriage_return rest
  end.


(** The lines the archive contributes: none when there is no archive. *)
Definition archive_lines (t : node) : list string :=
  match Tree.lookup archive_changes_file t with
  | Some (File text) => PyText.readlines text
  | _ => []
  end.


(** Two trees with the same entry [c] at the root (or none in both). *)
Definition agree_on (c : string) (t1 t2 : node) : Prop :=
  Tree.lookup [c] t1 = Tree.lookup [c] t2.

(** A computation that leaves the working tree as it found it, and whose
    result depends only on what is below the entry [c] of the root. *)
Definition reads_below {A : Type} (c : string) (m : M A) : Prop :=
  (forall w, fs (snd (m w)) = fs w) /\
  (forall w1 w2, agree_on c (fs w1) (fs w2) -> fst (m w1) = fst (m w2)).

(** A computation that leaves the component [f] of the world as it found
    it. *)
Definition keeps_field {A B : Type} (f : world -> B) (m : M A) : Prop :=
  forall w, f (snd (m w)) = f w.

(** A component of the world that is not the working tree. *)
Definition beside_tree {B : Type} (f : world -> B) : Prop :=
  forall w t, f (with_fs t w) = f w.

(** A component of the world that is neither the working tree nor the
    output. *)
Definition beside_tree_and_output {B : Type} (f : world -> B) : Prop :=
  forall w t l,
    f (mkWorld t (git_root w) (git_user_name w) (today w) l (shell w)) = f w.

(** The fields of the release-info record made in the world [w]. *)
Definition release_info_fields (w : world) : list (string * pyval) :=
  [("date", PyStr (today w)); ("released_by", PyStr (git_user_name w))].

(** Who releases, and when. *)
Definition releaser_and_day (w : world) : string * string :=
  (git_user_name w, today w).

(** ** The groups of a version, in closed form *)

(** The bullet line of a title. *)
Definition bullet_line (title : string) : string :=
  ("- " ++ title ++ PyText.newline)%string.

(** The authors in the order in which each is met first. *)
Fixpoint first_seen (authors : list pyval) : list pyval :=
  match authors with
  | [] => []
  | a :: rest => a :: filter (fun b => negb (PyVal.eqb a b)) (first_seen rest)
  end.

(** The bullets of the author [a] among the entries (author, title), in the
    order of the entries. *)
Definition bullets_of (a : pyval) (entries : list (pyval * string)) : list string :=
  map (fun e => bullet_line (snd e)) (filter (fun e => PyVal.eqb a (fst e)) entries).

Definition grouped (entries : list (pyval * string)) : PyVal.changes_dict :=
  map (fun a => (a, bullets_of a entries)) (first_seen (map fst entries)).

(** The author [a] is a key of [changes]. *)
Definition has (a : pyval) (changes : PyVal.changes_dict) : bool :=
  existsb (fun kv => PyVal.eqb a (fst kv)) changes.

(** One turn of the loop of [get_version_changes], on an entry that decoded
    to the author [fst e] and the title [snd e]. *)
Definition collect (changes : PyVal.changes_dict) (e : pyval * string)
  : PyVal.changes_dict :=
  PyVal.append_to (fst e) (bullet_line (snd e))
    (if negb (has (fst e) changes)
     then PyVal.add_key (fst e) changes else changes).

(** The file [file] of [folder] decodes to a mapping whose author is [fst e],
    a value that can be a key, and whose title is the text [snd e]. *)
Definition decodes_to (yaml_load : string -> option yaml_doc) (w : world)
    (folder : path) (file : string) (e : pyval * string) : Prop :=
  exists text fields,
    Tree.lookup (folder ++ [file]) (fs w) = Some (File text)
    /\ yaml_load text = Some (YMap fields)
    /\ Tree.assoc "author" fields = Some (fst e)
    /\ PyVal.hashable (fst e) = true
    /\ Tree.assoc "title" fields = Some (PyStr (snd e)).

(** A repository whose release v3.0.0 holds three fragments by two authors,
    the second author between the two fragments of the first. *)
Definition team_world : world :=
  mkWorld
    (Dir [("changelogs",
           Dir [("unreleased", Dir []);
                ("released",
                 Dir [("v3.0.0",
                       Dir [("a.yml", DemoYaml.fragment "ana" "Fix bug");
                            ("b.yml", DemoYaml.fragment "bo" "Add feature");
                            ("release-info", File "date: 2026-03-01");
                            ("c.yml", DemoYaml.fragment "ana" "Tidy up")])])])])
    "/repo" "releaser" "2026-11-04" [] [].

(** What is at the place of a release-info but cannot serve as one: a
    directory, or a file that does not decode or decodes to something that is
    no mapping. *)
Definition unusable_release_info (yaml_load : string -> option yaml_doc)
    (n : node) : Prop :=
  match n with
  | Dir _ => True
  | File text => yaml_load text = None \/ yaml_load text = Some YOther
  end.


(** The folder [f] has the sort key [k]. *)
Definition has_key (k : list Z) (f : string) : bool :=
  match version_strings_key f with
  | Ok k' => if list_eq_dec Z.eq_dec k k' then true else false
  | _ => false
  end.

(** * Version identifiers: validation and the sort key *)

Lemma tuple_map_int_outcome (parts : list string) :
  (exists ns, Py.tuple_map_int parts = Ok ns) \/
  Py.tuple_map_int parts = Raised ValueError.
Proof.
  induction parts as [|p ps IH]; simpl.
  - left. now exists [].
  - unfold Py.int. destruct (Py.parse_int p) as [n|]; [|now right].
    destruct IH as [[ns ->]| ->]; [left; now exists (n :: ns)|now right].
Qed.

Lemma tuple_map_int_Ok (parts : list string) (ns : list Z) :
  Py.tuple_map_int parts = Ok ns <->
  Forall2 (fun p n => Py.parse_int p = Some n) parts ns.
Proof.
  revert ns. induction parts as [|p ps IH]; intros ns; simpl.
  - split; intros H.
    + injection H as <-. constructor.
    + inversion H. reflexivity.
  - unfold Py.int. split; intros H.
    + destruct (Py.parse_int p) as [n|] eqn:Hp; [|discriminate].
      destruct (Py.tuple_map_int ps) as [ms| |] eqn:Hps; try discriminate.
      injection H as <-. constructor; [assumption|]. now apply IH.
    + inversion H as [|? n ? ms Hp Hrest]; subst. rewrite Hp.
      apply IH in Hrest. now rewrite Hrest.
Qed.

Lemma tuple_map_int_accepts (parts : list string) :
  (exists ns, Py.tuple_map_int parts = Ok ns) <->
  Forall (fun p => Py.parse_int p <> None) parts.
Proof.
  induction parts as [|p ps IH]; simpl.
  - split; [constructor|]. intros _. now exists [].
  - unfold Py.int. split.
    + intros [ns H]. destruct (Py.parse_int p) as [n|] eqn:Hp; [|discriminate].
      constructor; [now rewrite Hp|].
      apply IH. destruct (Py.tuple_map_int ps) as [ms| |]; try discriminate.
      now exists ms.
    + intros H. inversion H as [|? ? Hp Hps]; subst.
      apply IH in Hps. destruct Hps as [ms ->].
      destruct (Py.parse_int p) as [n|]; [|congruence]. now exists (n :: ms).
Qed.

Lemma split_nonempty (sep : ascii) (s : string) : Py.split sep s <> [].
Proof.
  destruct s as [|c rest]; simpl; [discriminate|].
  destruct (Ascii.eqb c sep); [discriminate|].
  destruct (Py.split sep rest); discriminate.
Qed.

Lemma length_lt_2 (c : ascii) (rest : string) :
  (String.length (String c rest) <? 2)%nat = true <-> rest = EmptyString.
Proof.
  destruct rest as [|d rest]; simpl; split; intros H;
    try reflexivity; try discriminate.
Qed.

(** What [check_version] answers on a string with a first character. *)
Lemma check_version_cons (c : ascii) (rest : string) :
  check_version (String c rest) =
    if negb (Ascii.eqb c "v") then Raised (CheckVersionException msg_no_marker)
    else if String.eqb rest EmptyString then Raised (CheckVersionException msg_no_number)
    else match Py.tuple_map_int (Py.split "." rest) with
         | Ok _ => Ok tt
         | _ => Raised (CheckVersionException msg_not_numeric)
         end.
Proof.
  unfold check_version. cbn [Py.index0 Py.slice_from1].
  destruct (negb (Ascii.eqb c "v")); [reflexivity|].
  destruct rest as [|d rest]; [reflexivity|].
  cbn [String.length Nat.ltb Nat.leb String.eqb].
  destruct (tuple_map_int_outcome (Py.split "." (String d rest))) as [[ns ->]| ->];
    reflexivity.
Qed.

Lemma check_version_Ok (s : string) :
  check_version s = Ok tt <->
  exists rest, s = String "v" rest /\ rest <> EmptyString /\
               Forall (fun p => Py.parse_int p <> None) (Py.split "." rest).
Proof.
  destruct s as [|c rest].
  - split; [discriminate|]. intros (r & H & _). discriminate.
  - rewrite check_version_cons. split.
    + destruct (Ascii.eqb c "v") eqn:Hc; cbn [negb]; [|discriminate].
      apply Ascii.eqb_eq in Hc. subst c.
      destruct (String.eqb rest EmptyString) eqn:Hr; [discriminate|].
      apply String.eqb_neq in Hr.
      destruct (Py.tuple_map_int (Py.split "." rest)) as [ns| |] eqn:Hk;
        try discriminate.
      intros _. exists rest. repeat split; [assumption|].
      apply tuple_map_int_accepts. now exists ns.
    + intros (r & Heq & Hne & Hall). injection Heq as -> ->.
      rewrite Ascii.eqb_refl. cbn [negb].
      apply String.eqb_neq in Hne. rewrite Hne.
      apply tuple_map_int_accepts in Hall. destruct Hall as [ns ->]. reflexivity.
Qed.

(** [check_version] answers [Ok], or raises its own exception with one of
    its three messages, on every string that has a first character. *)
Lemma check_version_nonempty (c : ascii) (rest : string) :
  check_version (String c rest) = Ok tt \/
  exists m, check_version (String c rest) = Raised (CheckVersionException m) /\
            In m [msg_no_marker; msg_no_number; msg_not_numeric].
Proof.
  rewrite check_version_cons.
  destruct (negb (Ascii.eqb c "v")).
  { right. eexists. split; [reflexivity|]. simpl. tauto. }
  destruct (String.eqb rest EmptyString).
  { right. eexists. split; [reflexivity|]. simpl. tauto. }
  destruct (Py.tuple_map_int (Py.split "." rest)).
  - now left.
  - right. eexists. split; [reflexivity|]. simpl. tauto.
  - right. eexists. split; [reflexivity|]. simpl. tauto.
Qed.

Lemma check_version_key (s : string) :
  check_version s = Ok tt -> exists ns, version_strings_key s = Ok ns.
Proof.
  intros H. apply check_version_Ok in H. destruct H as (rest & -> & _ & Hall).
  apply tuple_map_int_accepts in Hall. exact Hall.
Qed.

(** ** The order on keys *)

Lemma tuple_lt_irrefl (a : list Z) : Py.tuple_lt a a = false.
Proof.
  induction a as [|x a IH]; simpl; [reflexivity|]. now rewrite Z.eqb_refl.
Qed.

Lemma tuple_lt_trans (a b c : list Z) :
  Py.tuple_lt a b = true -> Py.tuple_lt b c = true -> Py.tuple_lt a c = true.
Proof.
  revert b c. induction a as [|x a IH]; intros [|y b] [|z c]; simpl;
    try discriminate; try reflexivity.
  destruct (Z.eqb_spec x y), (Z.eqb_spec y z), (Z.eqb_spec x z); subst;
    try lia; intros H1 H2; try (apply Z.ltb_lt in H1); try (apply Z.ltb_lt in H2);
    try (apply Z.ltb_lt); try lia; eauto.
Qed.

Lemma tuple_lt_total (a b : list Z) :
  Py.tuple_lt a b = false -> Py.tuple_lt b a = true \/ a = b.
Proof.
  revert b. induction a as [|x a IH]; intros [|y b]; simpl;
    try discriminate; auto.
  rewrite (Z.eqb_sym y x).
  destruct (Z.eqb_spec x y).
  - subst. intros H. destruct (IH _ H) as [H'|H']; [now left|right; congruence].
  - intros H. left. apply Z.ltb_ge in H. apply Z.ltb_lt. lia.
Qed.

Lemma tuple_ge_trans (a b c : list Z) : tuple_ge a b -> tuple_ge b c -> tuple_ge a c.
Proof.
  intros [H1| ->] [H2| ->]; unfold tuple_ge; auto.
  left. eapply tuple_lt_trans; eassumption.
Qed.

(** ** [sorted(..., reverse=True)] *)

Lemma insert_desc_perm {A : Type} (x : list Z * A) (l : list (list Z * A)) :
  Permutation (Py.insert_desc x l) (x :: l).
Proof.
  induction l as [|y l IH]; simpl; [reflexivity|].
  destruct (Py.tuple_lt (fst x) (fst y)); [|reflexivity].
  rewrite IH. apply perm_swap.
Qed.

Lemma sorted_reverse_perm {A : Type} (l : list (list Z * A)) :
  Permutation (Py.sorted_reverse l) l.
Proof.
  induction l as [|x l IH]; simpl; [reflexivity|].
  rewrite insert_desc_perm. now constructor.
Qed.

Lemma insert_desc_sorted {A : Type} (x : list Z * A) (l : list (list Z * A)) :
  StronglySorted keyed_ge l -> StronglySorted keyed_ge (Py.insert_desc x l).
Proof.
  induction l as [|y l IH]; simpl; intros Hs.
  - constructor; constructor.
  - inversion Hs as [|? ? Hl Hy]; subst.
    destruct (Py.tuple_lt (fst x) (fst y)) eqn:Hxy.
    + constructor; [now apply IH|].
      eapply Permutation_Forall; [symmetry; apply insert_desc_perm|].
      constructor; [now left|assumption].
    + constructor; [assumption|].
      assert (Hge : keyed_ge x y).
      { destruct (tuple_lt_total _ _ Hxy) as [H|H]; [now left|now right]. }
      constructor; [assumption|].
      eapply Forall_impl; [|exact Hy].
      intros z Hz. eapply tuple_ge_trans; eassumption.
Qed.

Lemma sorted_reverse_sorted {A : Type} (l : list (list Z * A)) :
  StronglySorted keyed_ge (Py.sorted_reverse l).
Proof.
  induction l as [|x l IH]; simpl; [constructor|]. now apply insert_desc_sorted.
Qed.

(** Items with the same key keep the order they came in. *)
Lemma insert_desc_stable {A : Type} (x : list Z * A) (l : list (list Z * A)) :
  Forall (fun y => fst y = fst x) l -> Py.insert_desc x l = x :: l.
Proof.
  destruct l as [|y l]; simpl; [reflexivity|].
  intros H. inversion H as [|? ? Hy _]; subst.
  now rewrite Hy, tuple_lt_irrefl.
Qed.

(** ** The keys of a list of folders and their order after sorting *)

Lemma with_keys_Ok (folders : list string) (keyed : list (list Z * string)) :
  with_keys folders = Ok keyed ->
  map snd keyed = folders /\
  Forall (fun kf => version_strings_key (snd kf) = Ok (fst kf)) keyed.
Proof.
  revert keyed. induction folders as [|f rest IH]; simpl; intros keyed H.
  - injection H as <-. split; [reflexivity|constructor].
  - destruct (version_strings_key f) as [k| |] eqn:Hk; try discriminate.
    destruct (with_keys rest) as [keyed'| |] eqn:Hrest; try discriminate.
    injection H as <-. destruct (IH _ eq_refl) as [Hm Hf].
    split; [simpl; now rewrite Hm|]. constructor; assumption.
Qed.

Lemma with_keys_total (folders : list string) :
  Forall (fun f => check_version f = Ok tt) folders ->
  exists keyed, with_keys folders = Ok keyed.
Proof.
  induction 1 as [|f rest Hf _ IH]; simpl.
  - now exists [].
  - destruct (check_version_key _ Hf) as [k ->]. destruct IH as [keyed ->].
    now eexists.
Qed.

Lemma keyed_sorted_versions (keyed : list (list Z * string)) :
  Forall (fun kf => version_strings_key (snd kf) = Ok (fst kf)) keyed ->
  StronglySorted keyed_ge keyed ->
  StronglySorted newer_or_equal (map snd keyed).
Proof.
  intros Hk Hs. induction Hs as [|x l Hl IH Hx]; simpl; [constructor|].
  inversion Hk as [|? ? Hkx Hkl]; subst.
  constructor; [now apply IH|].
  rewrite Forall_map. rewrite Forall_forall in *.
  intros y Hy. exists (fst x), (fst y). repeat split; auto. now apply Hx.
Qed.

Lemma sorted_by_version_key_Ok (folders vs : list string) :
  sorted_by_version_key folders = Ok vs ->
  Permutation vs folders /\ StronglySorted newer_or_equal vs.
Proof.
  unfold sorted_by_version_key.
  destruct (with_keys folders) as [keyed| |] eqn:Hk; try discriminate.
  intros H. injection H as <-. destruct (with_keys_Ok _ _ Hk) as [Hm Hf].
  split.
  - rewrite <- Hm. apply Permutation_map, sorted_reverse_perm.
  - apply keyed_sorted_versions; [|apply sorted_reverse_sorted].
    eapply Permutation_Forall; [symmetry; apply sorted_reverse_perm|assumption].
Qed.

Lemma sorted_by_version_key_total (folders : list string) :
  Forall (fun f => check_version f = Ok tt) folders ->
  exists vs, sorted_by_version_key folders = Ok vs.
Proof.
  intros H. unfold sorted_by_version_key.
  destruct (with_keys_total _ H) as [keyed ->]. now eexists.
Qed.

(** ** Claims on validation *)

(** C2, as the code has it: [check_version] accepts exactly the strings made
    of the marker [v], then a remainder that is not empty and whose parts
    between dots are all read by [int] (which admits a sign, blanks around
    the literal and single underscores between digits, so a part may be
    negative); the sort key of an accepted string is the tuple of the
    integers read, in order; a string without the marker, with a part [int]
    refuses, or with nothing after the marker is not accepted. *)
Theorem check_version_accepts_iff (s : string) :
  (check_version s = Ok tt <->
     exists rest, s = String "v" rest /\ rest <> EmptyString /\
                  Forall (fun p => Py.parse_int p <> None) (Py.split "." rest))
  /\ (check_version s = Ok tt ->
      exists ns, version_strings_key s = Ok ns /\
                 Forall2 (fun p n => Py.parse_int p = Some n)
                         (Py.split "." (Py.slice_from1 s)) ns)
  /\ ((forall rest, s <> String "v" rest) -> check_version s <> Ok tt)
  /\ (Exists (fun p => Py.parse_int p = None) (Py.split "." (Py.slice_from1 s)) ->
      check_version s <> Ok tt)
  /\ (Py.slice_from1 s = EmptyString -> check_version s <> Ok tt).
Proof.
  split; [apply check_version_Ok|]. split; [|split; [|split]].
  - intros H. destruct (check_version_key _ H) as [ns Hns]. exists ns.
    split; [assumption|]. now apply tuple_map_int_Ok.
  - intros Hno H. apply check_version_Ok in H. destruct H as (rest & -> & _).
    now apply (Hno rest).
  - intros Hex H. apply check_version_Ok in H.
    destruct H as (rest & -> & _ & Hall). simpl in Hex.
    apply Exists_exists in Hex. destruct Hex as (p & Hin & Hp).
    rewrite Forall_forall in Hall. now apply (Hall p Hin).
  - intros He H. apply check_version_Ok in H.
    destruct H as (rest & -> & Hne & _). now apply Hne.
Qed.

(** The accepted string [v1.2.19] and its key. *)
Lemma check_version_accepts_iff_witness :
  check_version "v1.2.19" = Ok tt /\
  exists ns, version_strings_key "v1.2.19" = Ok ns /\
             Forall2 (fun p n => Py.parse_int p = Some n)
                     (Py.split "." (Py.slice_from1 "v1.2.19")) ns.
Proof.
  split; [reflexivity|].
  apply (proj1 (proj2 (check_version_accepts_iff "v1.2.19"))). reflexivity.
Defined.

(** C2 as the specification words it fails at [v-1]: [check_version] accepts
    the string although its part [-1] is a negative integer. *)
Lemma check_version_accepts_negative :
  check_version "v-1" = Ok tt /\
  version_strings_key "v-1" = Ok [(-1)%Z] /\
  ~ spec_validate "v-1".
Proof.
  split; [reflexivity|]. split; [reflexivity|].
  intros (rest & Heq & _ & Hall). injection Heq as <-.
  change (Py.split "." "-1") with ["-1"] in Hall.
  inversion Hall as [|? ? (n & Hn & Hpos) _]; subst.
  vm_compute in Hn. injection Hn as <-. lia.
Qed.

(** C8 at the empty string: [check_version] reads [version_string[0]] before
    it looks at the length, so the empty string leaves it with [IndexError],
    which the handler of [main] does not catch; every other string is
    accepted or refused with [CheckVersionException] and one of its three
    messages. *)
Theorem check_version_empty_string_IndexError :
  check_version EmptyString = Raised IndexError
  /\ (forall yaml_load yaml_safe_dump w,
        main yaml_load yaml_safe_dump (mkArgs EmptyString false) w
        = (Raised IndexError, w))
  /\ (forall c rest,
        check_version (String c rest) = Ok tt \/
        exists m, check_version (String c rest) = Raised (CheckVersionException m) /\
                  In m [msg_no_marker; msg_no_number; msg_not_numeric]).
Proof.
  split; [reflexivity|]. split; [reflexivity|]. apply check_version_nonempty.
Qed.

Lemma permutation_of_three {A : Type} (a b c : A) (l : list A) :
  Permutation l [a; b; c] ->
  In l [[a; b; c]; [a; c; b]; [b; a; c]; [c; a; b]; [b; c; a]; [c; b; a]].
Proof.
  intros H. destruct (Permutation_vs_cons_inv H) as (l1 & l2 & ->).
  symmetry in H. apply Permutation_cons_app_inv in H.
  apply Permutation_length_2_inv in H.
  destruct l1 as [|x [|y [|z l1]]]; simpl in H |- *; destruct H as [H|H];
    try discriminate; subst;
    try (injection H as -> ->); try (injection H as -> -> ->).
  all: subst; tauto.
Qed.

(** * Reasoning on computations *)

#[local] Arguments Tree.lookup : simpl never.
#[local] Arguments Tree.put : simpl never.
#[local] Arguments Tree.remove : simpl never.
#[local] Arguments Tree.makedirs : simpl never.
#[local] Arguments app : simpl never.

Lemma bind_Ok {A B : Type} (m : M A) (k : A -> M B) (w w2 : world) (b : B) :
  bind m k w = (Ok b, w2) ->
  exists a w1, m w = (Ok a, w1) /\ k a w1 = (Ok b, w2).
Proof.
  unfold bind. destruct (m w) as [[a|e|c] w1]; try discriminate.
  intros H. now exists a, w1.
Qed.

Lemma bind_run {A B : Type} (m : M A) (k : A -> M B) (w w1 : world) (a : A) :
  m w = (Ok a, w1) -> bind m k w = k a w1.
Proof. unfold bind. now intros ->. Qed.

Lemma reads_only_ret {A : Type} (a : A) : reads_only (ret a).
Proof. split; reflexivity. Qed.

Lemma reads_only_raise {A : Type} (e : exn) : reads_only (@raise A e).
Proof. split; reflexivity. Qed.

Lemma reads_only_lift {A : Type} (o : outcome A) : reads_only (lift o).
Proof. split; reflexivity. Qed.

Lemma reads_only_print (line : string) : reads_only (print line).
Proof. split; reflexivity. Qed.

Lemma reads_only_exists (p : path) : reads_only (os_path_exists p).
Proof. split; [reflexivity|]. intros w1 w2 H. unfold os_path_exists. simpl. now rewrite H. Qed.

Lemma reads_only_isdir (p : path) : reads_only (os_path_isdir p).
Proof. split; [reflexivity|]. intros w1 w2 H. unfold os_path_isdir. simpl. now rewrite H. Qed.

Lemma reads_only_listdir (p : path) : reads_only (os_listdir p).
Proof.
  split.
  - intros w. unfold os_listdir. now destruct (Tree.lookup p (fs w)) as [[|]|].
  - intros w1 w2 H. unfold os_listdir. rewrite H.
    now destruct (Tree.lookup p (fs w2)) as [[|]|].
Qed.

Lemma reads_only_read_file (p : path) : reads_only (read_file p).
Proof.
  split.
  - intros w. unfold read_file. now destruct (Tree.lookup p (fs w)) as [[|]|].
  - intros w1 w2 H. unfold read_file. rewrite H.
    now destruct (Tree.lookup p (fs w2)) as [[|]|].
Qed.

Lemma reads_only_bind {A B : Type} (m : M A) (k : A -> M B) :
  reads_only m -> (forall a, reads_only (k a)) -> reads_only (bind m k).
Proof.
  intros [Hm1 Hm2] Hk. split.
  - intros w. unfold bind. specialize (Hm1 w).
    destruct (m w) as [[a|e|c] w1]; simpl in *; try assumption.
    rewrite <- Hm1. apply (Hk a).
  - intros w1 w2 H. unfold bind.
    pose proof (Hm2 w1 w2 H) as Hf. pose proof (Hm1 w1) as H1. pose proof (Hm1 w2) as H2.
    destruct (m w1) as [o1 u1], (m w2) as [o2 u2]; simpl in *. subst o2.
    destruct o1 as [a|e|c]; try reflexivity.
    apply (Hk a). congruence.
Qed.

Lemma never_exits_ret {A : Type} (a : A) : never_exits (ret a).
Proof. intros w c. discriminate. Qed.

Lemma never_exits_raise {A : Type} (e : exn) : never_exits (@raise A e).
Proof. intros w c. discriminate. Qed.

Lemma never_exits_print (line : string) : never_exits (print line).
Proof. intros w c. discriminate. Qed.

Lemma never_exits_exists (p : path) : never_exits (os_path_exists p).
Proof. intros w c. discriminate. Qed.

Lemma never_exits_isdir (p : path) : never_exits (os_path_isdir p).
Proof. intros w c. discriminate. Qed.

Lemma never_exits_listdir (p : path) : never_exits (os_listdir p).
Proof.
  intros w c. unfold os_listdir.
  destruct (Tree.lookup p (fs w)) as [[|]|]; discriminate.
Qed.

Lemma never_exits_read_file (p : path) : never_exits (read_file p).
Proof.
  intros w c. unfold read_file.
  destruct (Tree.lookup p (fs w)) as [[|]|]; discriminate.
Qed.

Lemma never_exits_lift {A : Type} (o : outcome A) :
  (forall c, o <> Exited c) -> never_exits (lift o).
Proof. intros H w c. apply H. Qed.

Lemma never_exits_bind {A B : Type} (m : M A) (k : A -> M B) :
  never_exits m -> (forall a, never_exits (k a)) -> never_exits (bind m k).
Proof.
  intros Hm Hk w c. unfold bind. specialize (Hm w).
  destruct (m w) as [[a|e|c'] w1]; simpl in *.
  - apply Hk.
  - discriminate.
  - now destruct (Hm c').
Qed.

Create HintDb reads.
#[local] Hint Resolve reads_only_ret reads_only_raise reads_only_lift
  reads_only_print reads_only_exists reads_only_isdir reads_only_listdir
  reads_only_read_file : reads.
#[local] Hint Resolve never_exits_ret never_exits_raise never_exits_print
  never_exits_exists never_exits_isdir never_exits_listdir
  never_exits_read_file : reads.

(** Decompose a goal on a sequence of calls into goals on the calls. *)
Ltac step_reads :=
  repeat first
    [ apply reads_only_bind; [|intros ?]
    | apply never_exits_bind; [|intros ?]
    | solve [auto with reads] ].

(** ** [get_version_folders] *)

Lemma check_version_never_exits (s : string) (c : Z) : check_version s <> Exited c.
Proof.
  destruct s as [|a rest]; [discriminate|].
  destruct (check_version_nonempty a rest) as [->|(m & -> & _)]; discriminate.
Qed.

Lemma tuple_map_int_never_exits (parts : list string) (c : Z) :
  Py.tuple_map_int parts <> Exited c.
Proof.
  destruct (tuple_map_int_outcome parts) as [[ns ->]| ->]; discriminate.
Qed.

Lemma sorted_by_version_key_never_exits (folders : list string) (c : Z) :
  sorted_by_version_key folders <> Exited c.
Proof.
  unfold sorted_by_version_key.
  assert (H : forall c', with_keys folders <> Exited c').
  { induction folders as [|f rest IH]; simpl; [discriminate|]. intros c'.
    pose proof (tuple_map_int_never_exits (Py.split "." (Py.slice_from1 f))) as Hk.
    unfold version_strings_key.
    destruct (Py.tuple_map_int _) as [k| |c1]; [|discriminate|now destruct (Hk c1)].
    destruct (with_keys rest) as [keyed| |c2]; [discriminate|discriminate|].
    now destruct (IH c2). }
  destruct (with_keys folders) as [keyed| |c1]; [discriminate|discriminate|].
  now destruct (H c1).
Qed.

Lemma scan_folders_reads_only (listing acc : list string) :
  reads_only (scan_folders listing acc).
Proof.
  revert acc. induction listing as [|folder rest IH]; intros acc; simpl.
  - auto with reads.
  - apply reads_only_bind; [auto with reads|]. intros [|].
    + destruct (check_version folder) as [u|[]|c]; auto with reads.
      * apply reads_only_bind; auto with reads.
      * split; reflexivity.
    + apply reads_only_bind; auto with reads.
Qed.

Lemma scan_folders_never_exits (listing acc : list string) :
  never_exits (scan_folders listing acc).
Proof.
  revert acc. induction listing as [|folder rest IH]; intros acc; simpl.
  - auto with reads.
  - apply never_exits_bind; [auto with reads|]. intros [|].
    + pose proof (check_version_never_exits folder) as Hc.
      destruct (check_version folder) as [u|[]|c]; auto with reads.
      * apply never_exits_bind; auto with reads.
      * now destruct (Hc c).
    + apply never_exits_bind; auto with reads.
Qed.

Lemma kept_ext (w1 w2 : world) :
  fs w1 = fs w2 -> forall folder, kept w1 folder = kept w2 folder.
Proof. intros H folder. unfold kept. now rewrite H. Qed.

Lemma scan_folders_Ok (listing acc : list string) (w w' : world) (vs : list string) :
  scan_folders listing acc w = (Ok vs, w') ->
  vs = acc ++ filter (kept w) listing.
Proof.
  revert acc w. induction listing as [|folder rest IH]; intros acc w; simpl.
  - unfold ret. intros H. injection H as <- _. now rewrite app_nil_r.
  - unfold bind at 1. unfold os_path_isdir. unfold kept at 1.
    destruct (Tree.is_dir _) eqn:Hd; cbn [andb].
    + destruct (check_version folder) as [u|e|c] eqn:Hc.
      * intros H. apply IH in H. now rewrite <- app_assoc in H.
      * destruct e; try (unfold raise; discriminate).
        unfold bind, print. intros H. apply IH in H. exact H.
      * unfold exit. discriminate.
    + unfold bind, print. intros H. apply IH in H. exact H.
Qed.

Lemma scan_folders_all_kept (listing acc : list string) (w : world) :
  Forall (fun folder => kept w folder = true) listing ->
  scan_folders listing acc w = (Ok (acc ++ listing), w).
Proof.
  revert acc. induction listing as [|folder rest IH]; intros acc H; simpl.
  - now rewrite app_nil_r.
  - inversion H as [|? ? Hk Hrest]; subst.
    unfold kept in Hk. apply andb_prop in Hk. destruct Hk as [Hd Hc].
    unfold bind at 1. unfold os_path_isdir. rewrite Hd.
    destruct (check_version folder) as [u|e|c]; try discriminate.
    rewrite IH by assumption. now rewrite <- app_assoc.
Qed.

Lemma get_version_folders_reads_only :
  reads_only get_version_folders /\ never_exits get_version_folders.
Proof.
  unfold get_version_folders. split.
  - apply reads_only_bind; [auto with reads|]. intros listing.
    apply reads_only_bind; [apply scan_folders_reads_only|]. auto with reads.
  - apply never_exits_bind; [auto with reads|]. intros listing.
    apply never_exits_bind; [apply scan_folders_never_exits|]. intros folders.
    apply never_exits_lift. apply sorted_by_version_key_never_exits.
Qed.

Lemma get_version_folders_Ok (w w' : world) (vs : list string) :
  get_version_folders w = (Ok vs, w') ->
  exists es, Tree.lookup released_folder (fs w) = Some (Dir es) /\
             Permutation vs (filter (kept w) (map fst es)) /\
             StronglySorted newer_or_equal vs.
Proof.
  unfold get_version_folders. intros H.
  apply bind_Ok in H. destruct H as (listing & w1 & Hl & H).
  apply bind_Ok in H. destruct H as (folders & w2 & Hs & H).
  unfold lift in H. injection H as H _.
  unfold os_listdir in Hl.
  destruct (Tree.lookup released_folder (fs w)) as [[|es]|] eqn:Hlook;
    try discriminate.
  injection Hl as <- <-. exists es. split; [reflexivity|].
  apply scan_folders_Ok in Hs. simpl in Hs. subst folders.
  now apply sorted_by_version_key_Ok.
Qed.

Lemma get_version_folders_all_kept (w : world) (es : list (string * node)) :
  Tree.lookup released_folder (fs w) = Some (Dir es) ->
  Forall (fun folder => kept w folder = true) (map fst es) ->
  get_version_folders w = (lift (sorted_by_version_key (map fst es)) w).
Proof.
  intros Hl Hk. unfold get_version_folders.
  unfold bind at 1. unfold os_listdir. rewrite Hl.
  unfold bind. now rewrite scan_folders_all_kept.
Qed.

Lemma kept_valid (w : world) (folder : string) :
  kept w folder = true -> check_version folder = Ok tt.
Proof.
  unfold kept. intros H. apply andb_prop in H. destruct H as [_ H].
  destruct (check_version folder) as [[]| |]; [reflexivity|discriminate|discriminate].
Qed.

(** ** Claims on the order of versions *)

(** C1. When every entry of the release area is a directory whose name passes
    [check_version], [get_version_folders] returns these names, each once,
    in descending order of the integer key (marker dropped, split at dots,
    parts compared as integers from the left), and it leaves the world as it
    was; in particular the folders v1.2.0, v1.10.0 and v1.2.5, in whatever
    order the listing has them, come out as v1.10.0, v1.2.5, v1.2.0. *)
Theorem get_version_folders_sorted_descending :
  (forall (w : world) (es : list (string * node)),
     Tree.lookup released_folder (fs w) = Some (Dir es) ->
     Forall (fun folder => kept w folder = true) (map fst es) ->
     exists vs, get_version_folders w = (Ok vs, w) /\
                Permutation vs (map fst es) /\
                StronglySorted newer_or_equal vs)
  /\
  (forall (w : world) (es : list (string * node)),
     Tree.lookup released_folder (fs w) = Some (Dir es) ->
     Forall (fun folder => kept w folder = true) (map fst es) ->
     Permutation (map fst es) ["v1.2.0"; "v1.10.0"; "v1.2.5"] ->
     get_version_folders w = (Ok ["v1.10.0"; "v1.2.5"; "v1.2.0"], w)).
Proof.
  split.
  - intros w es Hl Hk. rewrite (get_version_folders_all_kept w es Hl Hk).
    destruct (sorted_by_version_key_total (map fst es)) as [vs Hvs].
    { eapply Forall_impl; [|exact Hk]. intros f. apply kept_valid. }
    exists vs. unfold lift. rewrite Hvs. split; [reflexivity|].
    now apply sorted_by_version_key_Ok.
  - intros w es Hl Hk Hp. rewrite (get_version_folders_all_kept w es Hl Hk).
    apply permutation_of_three in Hp. unfold lift. simpl in Hp.
    destruct Hp as [<-|[<-|[<-|[<-|[<-|[<-|[]]]]]]]; reflexivity.
Qed.

(** The three folders of the example, listed as v1.2.0, v1.10.0, v1.2.5. *)
Lemma get_version_folders_sorted_descending_witness :
  get_version_folders (released_world ["v1.2.0"; "v1.10.0"; "v1.2.5"])
  = (Ok ["v1.10.0"; "v1.2.5"; "v1.2.0"],
     released_world ["v1.2.0"; "v1.10.0"; "v1.2.5"]).
Proof.
  apply (proj2 get_version_folders_sorted_descending
           (released_world ["v1.2.0"; "v1.10.0"; "v1.2.5"])
           (map (fun f => (f, Dir [])) ["v1.2.0"; "v1.10.0"; "v1.2.5"])).
  - reflexivity.
  - repeat constructor.
  - simpl. reflexivity.
Defined.

Lemma sorted_by_version_key_same_key (folders : list string) (k : list Z) :
  Forall (fun f => version_strings_key f = Ok k) folders ->
  sorted_by_version_key folders = Ok folders.
Proof.
  intros H. unfold sorted_by_version_key.
  assert (Hk : with_keys folders = Ok (map (fun f => (k, f)) folders)).
  { induction H as [|f rest Hf _ IH]; simpl; [reflexivity|]. now rewrite Hf, IH. }
  rewrite Hk. f_equal. clear H Hk.
  assert (Hs : Py.sorted_reverse (map (fun f => (k, f)) folders)
               = map (fun f => (k, f)) folders).
  { induction folders as [|f rest IH]; [reflexivity|].
    unfold Py.sorted_reverse in *. cbn [map fold_right]. rewrite IH.
    apply insert_desc_stable.
    rewrite Forall_map. now apply Forall_forall. }
  rewrite Hs. rewrite map_map. simpl. apply map_id.
Qed.

(** C10. The sort key is not injective on accepted version strings: v1.2 and
    v01.2 are different strings, both pass [check_version], and both have the
    key (1, 2); folders with the same key come out of the sort in the order
    the listing had them, so [get_version_folders] returns the two spellings
    in either order, depending on the listing and not on the key. *)
Theorem version_key_not_injective :
  "v1.2" <> "v01.2"
  /\ check_version "v1.2" = Ok tt /\ check_version "v01.2" = Ok tt
  /\ version_strings_key "v1.2" = Ok [1%Z; 2%Z]
  /\ version_strings_key "v01.2" = Ok [1%Z; 2%Z]
  /\ (forall folders k,
        Forall (fun f => version_strings_key f = Ok k) folders ->
        sorted_by_version_key folders = Ok folders)
  /\ get_version_folders (released_world ["v1.2"; "v01.2"])
     = (Ok ["v1.2"; "v01.2"], released_world ["v1.2"; "v01.2"])
  /\ get_version_folders (released_world ["v01.2"; "v1.2"])
     = (Ok ["v01.2"; "v1.2"], released_world ["v01.2"; "v1.2"]).
Proof.
  split; [discriminate|]. repeat (split; [reflexivity|]).
  split; [apply sorted_by_version_key_same_key|]. split; reflexivity.
Qed.

(** * The working tree *)

Section Entries.
Context {A : Type}.
Implicit Types (es : list (string * A)) (v : A) (a c : string).

Lemma assoc_set_entry_same c v es : Tree.assoc c (Tree.set_entry c v es) = Some v.
Proof.
  induction es as [|[n v'] es IH]; simpl.
  - now rewrite String.eqb_refl.
  - destruct (String.eqb c n) eqn:E; simpl; rewrite E; [reflexivity|exact IH].
Qed.

Lemma assoc_set_entry_other a c v es :
  String.eqb a c = false -> Tree.assoc a (Tree.set_entry c v es) = Tree.assoc a es.
Proof.
  intros Hac. induction es as [|[n v'] es IH]; simpl.
  - now rewrite Hac.
  - destruct (String.eqb c n) eqn:E; simpl.
    + apply String.eqb_eq in E. subst n. now rewrite Hac.
    + now rewrite IH.
Qed.

Lemma set_entry_new c v es :
  Tree.assoc c es = None -> Tree.set_entry c v es = es ++ [(c, v)].
Proof.
  induction es as [|[n v'] es IH]; simpl; [reflexivity|].
  destruct (String.eqb c n); [discriminate|]. intros H. now rewrite IH.
Qed.

Lemma assoc_app_new c v es :
  Tree.assoc c es = None -> Tree.assoc c (es ++ [(c, v)]) = Some v.
Proof.
  intros H. rewrite <- (set_entry_new c v es H). apply assoc_set_entry_same.
Qed.

Lemma assoc_app_other a c v es :
  String.eqb a c = false -> Tree.assoc a (es ++ [(c, v)]) = Tree.assoc a es.
Proof.
  intros Hac. induction es as [|[n v'] es IH]; simpl.
  - now rewrite Hac.
  - now rewrite IH.
Qed.

Lemma assoc_del_entry_other a c es :
  String.eqb a c = false -> Tree.assoc a (Tree.del_entry c es) = Tree.assoc a es.
Proof.
  intros Hac. unfold Tree.del_entry.
  induction es as [|[n v'] es IH]; simpl; [reflexivity|].
  destruct (String.eqb c n) eqn:E; simpl.
  - apply String.eqb_eq in E. subst n. now rewrite Hac.
  - now rewrite IH.
Qed.

Lemma assoc_del_entry_same c es : Tree.assoc c (Tree.del_entry c es) = None.
Proof.
  unfold Tree.del_entry.
  induction es as [|[n v'] es IH]; simpl; [reflexivity|].
  destruct (String.eqb c n) eqn:E; simpl; [exact IH|]. now rewrite E.
Qed.

Lemma assoc_In_names c es : Tree.assoc c es <> None <-> In c (map fst es).
Proof.
  induction es as [|[n v'] es IH]; simpl; [tauto|].
  destruct (String.eqb_spec c n).
  - subst. split; [auto|discriminate].
  - rewrite IH. split; [auto|]. intros [H|H]; [congruence|assumption].
Qed.

End Entries.


Lemma lookup_cons (c : string) (p : path) (es : list (string * node)) :
  Tree.lookup (c :: p) (Dir es) =
    match Tree.assoc c es with
    | Some child => Tree.lookup p child
    | None => None
    end.
Proof. reflexivity. Qed.

Lemma lookup_app (p q : path) (t : node) :
  Tree.lookup (p ++ q) t =
    match Tree.lookup p t with
    | Some n => Tree.lookup q n
    | None => None
    end.
Proof.
  revert t. induction p as [|c p IH]; intros t; [reflexivity|].
  change ((c :: p) ++ q) with (c :: (p ++ q)).
  destruct t as [text|es]; [reflexivity|].
  rewrite !lookup_cons. destruct (Tree.assoc c es); [apply IH|reflexivity].
Qed.

Lemma lookup_chain (p : path) : Tree.lookup p (Tree.chain p) = Some (Dir []).
Proof.
  induction p as [|c p IH]; [reflexivity|].
  cbn [Tree.chain]. rewrite lookup_cons. cbn [Tree.assoc].
  now rewrite String.eqb_refl.
Qed.

(** Unfolding equations of the operations one level down. *)

Lemma put_last (c : string) (v : node) (es : list (string * node)) :
  Tree.put [c] v (Dir es) = Ok (Dir (Tree.set_entry c v es)).
Proof. reflexivity. Qed.

Lemma put_deeper (c c' : string) (p : path) (v : node) (es : list (string * node)) :
  Tree.put (c :: c' :: p) v (Dir es) =
    match Tree.assoc c es with
    | None => Raised FileNotFoundError
    | Some child =>
        match Tree.put (c' :: p) v child with
        | Ok child' => Ok (Dir (Tree.set_entry c child' es))
        | other => other
        end
    end.
Proof. reflexivity. Qed.

Lemma remove_last (c : string) (es : list (string * node)) :
  Tree.remove [c] (Dir es) =
    match Tree.assoc c es with
    | None => Raised FileNotFoundError
    | Some _ => Ok (Dir (Tree.del_entry c es))
    end.
Proof. reflexivity. Qed.

Lemma remove_deeper (c c' : string) (p : path) (es : list (string * node)) :
  Tree.remove (c :: c' :: p) (Dir es) =
    match Tree.assoc c es with
    | None => Raised FileNotFoundError
    | Some child =>
        match Tree.remove (c' :: p) child with
        | Ok child' => Ok (Dir (Tree.set_entry c child' es))
        | other => other
        end
    end.
Proof. reflexivity. Qed.

Lemma makedirs_cons (c : string) (p : path) (es : list (string * node)) :
  Tree.makedirs (c :: p) (Dir es) =
    match Tree.assoc c es with
    | None => Ok (Dir (es ++ [(c, Tree.chain p)]))
    | Some child =>
        match Tree.makedirs p child with
        | Ok child' => Ok (Dir (Tree.set_entry c child' es))
        | other => other
        end
    end.
Proof. reflexivity. Qed.

(** ** Effect of [put], [remove] and [makedirs] on other paths *)

Lemma put_diverge (p q : path) (v t t' : node) :
  diverge p q = true -> Tree.put p v t = Ok t' ->
  Tree.lookup q t' = Tree.lookup q t.
Proof.
  revert q t t'. induction p as [|c p IH]; intros q t t' Hd H; [discriminate|].
  destruct q as [|b q]; [discriminate|]. cbn [diverge] in Hd.
  destruct t as [text|es]; [destruct p; discriminate|].
  destruct p as [|c' p'].
  - rewrite put_last in H.
    injection H as <-. destruct (String.eqb c b) eqn:E; [discriminate|].
    rewrite !lookup_cons. rewrite assoc_set_entry_other; [reflexivity|].
    now rewrite String.eqb_sym.
  - rewrite put_deeper in H.
    destruct (Tree.assoc c es) as [child|] eqn:Hc; [|discriminate].
    destruct (Tree.put (c' :: p') v child) as [child'| |] eqn:Hp; try discriminate.
    injection H as <-. rewrite !lookup_cons.
    destruct (String.eqb c b) eqn:E.
    + apply String.eqb_eq in E. subst b.
      rewrite assoc_set_entry_same, Hc. eapply IH; eassumption.
    + rewrite assoc_set_entry_other; [reflexivity|]. now rewrite String.eqb_sym.
Qed.

Lemma remove_diverge (p q : path) (t t' : node) :
  diverge p q = true -> Tree.remove p t = Ok t' ->
  Tree.lookup q t' = Tree.lookup q t.
Proof.
  revert q t t'. induction p as [|c p IH]; intros q t t' Hd H; [discriminate|].
  destruct q as [|b q]; [discriminate|]. cbn [diverge] in Hd.
  destruct t as [text|es]; [destruct p; discriminate|].
  destruct p as [|c' p'].
  - rewrite remove_last in H.
    destruct (Tree.assoc c es) as [child|] eqn:Hc; [|discriminate].
    injection H as <-. destruct (String.eqb c b) eqn:E; [discriminate|].
    rewrite !lookup_cons. rewrite assoc_del_entry_other; [reflexivity|].
    now rewrite String.eqb_sym.
  - rewrite remove_deeper in H.
    destruct (Tree.assoc c es) as [child|] eqn:Hc; [|discriminate].
    destruct (Tree.remove (c' :: p') child) as [child'| |] eqn:Hp; try discriminate.
    injection H as <-. rewrite !lookup_cons.
    destruct (String.eqb c b) eqn:E.
    + apply String.eqb_eq in E. subst b.
      rewrite assoc_set_entry_same, Hc. eapply IH; eassumption.
    + rewrite assoc_set_entry_other; [reflexivity|]. now rewrite String.eqb_sym.
Qed.

Lemma makedirs_diverge (p q : path) (t t' : node) :
  diverge p q = true -> Tree.makedirs p t = Ok t' ->
  Tree.lookup q t' = Tree.lookup q t.
Proof.
  revert q t t'. induction p as [|c p IH]; intros q t t' Hd H; [discriminate|].
  destruct q as [|b q]; [discriminate|]. cbn [diverge] in Hd.
  destruct t as [text|es]; [discriminate|]. rewrite makedirs_cons in H.
  destruct (Tree.assoc c es) as [child|] eqn:Hc.
  - destruct (Tree.makedirs p child) as [child'| |] eqn:Hp; try discriminate.
    injection H as <-. rewrite !lookup_cons.
    destruct (String.eqb c b) eqn:E.
    + apply String.eqb_eq in E. subst b.
      rewrite assoc_set_entry_same, Hc. eapply IH; eassumption.
    + rewrite assoc_set_entry_other; [reflexivity|]. now rewrite String.eqb_sym.
  - injection H as <-. rewrite !lookup_cons.
    destruct (String.eqb c b) eqn:E.
    + apply String.eqb_eq in E. subst b. rewrite Hc.
      rewrite assoc_app_new by assumption.
      (* below a missing directory nothing was there, and [q] parts from [p] *)
      clear -Hd. revert q Hd. induction p as [|c p IH]; intros q Hd.
      * destruct q; discriminate.
      * destruct q as [|b q]; [discriminate|]. cbn [diverge] in Hd.
        cbn [Tree.chain]. rewrite lookup_cons. cbn [Tree.assoc].
        destruct (String.eqb b c) eqn:E.
        -- apply String.eqb_eq in E. subst b. rewrite String.eqb_refl in Hd.
           now apply IH.
        -- reflexivity.
    + rewrite assoc_app_other; [reflexivity|]. now rewrite String.eqb_sym.
Qed.

Lemma makedirs_lookup_new (p : path) (t t' : node) :
  Tree.makedirs p t = Ok t' -> Tree.lookup p t' = Some (Dir []).
Proof.
  revert t t'. induction p as [|c p IH]; intros t t' H; [discriminate|].
  destruct t as [text|es]; [discriminate|]. rewrite makedirs_cons in H.
  destruct (Tree.assoc c es) as [child|] eqn:Hc.
  - destruct (Tree.makedirs p child) as [child'| |] eqn:Hp; try discriminate.
    injection H as <-. rewrite lookup_cons, assoc_set_entry_same.
    eapply IH; eassumption.
  - injection H as <-. rewrite lookup_cons, assoc_app_new by assumption.
    apply lookup_chain.
Qed.

(** ** Effect of [put] and [remove] on the directory they act in *)

Lemma put_parent (p : path) (c : string) (v t : node) (es : list (string * node)) :
  Tree.lookup p t = Some (Dir es) ->
  exists t', Tree.put (p ++ [c]) v t = Ok t' /\
             Tree.lookup p t' = Some (Dir (Tree.set_entry c v es)).
Proof.
  revert t. induction p as [|a p IH]; intros t H.
  - injection H as ->. eexists. split; reflexivity.
  - destruct t as [text|es0]; [discriminate|]. rewrite lookup_cons in H.
    destruct (Tree.assoc a es0) as [child|] eqn:Ha; [|discriminate].
    destruct (IH child H) as (child' & Hp & Hl).
    change ((a :: p) ++ [c]) with (a :: (p ++ [c])).
    destruct (p ++ [c]) as [|x r] eqn:E; [now destruct p|].
    rewrite put_deeper, Ha, Hp. eexists. split; [reflexivity|].
    now rewrite lookup_cons, assoc_set_entry_same.
Qed.


(** * The release transition *)

Lemma released_version_path (version : string) :
  released_folder ++ [version] = ["changelogs"; "released"; version].
Proof. reflexivity. Qed.

Lemma lookup_File (p : path) (c : string) (text : string) :
  Tree.lookup (c :: p) (File text) = None.
Proof. reflexivity. Qed.

(** The destination can be created when nothing is at its place and the
    release area is not a plain file. *)
Lemma makedirs_version_Ok (version : string) (t : node) (un_es : list (string * node)) :
  Tree.lookup unreleased_folder t = Some (Dir un_es) ->
  (forall text, Tree.lookup released_folder t <> Some (File text)) ->
  Tree.lookup (released_folder ++ [version]) t = None ->
  exists t', Tree.makedirs (released_folder ++ [version]) t = Ok t'.
Proof.
  rewrite released_version_path. unfold unreleased_folder, released_folder.
  intros Hun Hrel Hnone.
  destruct t as [text|root]; [discriminate|].
  rewrite lookup_cons in Hun, Hnone. rewrite makedirs_cons.
  pose proof (Hrel) as Hrel'. setoid_rewrite lookup_cons in Hrel'.
  destruct (Tree.assoc "changelogs" root) as [[text|cl]|]; try discriminate.
  rewrite lookup_cons in Hnone. setoid_rewrite lookup_cons in Hrel'.
  rewrite makedirs_cons.
  destruct (Tree.assoc "released" cl) as [[text|rel]|].
  - now destruct (Hrel' text).
  - rewrite lookup_cons in Hnone. rewrite makedirs_cons.
    destruct (Tree.assoc version rel); [discriminate|]. now eexists.
  - now eexists.
Qed.

Lemma os_makedirs_run (p : path) (w : world) (t' : node) :
  Tree.makedirs p (fs w) = Ok t' -> os_makedirs p w = (Ok tt, with_fs t' w).
Proof. unfold os_makedirs. now intros ->. Qed.

Lemma os_listdir_run (p : path) (w : world) (es : list (string * node)) :
  Tree.lookup p (fs w) = Some (Dir es) -> os_listdir p w = (Ok (map fst es), w).
Proof. unfold os_listdir. now intros ->. Qed.

Lemma os_path_exists_run (p : path) (w : world) :
  os_path_exists p w = (Ok (Tree.is_some (Tree.lookup p (fs w))), w).
Proof. reflexivity. Qed.

Section ReleaseFacts.

Variable yaml_safe_dump : list (string * pyval) -> string.

(** C5. When something already sits at the place of the version folder,
    [move_unreleased_changelogs] prints that the changelog for this version
    already exists and exits with code 1; the working tree and the commands
    given to the shell are what they were: nothing is moved, no folder is
    created and no release-info is written. *)
Theorem duplicate_release_rejected (version : string) (w : world) :
  Tree.lookup (released_folder ++ [version]) (fs w) <> None ->
  move_unreleased_changelogs yaml_safe_dump version w
  = (Exited 1,
     mkWorld (fs w) (git_root w) (git_user_name w) (today w)
             (stdout w ++ [msg_duplicate]) (shell w)).
Proof.
  intros H. unfold move_unreleased_changelogs.
  unfold bind at 1. unfold os_path_exists.
  destruct (Tree.lookup (released_folder ++ [version]) (fs w)); [|congruence].
  reflexivity.
Qed.

(** C4, as the code has it. When nothing sits at the place of the version
    folder, the release area is not a plain file, and the unreleased folder
    lists no name ending in [.yml], [move_unreleased_changelogs] prints that
    there are no unreleased changes and exits with code 1; by then it has
    created the version folder, which is empty (no fragment, no
    release-info), and the unreleased folder is as it was. *)
Theorem no_pending_changes_rejected (version : string) (w : world)
    (un_es : list (string * node)) :
  Tree.lookup (released_folder ++ [version]) (fs w) = None ->
  (forall text, Tree.lookup released_folder (fs w) <> Some (File text)) ->
  Tree.lookup unreleased_folder (fs w) = Some (Dir un_es) ->
  filter is_yml (map fst un_es) = [] ->
  exists t',
    move_unreleased_changelogs yaml_safe_dump version w
    = (Exited 1,
       mkWorld t' (git_root w) (git_user_name w) (today w)
               (stdout w ++ [msg_nothing]) (shell w))
    /\ Tree.makedirs (released_folder ++ [version]) (fs w) = Ok t'
    /\ Tree.lookup (released_folder ++ [version]) t' = Some (Dir [])
    /\ Tree.lookup unreleased_folder t' = Some (Dir un_es).
Proof.
  intros Hnone Hrel Hun Hyml.
  destruct (makedirs_version_Ok version (fs w) un_es Hun Hrel Hnone) as [t' Hmk].
  exists t'.
  assert (Hun' : Tree.lookup unreleased_folder t' = Some (Dir un_es)).
  { rewrite <- Hun. eapply makedirs_diverge; [|exact Hmk]. reflexivity. }
  repeat split; try assumption; [|now apply makedirs_lookup_new with (t := fs w)].
  unfold move_unreleased_changelogs.
  erewrite bind_run by (unfold os_path_exists; rewrite Hnone; reflexivity).
  cbn [Tree.is_some when]. erewrite bind_run by reflexivity.
  erewrite bind_run by (apply os_makedirs_run; exact Hmk).
  erewrite bind_run by (apply os_listdir_run; exact Hun').
  rewrite Hyml. reflexivity.
Qed.

End ReleaseFacts.

(** A release of v1.0.0 when that folder is already there. *)
Lemma duplicate_release_rejected_witness :
  move_unreleased_changelogs DemoYaml.safe_dump "v1.0.0" pending_world
  = (Exited 1,
     mkWorld (fs pending_world) "/repo" "releaser" "2026-11-04"
             [msg_duplicate] []).
Proof.
  apply (duplicate_release_rejected DemoYaml.safe_dump "v1.0.0" pending_world).
  vm_compute. discriminate.
Defined.

(** A release of v2.0.0 with only a note in the unreleased folder. *)
Lemma no_pending_changes_rejected_witness :
  exists t',
    move_unreleased_changelogs DemoYaml.safe_dump "v2.0.0" idle_world
    = (Exited 1,
       mkWorld t' "/repo" "releaser" "2026-11-04" [msg_nothing] [])
    /\ Tree.makedirs (released_folder ++ ["v2.0.0"]) (fs idle_world) = Ok t'
    /\ Tree.lookup (released_folder ++ ["v2.0.0"]) t' = Some (Dir [])
    /\ Tree.lookup unreleased_folder t'
       = Some (Dir [("notes.txt", File "not a fragment")]).
Proof.
  apply (no_pending_changes_rejected DemoYaml.safe_dump "v2.0.0" idle_world
           [("notes.txt", File "not a fragment")]).
  - reflexivity.
  - intros text. vm_compute. discriminate.
  - reflexivity.
  - reflexivity.
Defined.

(** C4 as the specification words it fails when the version folder is already
    there: nothing is pending in [idle_world], and a release of v1.0.0 ends
    with the message of the duplicate release, not with the message that
    nothing is pending. *)
Lemma no_pending_changes_after_duplicate_check :
  filter is_yml (map fst [("notes.txt", File "not a fragment")]) = []
  /\ Tree.lookup unreleased_folder (fs idle_world)
     = Some (Dir [("notes.txt", File "not a fragment")])
  /\ move_unreleased_changelogs DemoYaml.safe_dump "v1.0.0" idle_world
     = (Exited 1,
        mkWorld (fs idle_world) "/repo" "releaser" "2026-11-04"
                [msg_duplicate] [])
  /\ msg_duplicate <> msg_nothing.
Proof.
  split; [reflexivity|]. split; [reflexivity|]. split; [reflexivity|].
  discriminate.
Qed.

(** ** Moving the fragments *)

Lemma diverge_app_l (p q r : path) : diverge p q = true -> diverge (p ++ r) q = true.
Proof.
  revert q. induction p as [|a p IH]; intros q H; [discriminate|].
  destruct q as [|b q]; [discriminate|].
  change ((a :: p) ++ r) with (a :: (p ++ r)). cbn [diverge] in *.
  destruct (String.eqb a b); [now apply IH|reflexivity].
Qed.

Lemma diverge_sym (p q : path) : diverge p q = diverge q p.
Proof.
  revert q. induction p as [|a p IH]; intros [|b q]; try reflexivity.
  cbn [diverge]. rewrite (String.eqb_sym b a).
  destruct (String.eqb a b); [apply IH|reflexivity].
Qed.

Lemma diverge_app_r (p q r : path) : diverge p q = true -> diverge p (q ++ r) = true.
Proof.
  intros H. rewrite diverge_sym. apply diverge_app_l. now rewrite diverge_sym.
Qed.

Lemma last_app_one {A : Type} (l : list A) (x d : A) : last (l ++ [x]) d = x.
Proof. apply last_last. Qed.










Section ReleaseSucceeds.

Variable yaml_safe_dump : list (string * pyval) -> string.

Lemma write_release_info_run (folder : path) (w : world) (V : list (string * node)) :
  Tree.lookup folder (fs w) = Some (Dir V) ->
  Tree.assoc "release-info" V = None ->
  exists t',
    write_release_info yaml_safe_dump folder w = (Ok tt, with_fs t' w)
    /\ Tree.lookup folder t' = Some (Dir (V ++ [("release-info", release_info_file yaml_safe_dump w)]))
    /\ (forall q, diverge folder q = true -> Tree.lookup q t' = Tree.lookup q (fs w)).
Proof.
  intros Hl Hnone.
  assert (Habsent : Tree.lookup (folder ++ ["release-info"]) (fs w) = None).
  { now rewrite lookup_app, Hl, lookup_cons, Hnone. }
  destruct (put_parent folder "release-info" (release_info_file yaml_safe_dump w) (fs w) V Hl)
    as (t' & Hput & Hl').
  exists t'. split; [|split].
  - unfold write_release_info.
    erewrite bind_run by (rewrite os_path_exists_run, Habsent; reflexivity).
    cbn [Tree.is_some when]. do 3 (erewrite bind_run by reflexivity).
    unfold write_file. rewrite Habsent. unfold release_info_file in Hput.
    now rewrite Hput.
  - rewrite Hl'. now rewrite set_entry_new.
  - intros q Hq. eapply put_diverge; [|exact Hput]. now apply diverge_app_l.
Qed.


End ReleaseSucceeds.


(** * The aggregation *)

Lemma getitem_never_exits (entry : yaml_doc) (key : string) (c : Z) :
  PyVal.getitem entry key <> Exited c.
Proof.
  destruct entry as [fields|]; simpl; [|discriminate].
  destruct (Tree.assoc key fields); discriminate.
Qed.

Lemma get_never_exits (info : yaml_doc) (key : string) (default : pyval) (c : Z) :
  PyVal.get info key default <> Exited c.
Proof.
  destruct info as [fields|]; simpl; [|discriminate].
  destruct (Tree.assoc key fields); discriminate.
Qed.

Lemma contains_never_exits (author : pyval) (changes : PyVal.changes_dict) (c : Z) :
  PyVal.contains author changes <> Exited c.
Proof. unfold PyVal.contains. destruct (PyVal.hashable author); discriminate. Qed.

Lemma bullet_never_exits (title : pyval) (c : Z) : PyVal.bullet title <> Exited c.
Proof. destruct title; discriminate. Qed.

#[local] Hint Resolve never_exits_lift getitem_never_exits get_never_exits
  contains_never_exits bullet_never_exits : reads.

Section AggregationFacts.

Variable yaml_load : string -> option yaml_doc.

Lemma load_yaml_file_reads_only (p : path) : reads_only (load_yaml_file yaml_load p).
Proof.
  unfold load_yaml_file. apply reads_only_bind; [auto with reads|].
  intros text. destruct (yaml_load text); auto with reads.
Qed.

Lemma load_yaml_file_never_exits (p : path) : never_exits (load_yaml_file yaml_load p).
Proof.
  unfold load_yaml_file. apply never_exits_bind; [auto with reads|].
  intros text. destruct (yaml_load text); auto with reads.
Qed.

Lemma read_changes_reads_only (folder : path) (files : list string)
    (changes : PyVal.changes_dict) :
  reads_only (read_changes yaml_load folder files changes).
Proof.
  revert changes. induction files as [|file rest IH]; intros changes;
    cbn [read_changes]; [auto with reads|].
  apply reads_only_bind; [apply load_yaml_file_reads_only|]. intros entry.
  repeat (apply reads_only_bind; [auto with reads|]; intros ?).
  apply IH.
Qed.

Lemma read_changes_never_exits (folder : path) (files : list string)
    (changes : PyVal.changes_dict) :
  never_exits (read_changes yaml_load folder files changes).
Proof.
  revert changes. induction files as [|file rest IH]; intros changes;
    cbn [read_changes]; [auto with reads|].
  apply never_exits_bind; [apply load_yaml_file_never_exits|]. intros entry.
  repeat (apply never_exits_bind; [auto with reads|]; intros ?).
  apply IH.
Qed.

Lemma get_version_changes_reads_only (version : string) :
  reads_only (get_version_changes yaml_load version).
Proof.
  unfold get_version_changes. apply reads_only_bind; [auto with reads|].
  intros names. apply read_changes_reads_only.
Qed.

Lemma get_version_changes_never_exits (version : string) :
  never_exits (get_version_changes yaml_load version).
Proof.
  unfold get_version_changes. apply never_exits_bind; [auto with reads|].
  intros names. apply read_changes_never_exits.
Qed.

Lemma get_release_info_reads_only (version : string) :
  reads_only (get_release_info yaml_load version).
Proof.
  unfold get_release_info. apply reads_only_bind; [auto with reads|].
  intros [|]; cbn [negb]; [apply load_yaml_file_reads_only|auto with reads].
Qed.

Lemma get_release_info_never_exits (version : string) :
  never_exits (get_release_info yaml_load version).
Proof.
  unfold get_release_info. apply never_exits_bind; [auto with reads|].
  intros [|]; cbn [negb]; [apply load_yaml_file_never_exits|auto with reads].
Qed.

Lemma build_versions_reads_only (versions : list string) (result : list string) :
  reads_only (build_versions yaml_load versions result).
Proof.
  revert result. induction versions as [|v rest IH]; intros result;
    cbn [build_versions]; [auto with reads|].
  apply reads_only_bind; [apply get_release_info_reads_only|]. intros info.
  apply reads_only_bind; [auto with reads|]. intros date.
  apply reads_only_bind; [apply get_version_changes_reads_only|]. intros changes.
  apply IH.
Qed.

Lemma build_versions_never_exits (versions : list string) (result : list string) :
  never_exits (build_versions yaml_load versions result).
Proof.
  revert result. induction versions as [|v rest IH]; intros result;
    cbn [build_versions]; [auto with reads|].
  apply never_exits_bind; [apply get_release_info_never_exits|]. intros info.
  apply never_exits_bind; [auto with reads|]. intros date.
  apply never_exits_bind; [apply get_version_changes_never_exits|]. intros changes.
  apply IH.
Qed.

Lemma build_changelog_reads_only : reads_only (build_changelog yaml_load).
Proof.
  unfold build_changelog.
  apply reads_only_bind; [apply get_version_folders_reads_only|]. intros versions.
  apply reads_only_bind; [apply build_versions_reads_only|]. intros result.
  apply reads_only_bind; [auto with reads|]. intros [|]; [|auto with reads].
  apply reads_only_bind; auto with reads.
Qed.

Lemma build_changelog_never_exits : never_exits (build_changelog yaml_load).
Proof.
  unfold build_changelog.
  apply never_exits_bind; [apply get_version_folders_reads_only|]. intros versions.
  apply never_exits_bind; [apply build_versions_never_exits|]. intros result.
  apply never_exits_bind; [auto with reads|]. intros [|]; [|auto with reads].
  apply never_exits_bind; auto with reads.
Qed.

(** C6. [build_changelog] leaves the working tree as it found it, and its
    result is a function of the working tree: run again on the world the
    first run left, it returns the same lines (or fails the same way), and so
    do any two runs on worlds with the same working tree. *)
Theorem build_changelog_repeatable (w : world) :
  fs (snd (build_changelog yaml_load w)) = fs w
  /\ fst (build_changelog yaml_load (snd (build_changelog yaml_load w)))
     = fst (build_changelog yaml_load w)
  /\ (forall w' : world, fs w' = fs w ->
        fst (build_changelog yaml_load w') = fst (build_changelog yaml_load w)).
Proof.
  destruct build_changelog_reads_only as [Hfs Hfun].
  split; [apply Hfs|]. split; [apply Hfun, Hfs|]. intros w' H. now apply Hfun.
Qed.

End AggregationFacts.

(** Two runs on [pending_world], the second on the world the first left:
    both return the changelog of the release v1.0.0. *)
Lemma build_changelog_repeatable_witness :
  fst (build_changelog DemoYaml.load
         (snd (build_changelog DemoYaml.load pending_world)))
  = Ok [header_note; PyText.newline;
        heading "v1.0.0" (PyStr "2026-01-15");
        ("*@ana*" ++ PyText.newline)%string;
        ("- First change" ++ PyText.newline)%string;
        PyText.newline].
Proof.
  rewrite (proj1 (proj2 (build_changelog_repeatable DemoYaml.load pending_world))).
  reflexivity.
Defined.

(** ** Paths a computation leaves alone *)

Lemma keeps_path_reads_only {A : Type} (q : path) (m : M A) :
  reads_only m -> keeps_path q m.
Proof. intros [H _] w. now rewrite H. Qed.

Lemma keeps_path_bind {A B : Type} (q : path) (m : M A) (k : A -> M B) :
  keeps_path q m -> (forall a, keeps_path q (k a)) -> keeps_path q (bind m k).
Proof.
  intros Hm Hk w. unfold bind. specialize (Hm w).
  destruct (m w) as [[a|e|c] w1]; cbn [snd] in *; try assumption.
  rewrite <- Hm. apply Hk.
Qed.

Lemma keeps_path_same_fs {A : Type} (q : path) (m : M A) :
  (forall w, fs (snd (m w)) = fs w) -> keeps_path q m.
Proof. intros H w. now rewrite H. Qed.

Lemma keeps_path_makedirs (q p : path) :
  diverge p q = true -> keeps_path q (os_makedirs p).
Proof.
  intros Hd w. unfold os_makedirs.
  destruct (Tree.makedirs p (fs w)) as [t| |] eqn:H; try reflexivity.
  cbn [snd fs with_fs]. eapply makedirs_diverge; eassumption.
Qed.

Lemma keeps_path_write_file (q p : path) (text : string) :
  diverge p q = true -> keeps_path q (write_file p text).
Proof.
  intros Hd w. unfold write_file.
  destruct (Tree.lookup p (fs w)) as [[|]|];
    destruct (Tree.put p (File text) (fs w)) as [t| |] eqn:H; try reflexivity;
    cbn [snd fs with_fs]; eapply put_diverge; eassumption.
Qed.

Lemma keeps_path_shutil_move (q src dst : path) :
  diverge src q = true -> diverge dst q = true -> keeps_path q (shutil_move src dst).
Proof.
  intros Hs Hd w. unfold shutil_move.
  set (real_dst := if Tree.is_dir (Tree.lookup dst (fs w))
                   then dst ++ [last src EmptyString] else dst).
  assert (Hr : diverge real_dst q = true).
  { unfold real_dst. destruct (Tree.is_dir _); [now apply diverge_app_l|assumption]. }
  destruct (_ && _); [reflexivity|].
  destruct (Tree.lookup src (fs w)); [|reflexivity].
  destruct (Tree.remove src (fs w)) as [t1| |] eqn:Hrm; try reflexivity.
  destruct (Tree.put real_dst n t1) as [t2| |] eqn:Hput; try reflexivity.
  cbn [snd fs with_fs].
  rewrite (put_diverge _ _ _ _ _ Hr Hput). exact (remove_diverge _ _ _ _ Hs Hrm).
Qed.

Lemma keeps_path_for_each {A : Type} (q : path) (l : list A) (body : A -> M unit) :
  (forall x, keeps_path q (body x)) -> keeps_path q (for_each l body).
Proof.
  intros H. induction l as [|x l IH]; cbn [for_each].
  - intros w. reflexivity.
  - apply keeps_path_bind; [apply H|]. intros _. exact IH.
Qed.

Ltac keeps_same_fs := apply keeps_path_same_fs; intros ?; reflexivity.

Section MainFacts.

Variable yaml_load : string -> option yaml_doc.
Variable yaml_safe_dump : list (string * pyval) -> string.

Lemma write_release_info_keeps (q folder : path) :
  diverge folder q = true ->
  keeps_path q (write_release_info yaml_safe_dump folder).
Proof.
  intros Hd. unfold write_release_info.
  apply keeps_path_bind; [keeps_same_fs|]. intros present.
  apply keeps_path_bind; [destruct present; keeps_same_fs|]. intros _.
  apply keeps_path_bind; [keeps_same_fs|]. intros date.
  apply keeps_path_bind; [keeps_same_fs|]. intros author.
  apply keeps_path_write_file. now apply diverge_app_l.
Qed.

(** The release touches nothing outside [changelogs]. *)
Lemma move_unreleased_changelogs_keeps (q : path) (version : string) :
  diverge ["changelogs"] q = true ->
  keeps_path q (move_unreleased_changelogs yaml_safe_dump version).
Proof.
  intros Hd. unfold move_unreleased_changelogs.
  assert (Hrv : diverge (released_folder ++ [version]) q = true).
  { apply (diverge_app_l ["changelogs"] q ["released"; version] Hd). }
  assert (Hun : forall f, diverge (unreleased_folder ++ [f]) q = true).
  { intros f. apply (diverge_app_l ["changelogs"] q ["unreleased"; f] Hd). }
  apply keeps_path_bind; [keeps_same_fs|]. intros present.
  apply keeps_path_bind.
  { destruct present; cbn [when]; [|keeps_same_fs].
    apply keeps_path_bind; [keeps_same_fs|]. intros _. keeps_same_fs. }
  intros _. apply keeps_path_bind; [now apply keeps_path_makedirs|]. intros _.
  apply keeps_path_bind; [apply keeps_path_reads_only; auto with reads|].
  intros names. apply keeps_path_bind.
  { destruct (_ =? _)%nat; cbn [when]; [|keeps_same_fs].
    apply keeps_path_bind; [keeps_same_fs|]. intros _. keeps_same_fs. }
  intros _. apply keeps_path_bind.
  { apply keeps_path_for_each. intros f. now apply keeps_path_shutil_move. }
  intros _. apply keeps_path_bind; [now apply write_release_info_keeps|].
  intros _. apply keeps_path_bind; [keeps_same_fs|]. intros root. keeps_same_fs.
Qed.

Lemma release_step_keeps (q : path) (app_args : arguments) :
  diverge ["changelogs"] q = true ->
  keeps_path q (when (negb (rebuild app_args)) (release_step yaml_safe_dump app_args)).
Proof.
  intros Hd. destruct (negb (rebuild app_args)); cbn [when]; [|keeps_same_fs].
  unfold release_step.
  destruct (check_version (version app_args)) as [u|[]|c];
    try keeps_same_fs; try (now apply move_unreleased_changelogs_keeps).
Qed.

End MainFacts.

(** ** A malformed fragment stops the aggregation *)

Lemma lift_Ok {A : Type} (o : outcome A) (w w1 : world) (a : A) :
  lift o w = (Ok a, w1) -> o = Ok a /\ w1 = w.
Proof. unfold lift. intros H. injection H as -> ->. now split. Qed.

Lemma read_file_Ok (p : path) (w w1 : world) (text : string) :
  read_file p w = (Ok text, w1) ->
  Tree.lookup p (fs w) = Some (File text) /\ w1 = w.
Proof.
  unfold read_file. destruct (Tree.lookup p (fs w)) as [[t|]|]; try discriminate.
  intros H. injection H as -> ->. now split.
Qed.

Lemma os_listdir_Ok (p : path) (w w1 : world) (names : list string) :
  os_listdir p w = (Ok names, w1) ->
  exists es, Tree.lookup p (fs w) = Some (Dir es) /\ names = map fst es /\ w1 = w.
Proof.
  unfold os_listdir. destruct (Tree.lookup p (fs w)) as [[t|es]|]; try discriminate.
  intros H. injection H as <- <-. now exists es.
Qed.

Section Malformed.

Variable yaml_load : string -> option yaml_doc.

Lemma load_yaml_file_Ok (p : path) (w w1 : world) (entry : yaml_doc) :
  load_yaml_file yaml_load p w = (Ok entry, w1) ->
  w1 = w /\ exists text, Tree.lookup p (fs w) = Some (File text) /\
                         yaml_load text = Some entry.
Proof.
  unfold load_yaml_file. intros H. apply bind_Ok in H.
  destruct H as (text & w0 & Hread & H). apply read_file_Ok in Hread.
  destruct Hread as [Hl ->]. destruct (yaml_load text) as [doc|] eqn:Hy;
    [|discriminate].
  injection H as <- <-. split; [reflexivity|]. now exists text.
Qed.

(** One turn of the loop of [get_version_changes] that went through. *)
Lemma read_changes_step (folder : path) (file : string) (rest : list string)
    (changes out : PyVal.changes_dict) (w w' : world) :
  read_changes yaml_load folder (file :: rest) changes w = (Ok out, w') ->
  exists text changes',
    Tree.lookup (folder ++ [file]) (fs w) = Some (File text)
    /\ malformed yaml_load text = false
    /\ read_changes yaml_load folder rest changes' w = (Ok out, w').
Proof.
  cbn [read_changes]. intros H.
  apply bind_Ok in H. destruct H as (entry & w1 & Hload & H).
  apply load_yaml_file_Ok in Hload. destruct Hload as (-> & text & Hl & Hy).
  apply bind_Ok in H. destruct H as (author & w1 & Ha & H).
  apply lift_Ok in Ha. destruct Ha as [Ha ->].
  apply bind_Ok in H. destruct H as (known & w1 & Hk & H).
  apply lift_Ok in Hk. destruct Hk as [Hk ->].
  apply bind_Ok in H. destruct H as (title & w1 & Ht & H).
  apply lift_Ok in Ht. destruct Ht as [Ht ->].
  apply bind_Ok in H. destruct H as (line & w1 & Hb & H).
  apply lift_Ok in Hb. destruct Hb as [Hb ->].
  exists text. eexists. split; [exact Hl|]. split; [|exact H].
  unfold malformed. now rewrite Hy, Ha, Ht.
Qed.

Lemma read_changes_malformed (folder : path) (f text : string) (files : list string) :
  In f files -> malformed yaml_load text = true ->
  forall (changes out : PyVal.changes_dict) (w w' : world),
    Tree.lookup (folder ++ [f]) (fs w) = Some (File text) ->
    read_changes yaml_load folder files changes w <> (Ok out, w').
Proof.
  intros Hin Hbad. induction files as [|file rest IH]; [contradiction|].
  intros changes out w w' Hl H.
  apply read_changes_step in H. destruct H as (text' & changes' & Hl' & Hok & H).
  destruct Hin as [->|Hin].
  - rewrite Hl in Hl'. injection Hl' as <-. congruence.
  - exact (IH Hin changes' out w w' Hl H).
Qed.

Lemma get_version_changes_malformed (v f text : string) (es : list (string * node))
    (w w' : world) (out : PyVal.changes_dict) :
  Tree.lookup (released_folder ++ [v]) (fs w) = Some (Dir es) ->
  is_yml f = true -> Tree.assoc f es = Some (File text) ->
  malformed yaml_load text = true ->
  get_version_changes yaml_load v w <> (Ok out, w').
Proof.
  intros Hl Hyml Hf Hbad H. unfold get_version_changes in H.
  apply bind_Ok in H. destruct H as (names & w1 & Hnames & H).
  apply os_listdir_Ok in Hnames. destruct Hnames as (es' & Hl' & -> & ->).
  rewrite Hl in Hl'. injection Hl' as <-.
  revert H. apply (read_changes_malformed _ f text); [|assumption|].
  - apply filter_In. split; [|assumption].
    apply assoc_In_names. congruence.
  - now rewrite lookup_app, Hl, lookup_cons, Hf.
Qed.

Lemma build_versions_step (version : string) (rest result out : list string)
    (w w' : world) :
  build_versions yaml_load (version :: rest) result w = (Ok out, w') ->
  exists info date changes w1 w2,
    get_release_info yaml_load version w = (Ok info, w1)
    /\ PyVal.get info "date" (PyStr "") = Ok date
    /\ get_version_changes yaml_load version w1 = (Ok changes, w2)
    /\ build_versions yaml_load rest
         (((result ++ [heading version date]) ++ concat (map author_lines changes))
          ++ [PyText.newline]) w2 = (Ok out, w').
Proof.
  cbn [build_versions]. intros H.
  apply bind_Ok in H. destruct H as (info & w1 & Hinfo & H).
  apply bind_Ok in H. destruct H as (date & w1' & Hdate & H).
  apply lift_Ok in Hdate. destruct Hdate as [Hdate ->].
  apply bind_Ok in H. destruct H as (changes & w2 & Hch & H).
  now exists info, date, changes, w1, w2.
Qed.

Lemma build_versions_malformed (v f text : string) (es : list (string * node))
    (t : node) (versions : list string) :
  In v versions ->
  Tree.lookup (released_folder ++ [v]) t = Some (Dir es) ->
  is_yml f = true -> Tree.assoc f es = Some (File text) ->
  malformed yaml_load text = true ->
  forall (result out : list string) (w w' : world),
    fs w = t ->
    build_versions yaml_load versions result w <> (Ok out, w').
Proof.
  intros Hin Hl Hyml Hf Hbad. induction versions as [|u rest IH]; [contradiction|].
  intros result out w w' Hfs H.
  apply build_versions_step in H.
  destruct H as (info & date & changes & w1 & w2 & Hinfo & Hdate & Hch & H).
  assert (Hfs1 : fs w1 = t).
  { rewrite <- Hfs. pose proof (proj1 (get_release_info_reads_only yaml_load u) w) as E.
    now rewrite Hinfo in E. }
  assert (Hfs2 : fs w2 = t).
  { rewrite <- Hfs1.
    pose proof (proj1 (get_version_changes_reads_only yaml_load u) w1) as E.
    now rewrite Hch in E. }
  destruct Hin as [->|Hin].
  - revert Hch. apply (get_version_changes_malformed v f text es); try assumption.
    now rewrite Hfs1.
  - exact (IH Hin _ out w2 w' Hfs2 H).
Qed.

Lemma In_version_folders (v : string) (es : list (string * node)) (w w1 : world)
    (vs : list string) :
  get_version_folders w = (Ok vs, w1) ->
  check_version v = Ok tt ->
  Tree.lookup (released_folder ++ [v]) (fs w) = Some (Dir es) ->
  In v vs.
Proof.
  intros Hg Hc Hl. destruct (get_version_folders_Ok _ _ _ Hg) as (rel & Hrel & Hp & _).
  apply (Permutation_in _ (Permutation_sym Hp)). apply filter_In. split.
  - apply assoc_In_names. rewrite lookup_app, Hrel, lookup_cons in Hl.
    destruct (Tree.assoc v rel); [discriminate|discriminate].
  - unfold kept. now rewrite Hl, Hc.
Qed.

Lemma build_changelog_malformed (v f text : string) (es : list (string * node))
    (w : world) :
  check_version v = Ok tt ->
  Tree.lookup (released_folder ++ [v]) (fs w) = Some (Dir es) ->
  is_yml f = true -> Tree.assoc f es = Some (File text) ->
  malformed yaml_load text = true ->
  exists e w', build_changelog yaml_load w = (Raised e, w') /\ fs w' = fs w.
Proof.
  intros Hc Hl Hyml Hf Hbad.
  pose proof (proj1 (build_changelog_reads_only yaml_load) w) as Hfs.
  pose proof (build_changelog_never_exits yaml_load w) as Hne.
  destruct (build_changelog yaml_load w) as [[out|e|c] w'] eqn:Hb; cbn [fst snd] in *.
  - exfalso. unfold build_changelog in Hb.
    apply bind_Ok in Hb. destruct Hb as (vs & w1 & Hg & Hb).
    apply bind_Ok in Hb. destruct Hb as (result & w2 & Hv & _).
    revert Hv. apply (build_versions_malformed v f text es (fs w)); try assumption.
    + eapply In_version_folders; eassumption.
    + pose proof (proj1 (proj1 get_version_folders_reads_only) w) as E.
      now rewrite Hg in E.
  - now exists e, w'.
  - now destruct (Hne c).
Qed.

End Malformed.

Section AllOrNothing.

Variable yaml_load : string -> option yaml_doc.
Variable yaml_safe_dump : list (string * pyval) -> string.

(** C7. Let [w1] be the world in which the aggregation starts (the world of
    the call under [--rebuild], the world the release step left otherwise).
    If a version folder of [w1] that passes [check_version] holds a [.yml]
    file that does not decode or has no [author] or no [title], [main] ends
    with the exception the aggregation raised, the working tree is the one
    of [w1], and CHANGELOG.md is what it was before the run. And whenever a
    run changes CHANGELOG.md, [build_changelog] had returned all its lines
    before the file was opened for writing. *)
Theorem aggregation_all_or_nothing (app_args : arguments) (w : world) :
  (forall (w1 : world) (v f text : string) (es : list (string * node)),
     when (negb (rebuild app_args)) (release_step yaml_safe_dump app_args) w
     = (Ok tt, w1) ->
     check_version v = Ok tt ->
     Tree.lookup (released_folder ++ [v]) (fs w1) = Some (Dir es) ->
     is_yml f = true ->
     Tree.assoc f es = Some (File text) ->
     malformed yaml_load text = true ->
     exists e w2,
       main yaml_load yaml_safe_dump app_args w = (Raised e, w2)
       /\ fs w2 = fs w1
       /\ Tree.lookup [CHANGELOG_FILE] (fs w2) = Tree.lookup [CHANGELOG_FILE] (fs w))
  /\
  (Tree.lookup [CHANGELOG_FILE] (fs (snd (main yaml_load yaml_safe_dump app_args w)))
   <> Tree.lookup [CHANGELOG_FILE] (fs w) ->
   exists w1 lines w2,
     when (negb (rebuild app_args)) (release_step yaml_safe_dump app_args) w
     = (Ok tt, w1)
     /\ build_changelog yaml_load w1 = (Ok lines, w2)
     /\ main yaml_load yaml_safe_dump app_args w
        = write_file [CHANGELOG_FILE] (PyText.joined lines) w2).
Proof.
  pose proof (release_step_keeps yaml_safe_dump [CHANGELOG_FILE] app_args eq_refl w)
    as Hkeep.
  split.
  - intros w1 v f text es Hrel Hc Hl Hyml Hf Hbad.
    destruct (build_changelog_malformed yaml_load v f text es w1 Hc Hl Hyml Hf Hbad)
      as (e & w2 & Hb & Hfs).
    exists e, w2. split; [|split; [exact Hfs|]].
    + unfold main. erewrite bind_run by exact Hrel. unfold bind. now rewrite Hb.
    + rewrite Hfs. rewrite Hrel in Hkeep. exact Hkeep.
  - intros Hchanged. unfold main in *.
    destruct (when (negb (rebuild app_args)) (release_step yaml_safe_dump app_args) w)
      as [[[]|e|c] w1] eqn:Hrel; cbn [snd] in Hkeep.
    + erewrite bind_run in Hchanged |- * by exact Hrel.
      pose proof (proj1 (build_changelog_reads_only yaml_load) w1) as Hfs.
      destruct (build_changelog yaml_load w1) as [[lines|e|c] w2] eqn:Hb;
        cbn [snd] in Hfs.
      * exists w1, lines, w2. split; [reflexivity|]. split; [exact Hb|].
        unfold bind. now rewrite Hb.
      * exfalso. apply Hchanged. unfold bind. rewrite Hb. cbn [snd].
        now rewrite Hfs.
      * exfalso. apply Hchanged. unfold bind. rewrite Hb. cbn [snd].
        now rewrite Hfs.
    + exfalso. apply Hchanged. unfold bind. rewrite Hrel. exact Hkeep.
    + exfalso. apply Hchanged. unfold bind. rewrite Hrel. exact Hkeep.
Qed.

End AllOrNothing.

(** A rebuild of [broken_world], whose fragment [bad.yml] has no title. *)
Lemma aggregation_all_or_nothing_witness :
  exists e w2,
    main DemoYaml.load DemoYaml.safe_dump (mkArgs "v" true) broken_world = (Raised e, w2)
    /\ fs w2 = fs broken_world
    /\ Tree.lookup [CHANGELOG_FILE] (fs w2)
       = Tree.lookup [CHANGELOG_FILE] (fs broken_world).
Proof.
  apply (proj1 (aggregation_all_or_nothing DemoYaml.load DemoYaml.safe_dump
                  (mkArgs "v" true) broken_world)
           broken_world "v1.0.0" "bad.yml"
           (DemoYaml.safe_dump [("author", PyStr "bo")])
           [("good.yml", DemoYaml.fragment "ana" "First change");
            ("bad.yml", File (DemoYaml.safe_dump [("author", PyStr "bo")]))]);
    reflexivity.
Defined.

(** ** The section of a version without fragments *)

Section EmptyVersion.

Variable yaml_load : string -> option yaml_doc.





End EmptyVersion.


(** * A version that passes validation is one path component *)

Lemma is_space_not_separator (c : ascii) :
  Py.is_space c = true -> Ascii.eqb c "/" = false.
Proof.
  intros H. destruct (Ascii.eqb_spec c "/"); [|reflexivity]. subst. discriminate.
Qed.

Lemma digit_not_separator (c : ascii) (v : Z) :
  Py.digit_of c = Some v -> Ascii.eqb c "/" = false.
Proof.
  intros H. destruct (Ascii.eqb_spec c "/"); [|reflexivity]. subst. discriminate.
Qed.

Lemma all_space_no_separator (s : string) :
  Py.all_space s = true -> no_separator s = true.
Proof.
  induction s as [|c rest IH]; [reflexivity|]. cbn [Py.all_space no_separator].
  intros H. apply andb_prop in H. destruct H as [Hc Hrest].
  now rewrite (is_space_not_separator c Hc), IH.
Qed.

Lemma more_digits_no_separator (k : nat) :
  forall (s : string) (acc n : Z) (tail : string),
    (String.length s <= k)%nat ->
    Py.more_digits acc s = Some (n, tail) ->
    no_separator tail = true -> no_separator s = true.
Proof.
  induction k as [|k IH]; intros s acc n tail Hlen H Htail.
  - destruct s; [reflexivity|simpl in Hlen; lia].
  - destruct s as [|c rest]; [reflexivity|]. cbn [Py.more_digits] in H.
    cbn [String.length] in Hlen.
    destruct (Ascii.eqb c "_") eqn:Hu.
    + apply Ascii.eqb_eq in Hu. subst c.
      destruct rest as [|d rest']; [discriminate|].
      destruct (Py.digit_of d) as [v|] eqn:Hd; [|discriminate].
      cbn [no_separator]. rewrite (digit_not_separator d v Hd).
      cbn [String.length] in Hlen.
      rewrite (IH rest' (10 * acc + v)%Z n tail); [reflexivity|lia|exact H|exact Htail].
    + destruct (Py.digit_of c) as [v|] eqn:Hd.
      * cbn [no_separator]. rewrite (digit_not_separator c v Hd).
        rewrite (IH rest (10 * acc + v)%Z n tail); [reflexivity|lia|exact H|exact Htail].
      * injection H as _ <-. exact Htail.
Qed.

Lemma unsigned_no_separator (s : string) (n : Z) :
  Py.unsigned s = Some n -> no_separator s = true.
Proof.
  destruct s as [|c rest]; [discriminate|]. cbn [Py.unsigned].
  destruct (Py.digit_of c) as [v|] eqn:Hd; [|discriminate].
  destruct (Py.more_digits v rest) as [[m tail]|] eqn:Hm; [|discriminate].
  destruct (Py.all_space tail) eqn:Hs; [|discriminate]. intros _.
  cbn [no_separator]. rewrite (digit_not_separator c v Hd).
  apply (more_digits_no_separator (String.length rest) rest v m tail);
    [lia|exact Hm|now apply all_space_no_separator].
Qed.

Lemma lstrip_no_separator (s : string) :
  no_separator (Py.lstrip s) = true -> no_separator s = true.
Proof.
  induction s as [|c rest IH]; [reflexivity|]. cbn [Py.lstrip].
  destruct (Py.is_space c) eqn:Hc; [|tauto].
  intros H. cbn [no_separator]. now rewrite (is_space_not_separator c Hc), IH.
Qed.

Lemma parse_int_no_separator (s : string) (n : Z) :
  Py.parse_int s = Some n -> no_separator s = true.
Proof.
  unfold Py.parse_int. intros H. apply lstrip_no_separator.
  destruct (Py.lstrip s) as [|c rest]; [discriminate|].
  destruct (Ascii.eqb_spec c "-") as [->|Hminus].
  - destruct (Py.unsigned rest) as [m|] eqn:Hu; [|discriminate].
    cbn [no_separator]. now rewrite (unsigned_no_separator rest m Hu).
  - destruct (Ascii.eqb_spec c "+") as [->|Hplus].
    + cbn [no_separator]. now rewrite (unsigned_no_separator rest n H).
    + apply (unsigned_no_separator _ n).
      destruct c as [[] [] [] [] [] [] [] []]; try exact H; congruence.
Qed.

Lemma split_no_separator (s : string) :
  Forall (fun p => no_separator p = true) (Py.split "." s) -> no_separator s = true.
Proof.
  induction s as [|c rest IH]; [reflexivity|]. cbn [Py.split no_separator].
  destruct (Ascii.eqb_spec c ".") as [->|Hdot].
  - intros H. inversion H; subst. now rewrite IH.
  - destruct (Py.split "." rest) as [|part parts] eqn:Hs.
    + now destruct (split_nonempty "." rest).
    + intros H. inversion H as [|? ? Hp Hps]; subst. cbn [no_separator] in Hp.
      apply andb_prop in Hp. destruct Hp as [Hc Hpart].
      rewrite Hc. apply IH. now constructor.
Qed.

(** The version [main] hands to [move_unreleased_changelogs] has passed
    [check_version]: it holds no path separator, so joining it to the release
    area names one entry of that directory. *)
Lemma check_version_no_separator (s : string) :
  check_version s = Ok tt -> no_separator s = true.
Proof.
  intros H. apply check_version_Ok in H. destruct H as (rest & -> & _ & Hall).
  cbn [no_separator]. apply split_no_separator.
  eapply Forall_impl; [|exact Hall]. intros p Hp.
  destruct (Py.parse_int p) as [n|] eqn:Hn; [|congruence].
  now apply (parse_int_no_separator p n).
Qed.

(** * Further properties *)

(** ** The scan of the release area *)

Lemma printed_nil (w : world) : printed [] w = w.
Proof. destruct w. unfold printed. cbn. now rewrite app_nil_r. Qed.

Lemma printed_printed (l1 l2 : list string) (w : world) :
  printed l2 (printed l1 w) = printed (l1 ++ l2) w.
Proof. unfold printed. cbn. now rewrite app_assoc. Qed.

Lemma print_run (line : string) (w : world) :
  print line w = (Ok tt, printed [line] w).
Proof. reflexivity. Qed.

Lemma scan_folders_run (listing acc : list string) (w : world) :
  Forall (fun folder => folder <> EmptyString) listing ->
  scan_folders listing acc w
  = (Ok (acc ++ filter (kept w) listing),
     printed (flat_map (skip_warning w) listing) w).
Proof.
  revert acc w. induction listing as [|folder rest IH]; intros acc w Hne.
  - cbn [scan_folders filter flat_map]. now rewrite app_nil_r, printed_nil.
  - inversion Hne as [|? ? Hfolder Hrest]; subst.
    cbn [scan_folders filter flat_map].
    erewrite bind_run by reflexivity.
    unfold kept at 1. unfold skip_warning at 1.
    destruct (Tree.is_dir (Tree.lookup (released_folder ++ [folder]) (fs w))) eqn:Hd;
      cbn [andb].
    + destruct folder as [|c tail]; [congruence|].
      destruct (check_version_nonempty c tail) as [Hc|(m & Hc & _)]; rewrite Hc.
      * rewrite IH by assumption. cbn [app]. now rewrite <- app_assoc.
      * erewrite bind_run by apply print_run.
        rewrite IH by assumption. now rewrite printed_printed.
    + erewrite bind_run by apply print_run.
      rewrite IH by assumption. now rewrite printed_printed.
Qed.

(** X1. The scan of the release area is tolerant. When the release area is a
    directory (its entries have names that are not empty),
    [get_version_folders] returns normally: its result holds exactly the
    entries that are directories and pass [check_version], in descending
    order of key; for every other entry one warning is printed, in listing
    order, and nothing else in the world changes. *)
Theorem get_version_folders_tolerant (w : world) (es : list (string * node)) :
  Tree.lookup released_folder (fs w) = Some (Dir es) ->
  Forall (fun folder => folder <> EmptyString) (map fst es) ->
  exists vs,
    get_version_folders w
    = (Ok vs, printed (flat_map (skip_warning w) (map fst es)) w)
    /\ Permutation vs (filter (kept w) (map fst es))
    /\ StronglySorted newer_or_equal vs.
Proof.
  intros Hl Hne.
  destruct (sorted_by_version_key_total (filter (kept w) (map fst es))) as [vs Hvs].
  { apply Forall_forall. intros f Hf. apply filter_In in Hf.
    apply (kept_valid w). tauto. }
  exists vs. split; [|now apply sorted_by_version_key_Ok].
  unfold get_version_folders.
  erewrite bind_run by (apply os_listdir_run; exact Hl).
  erewrite bind_run by (apply scan_folders_run; exact Hne).
  unfold lift. rewrite app_nil_l. now rewrite Hvs.
Qed.

(** The release area of [pending_world] with a stray file and a folder that
    is no version next to the release. *)
Lemma get_version_folders_tolerant_witness :
  exists vs,
    get_version_folders
      (with_fs (Dir [("changelogs",
                      Dir [("released",
                            Dir [("README", File "about releases");
                                 ("v1.0.0", Dir []);
                                 ("drafts", Dir []);
                                 ("v1.1", Dir [])])])])
               pending_world)
    = (Ok vs,
       printed ["README is not directory. Skipping.";
                "drafts have unsupported format. Skipping."]
         (with_fs (Dir [("changelogs",
                         Dir [("released",
                               Dir [("README", File "about releases");
                                    ("v1.0.0", Dir []);
                                    ("drafts", Dir []);
                                    ("v1.1", Dir [])])])])
                  pending_world))
    /\ Permutation vs ["v1.0.0"; "v1.1"]
    /\ StronglySorted newer_or_equal vs.
Proof.
  apply (get_version_folders_tolerant
           (with_fs (Dir [("changelogs",
                           Dir [("released",
                                 Dir [("README", File "about releases");
                                      ("v1.0.0", Dir []);
                                      ("drafts", Dir []);
                                      ("v1.1", Dir [])])])])
                    pending_world)
           [("README", File "about releases"); ("v1.0.0", Dir []);
            ("drafts", Dir []); ("v1.1", Dir [])]).
  - reflexivity.
  - repeat constructor; discriminate.
Defined.

(** ** What is there once a release went through or stopped *)

Lemma put_prefix_present (q r : path) (v t t' : node) :
  Tree.put (q ++ r) v t = Ok t' -> Tree.lookup q t' <> None.
Proof.
  revert t t'. induction q as [|c q IH]; intros t t' H; [discriminate|].
  change ((c :: q) ++ r) with (c :: (q ++ r)) in H.
  destruct t as [text|es]; [destruct (q ++ r); discriminate|].
  destruct (q ++ r) as [|x rest] eqn:E.
  - destruct q; [|discriminate]. rewrite put_last in H. injection H as <-.
    rewrite lookup_cons, assoc_set_entry_same. discriminate.
  - rewrite put_deeper in H.
    destruct (Tree.assoc c es) as [child|]; [|discriminate].
    destruct (Tree.put (x :: rest) v child) as [child'| |] eqn:Hp; try discriminate.
    injection H as <-. rewrite lookup_cons, assoc_set_entry_same.
    exact (IH child child' Hp).
Qed.

Lemma makedirs_never_exits (p : path) (t : node) (c : Z) :
  Tree.makedirs p t <> Exited c.
Proof.
  revert t. induction p as [|a p IH]; intros t; [discriminate|].
  destruct t as [text|es]; [discriminate|]. rewrite makedirs_cons.
  destruct (Tree.assoc a es) as [child|]; [|discriminate].
  specialize (IH child). destruct (Tree.makedirs p child); congruence.
Qed.

Lemma keeps_present_same_fs {A : Type} (q : path) (m : M A) :
  (forall w, fs (snd (m w)) = fs w) -> keeps_present q m.
Proof. intros H w Hq. now rewrite H. Qed.

Lemma keeps_present_bind {A B : Type} (q : path) (m : M A) (k : A -> M B) :
  keeps_present q m -> (forall a, keeps_present q (k a)) -> keeps_present q (bind m k).
Proof.
  intros Hm Hk w Hq. unfold bind. specialize (Hm w Hq).
  destruct (m w) as [[a|e|c] w1]; cbn [snd] in *; try assumption.
  now apply Hk.
Qed.

Lemma keeps_present_for_each {A : Type} (q : path) (l : list A) (body : A -> M unit) :
  (forall x, keeps_present q (body x)) -> keeps_present q (for_each l body).
Proof.
  intros H. induction l as [|x l IH]; cbn [for_each].
  - intros w Hq. exact Hq.
  - apply keeps_present_bind; [apply H|]. intros _. exact IH.
Qed.

Lemma keeps_present_shutil_move (src dst : path) :
  diverge src dst = true -> keeps_present dst (shutil_move src dst).
Proof.
  intros Hd w Hq. unfold shutil_move.
  set (real_dst := if Tree.is_dir (Tree.lookup dst (fs w))
                   then dst ++ [last src EmptyString] else dst).
  destruct (_ && _); [exact Hq|].
  destruct (Tree.lookup src (fs w)); [|exact Hq].
  destruct (Tree.remove src (fs w)) as [t1| |] eqn:Hrm; try exact Hq.
  destruct (Tree.put real_dst n t1) as [t2| |] eqn:Hput; try exact Hq.
  cbn [snd fs with_fs]. unfold real_dst in Hput.
  destruct (Tree.is_dir (Tree.lookup dst (fs w))).
  - exact (put_prefix_present dst _ n t1 t2 Hput).
  - rewrite <- (app_nil_r dst) in Hput.
    exact (put_prefix_present dst [] n t1 t2 Hput).
Qed.

Lemma keeps_present_write_file (folder : path) (name text : string) :
  keeps_present folder (write_file (folder ++ [name]) text).
Proof.
  intros w Hq. unfold write_file.
  destruct (Tree.lookup (folder ++ [name]) (fs w)) as [[|]|];
    destruct (Tree.put (folder ++ [name]) (File text) (fs w)) as [t| |] eqn:H;
    try exact Hq; cbn [snd fs with_fs]; exact (put_prefix_present _ _ _ _ _ H).
Qed.

Ltac present_same_fs := apply keeps_present_same_fs; intros ?; reflexivity.

Section AfterRelease.

Variable yaml_safe_dump : list (string * pyval) -> string.

Lemma write_release_info_keeps_present (folder : path) :
  keeps_present folder (write_release_info yaml_safe_dump folder).
Proof.
  unfold write_release_info.
  apply keeps_present_bind; [present_same_fs|]. intros present.
  apply keeps_present_bind; [destruct present; present_same_fs|]. intros _.
  apply keeps_present_bind; [present_same_fs|]. intros date.
  apply keeps_present_bind; [present_same_fs|]. intros author.
  apply keeps_present_write_file.
Qed.

(** X2. A release that returned, or that stopped with [exit], leaves the
    version folder in place: releasing the same version again, whatever was
    added to the unreleased folder meanwhile, is rejected as a duplicate. In
    particular the empty folder left by a release without pending changes
    blocks the next attempt for that version. *)
Theorem release_blocks_same_version (version : string) (w : world) :
  (forall e, fst (move_unreleased_changelogs yaml_safe_dump version w) <> Raised e) ->
  Tree.lookup (released_folder ++ [version])
    (fs (snd (move_unreleased_changelogs yaml_safe_dump version w))) <> None
  /\ forall w2 : world,
       Tree.lookup (released_folder ++ [version]) (fs w2)
       = Tree.lookup (released_folder ++ [version])
           (fs (snd (move_unreleased_changelogs yaml_safe_dump version w))) ->
       move_unreleased_changelogs yaml_safe_dump version w2
       = (Exited 1, printed [msg_duplicate] w2).
Proof.
  assert (Hdup : forall w2, Tree.lookup (released_folder ++ [version]) (fs w2) <> None ->
                   move_unreleased_changelogs yaml_safe_dump version w2
                   = (Exited 1, printed [msg_duplicate] w2)).
  { intros w2 Hl. unfold move_unreleased_changelogs.
    erewrite bind_run by apply os_path_exists_run.
    destruct (Tree.lookup (released_folder ++ [version]) (fs w2)); [|congruence].
    reflexivity. }
  intros Hnr.
  assert (Hthere : Tree.lookup (released_folder ++ [version])
            (fs (snd (move_unreleased_changelogs yaml_safe_dump version w))) <> None);
    [|split; [exact Hthere|intros w2 E; apply Hdup; now rewrite E]].
  revert Hnr. unfold move_unreleased_changelogs.
  set (rv := released_folder ++ [version]).
  erewrite bind_run by apply os_path_exists_run.
  destruct (Tree.lookup rv (fs w)) as [n|] eqn:Hl; cbn [Tree.is_some when].
  - intros _. unfold bind, print, exit. cbn [snd fs]. rewrite Hl. discriminate.
  - erewrite bind_run by reflexivity.
    pose proof (makedirs_never_exits rv (fs w)) as Hne.
    destruct (Tree.makedirs rv (fs w)) as [t0|e|c] eqn:Hmk.
    + intros _. erewrite bind_run by (apply os_makedirs_run; exact Hmk).
      match goal with
      | |- Tree.lookup rv (fs (snd (?rest (with_fs t0 w)))) <> None =>
          assert (Hk : keeps_present rv rest)
      end.
      { apply keeps_present_bind;
          [apply keeps_present_same_fs, (proj1 (reads_only_listdir _))|].
        intros names. apply keeps_present_bind.
        { destruct (_ =? _)%nat; cbn [when]; present_same_fs. }
        intros _. apply keeps_present_bind.
        { apply keeps_present_for_each. intros f.
          apply keeps_present_shutil_move. reflexivity. }
        intros _. apply keeps_present_bind;
          [apply write_release_info_keeps_present|].
        intros _. apply keeps_present_bind; [present_same_fs|]. intros root.
        present_same_fs. }
      apply Hk. cbn [fs with_fs].
      rewrite (makedirs_lookup_new _ _ _ Hmk). discriminate.
    + intros H. exfalso. apply (H e). unfold bind, os_makedirs.
      now rewrite Hmk.
    + now destruct (Hne c).
Qed.

End AfterRelease.

(** A release of v2.0.0 in [idle_world] stops for lack of pending changes and
    leaves the empty folder behind. *)
Lemma release_blocks_same_version_witness :
  Tree.lookup (released_folder ++ ["v2.0.0"])
    (fs (snd (move_unreleased_changelogs DemoYaml.safe_dump "v2.0.0" idle_world)))
  <> None
  /\ forall w2 : world,
       Tree.lookup (released_folder ++ ["v2.0.0"]) (fs w2)
       = Tree.lookup (released_folder ++ ["v2.0.0"])
           (fs (snd (move_unreleased_changelogs DemoYaml.safe_dump "v2.0.0" idle_world))) ->
       move_unreleased_changelogs DemoYaml.safe_dump "v2.0.0" w2
       = (Exited 1, printed [msg_duplicate] w2).
Proof.
  apply (release_blocks_same_version DemoYaml.safe_dump "v2.0.0" idle_world).
  intros e. vm_compute. discriminate.
Defined.

(** ** A version the command line gives and validation refuses *)

Section InvalidVersion.

Variable yaml_load : string -> option yaml_doc.
Variable yaml_safe_dump : list (string * pyval) -> string.

(** X3. Without [--rebuild], a version that is not empty and that
    [check_version] refuses makes [main] print the reason and exit with code
    1, with the working tree and the shell commands untouched. The reason
    tells which rule failed: the marker when the first character is not
    [v], the number when nothing follows the marker, the format when some
    part between dots is not read by [int]. *)
Theorem main_rejects_invalid_version (version : string) (w : world) :
  version <> EmptyString ->
  check_version version <> Ok tt ->
  exists reason,
    main yaml_load yaml_safe_dump (mkArgs version false) w
    = (Exited 1, printed [reason] w)
    /\ ((forall rest, version <> String "v" rest) -> reason = msg_no_marker)
    /\ (version = "v" -> reason = msg_no_number)
    /\ (forall rest, version = String "v" rest -> rest <> EmptyString ->
          reason = msg_not_numeric).
Proof.
  intros Hne Hbad. destruct version as [|c rest]; [congruence|].
  assert (Hrun : forall reason,
            check_version (String c rest) = Raised (CheckVersionException reason) ->
            main yaml_load yaml_safe_dump (mkArgs (String c rest) false) w
            = (Exited 1, printed [reason] w)).
  { intros reason Hc. unfold main, release_step. cbn [rebuild version negb when].
    rewrite Hc. reflexivity. }
  rewrite check_version_cons in Hbad, Hrun.
  destruct (Ascii.eqb_spec c "v") as [->|Hc]; cbn [negb] in *.
  - destruct (String.eqb_spec rest EmptyString) as [->|Hrest].
    + exists msg_no_number. split; [now apply Hrun|]. split; [|split]; try reflexivity.
      * intros H. now destruct (H EmptyString).
      * intros r E Hr. injection E as <-. congruence.
    + exists msg_not_numeric. split; [|split; [|split]]; try reflexivity.
      * apply Hrun.
        destruct (Py.tuple_map_int (Py.split "." rest)) as [ns| |];
          [congruence|reflexivity|reflexivity].
      * intros H. now destruct (H rest).
      * intros E. injection E as ->. congruence.
  - exists msg_no_marker. split; [now apply Hrun|]. split; [reflexivity|].
    split.
    + intros E. injection E as -> _. congruence.
    + intros r E. injection E as -> _. congruence.
Qed.

End InvalidVersion.

(** The run without arguments: the default version [v] has no number. *)
Lemma main_rejects_invalid_version_witness :
  exists reason,
    main DemoYaml.load DemoYaml.safe_dump (mkArgs "v" false) pending_world
    = (Exited 1, printed [reason] pending_world)
    /\ ((forall rest, "v" <> String "v" rest) -> reason = msg_no_marker)
    /\ ("v" = "v" -> reason = msg_no_number)
    /\ (forall rest, "v" = String "v" rest -> rest <> EmptyString ->
          reason = msg_not_numeric).
Proof.
  apply (main_rejects_invalid_version DemoYaml.load DemoYaml.safe_dump "v" pending_world);
    discriminate.
Defined.

(** ** Versions of different width *)

Lemma tuple_lt_prefix (k extra : list Z) :
  extra <> [] -> Py.tuple_lt k (k ++ extra) = true.
Proof.
  intros H. induction k as [|x k IH].
  - destruct extra; [congruence|reflexivity].
  - change ((x :: k) ++ extra) with (x :: (k ++ extra)). cbn [Py.tuple_lt].
    now rewrite Z.eqb_refl.
Qed.

Lemma tuple_lt_asym (a b : list Z) :
  Py.tuple_lt a b = true -> Py.tuple_lt b a = false.
Proof.
  intros H. destruct (Py.tuple_lt b a) eqn:E; [|reflexivity].
  pose proof (tuple_lt_trans _ _ _ H E) as Hc. now rewrite tuple_lt_irrefl in Hc.
Qed.

Lemma StronglySorted_app_r {A : Type} (R : A -> A -> Prop) (l1 l2 : list A) :
  StronglySorted R (l1 ++ l2) -> StronglySorted R l2.
Proof.
  induction l1 as [|x l1 IH]; [tauto|].
  change ((x :: l1) ++ l2) with (x :: (l1 ++ l2)).
  intros H. inversion H; subst. now apply IH.
Qed.

(** X4. Keys of different width compare as tuples do: a key that is a proper
    prefix of another is the smaller one. So in the result of
    [get_version_folders] a version such as v1.2 never comes before a version
    such as v1.2.0 or v1.2.3, whose key continues it. *)
Theorem shorter_version_sorts_later (w w' : world) (vs : list string)
    (a b : string) (k extra : list Z) :
  get_version_folders w = (Ok vs, w') ->
  version_strings_key a = Ok k ->
  version_strings_key b = Ok (k ++ extra) ->
  extra <> [] ->
  forall l1 l2 l3, vs <> l1 ++ a :: l2 ++ b :: l3.
Proof.
  intros Hg Ha Hb Hextra l1 l2 l3 E.
  destruct (get_version_folders_Ok _ _ _ Hg) as (es & _ & _ & Hs).
  rewrite E in Hs. apply StronglySorted_app_r in Hs.
  inversion Hs as [|? ? _ Hall]; subst.
  rewrite Forall_forall in Hall.
  destruct (Hall b) as (ka & kb & Hka & Hkb & Hge).
  { apply in_or_app. right. now left. }
  rewrite Ha in Hka. rewrite Hb in Hkb. injection Hka as <-. injection Hkb as <-.
  destruct Hge as [Hlt|Heq].
  - rewrite (tuple_lt_asym _ _ (tuple_lt_prefix k extra Hextra)) in Hlt. discriminate.
  - rewrite <- (app_nil_r k) in Heq at 1. apply app_inv_head in Heq. congruence.
Qed.

(** The folders v1.2 and v1.2.0, listed in this order: the result is v1.2.0
    and then v1.2, and it is not v1.2 followed by v1.2.0. *)
Lemma shorter_version_sorts_later_witness :
  get_version_folders (released_world ["v1.2"; "v1.2.0"])
    = (Ok ["v1.2.0"; "v1.2"], released_world ["v1.2"; "v1.2.0"]) /\
  ["v1.2.0"; "v1.2"] <> [] ++ "v1.2" :: [] ++ "v1.2.0" :: [].
Proof.
  split; [reflexivity|].
  apply (shorter_version_sorts_later
           (released_world ["v1.2"; "v1.2.0"]) (released_world ["v1.2"; "v1.2.0"])
           ["v1.2.0"; "v1.2"] "v1.2" "v1.2.0" [1%Z; 2%Z] [0%Z]).
  - reflexivity.
  - reflexivity.
  - reflexivity.
  - discriminate.
Defined.

(** ** Fragment file names *)

Lemma substring_skip (p s : string) (m : nat) :
  substring (String.length p) m (p ++ s)%string = substring 0 m s.
Proof. induction p as [|c p IH]; [reflexivity|]. cbn. exact IH. Qed.

Lemma substring_whole (s : string) (m : nat) :
  (String.length s <= m)%nat -> substring 0 m s = s.
Proof.
  revert m. induction s as [|c s IH]; intros m H.
  - now destruct m.
  - destruct m as [|m]; [simpl in H; lia|]. cbn. rewrite IH; [reflexivity|].
    simpl in H. lia.
Qed.

Lemma substring_split (s : string) (n m : nat) :
  (n + m = String.length s)%nat ->
  s = (substring 0 n s ++ substring n m s)%string.
Proof.
  revert s. induction n as [|n IH]; intros s H.
  - cbn [Nat.add] in H. rewrite (substring_whole s m) by lia.
    now destruct s.
  - destruct s as [|c s]; [discriminate|]. cbn. f_equal. apply IH.
    simpl in H. lia.
Qed.

Lemma length_append (a b : string) :
  String.length (a ++ b)%string = (String.length a + String.length b)%nat.
Proof. induction a as [|c a IH]; [reflexivity|]. cbn. now rewrite IH. Qed.

Lemma substring_length_le (s : string) (n m : nat) :
  (String.length (substring n m s) <= String.length s)%nat.
Proof.
  revert n m. induction s as [|c s IH]; intros n m.
  - destruct n, m; cbn; lia.
  - destruct n as [|n].
    + destruct m as [|m]; cbn; [lia|]. specialize (IH 0%nat m). lia.
    + cbn. specialize (IH n m). lia.
Qed.

(** X5. The test on fragment file names, [x[-4:] == '.yml'], holds exactly
    for the names that end in [.yml]; the name [.yml] itself is one of them,
    and a name of fewer than four characters never is. *)
Theorem is_yml_iff_suffix (x : string) :
  (is_yml x = true <-> exists stem, x = (stem ++ ".yml")%string)
  /\ ((String.length x < 4)%nat -> is_yml x = false).
Proof.
  unfold is_yml, Py.slice_last4. split; [split|].
  - intros H. apply String.eqb_eq in H.
    destruct (Nat.le_gt_cases 4 (String.length x)) as [Hlen|Hlen].
    + exists (substring 0 (String.length x - 4) x). rewrite <- H.
      apply substring_split. lia.
    + replace (String.length x - 4)%nat with 0%nat in H by lia.
      rewrite substring_whole in H by lia. subst. simpl in Hlen. lia.
  - intros [stem ->]. apply String.eqb_eq.
    rewrite length_append. cbn [String.length].
    replace (String.length stem + 4 - 4)%nat with (String.length stem) by lia.
    now rewrite substring_skip.
  - intros Hlen. apply String.eqb_neq. intros H.
    pose proof (substring_length_le x (String.length x - 4) 4) as Hle.
    rewrite H in Hle. simpl in Hle. lia.
Qed.

(** ** Reading the archive and writing the changelog *)

Lemma joined_cons (line : string) (lines : list string) :
  PyText.joined (line :: lines) = (line ++ PyText.joined lines)%string.
Proof.
  unfold PyText.joined. destruct lines as [|l lines]; cbn.
  - induction line as [|c line IH]; [reflexivity|]. cbn. now rewrite <- IH.
  - reflexivity.
Qed.

Lemma joined_app (l1 l2 : list string) :
  PyText.joined (l1 ++ l2) = (PyText.joined l1 ++ PyText.joined l2)%string.
Proof.
  induction l1 as [|x l1 IH]; [reflexivity|].
  change ((x :: l1) ++ l2) with (x :: (l1 ++ l2)).
  rewrite !joined_cons, IH.
  induction x as [|c x IHx]; [reflexivity|]. cbn. now rewrite IHx.
Qed.

Lemma append_assoc (a b c : string) : ((a ++ b) ++ c = a ++ (b ++ c))%string.
Proof. induction a as [|x a IH]; [reflexivity|]. cbn. now rewrite IH. Qed.

Lemma append_nil_r (a : string) : (a ++ "")%string = a.
Proof. induction a as [|x a IH]; [reflexivity|]. cbn. now rewrite IH. Qed.

Lemma readlines_from_joined (s cur : string) :
  no_carriage_return s = true ->
  PyText.joined (PyText.readlines_from cur s) = (cur ++ s)%string.
Proof.
  revert cur. induction s as [|c s IH]; intros cur H.
  - cbn [PyText.readlines_from]. rewrite append_nil_r.
    destruct (String.eqb_spec cur EmptyString) as [->|Hne]; [reflexivity|].
    rewrite joined_cons. apply append_nil_r.
  - cbn [no_carriage_return] in H. apply andb_prop in H. destruct H as [Hc Hs].
    apply negb_true_iff in Hc. cbn [PyText.readlines_from]. rewrite Hc.
    destruct (Ascii.eqb_spec c PyText.LF) as [->|Hlf].
    + rewrite joined_cons, IH by assumption. cbn [append].
      now rewrite append_assoc.
    + rewrite IH by assumption. now rewrite append_assoc.
Qed.

Lemma joined_with_archive (result : list string) (text : string) :
  no_carriage_return text = true ->
  PyText.joined (result ++ PyText.readlines text)
  = (PyText.joined result ++ text)%string.
Proof.
  intros H. rewrite joined_app. unfold PyText.readlines.
  now rewrite readlines_from_joined.
Qed.

(** ** The shape of the changelog *)

Section Shape.

Variable yaml_load : string -> option yaml_doc.


Lemma build_changelog_Ok_inv (w w' : world) (lines : list string) :
  build_changelog yaml_load w = (Ok lines, w') ->
  exists versions w1 result w2,
    get_version_folders w = (Ok versions, w1)
    /\ fs w1 = fs w
    /\ build_versions yaml_load versions [header_note; PyText.newline] w1
       = (Ok result, w2)
    /\ lines = result ++ archive_lines (fs w).
Proof.
  intros Hb. unfold build_changelog in Hb.
  apply bind_Ok in Hb. destruct Hb as (vs & w1 & Hg & Hb).
  apply bind_Ok in Hb. destruct Hb as (result & w2 & Hv & Hb).
  assert (Hfs1 : fs w1 = fs w).
  { pose proof (proj1 (proj1 get_version_folders_reads_only) w) as E.
    now rewrite Hg in E. }
  assert (Hfs2 : fs w2 = fs w).
  { rewrite <- Hfs1.
    pose proof (proj1 (build_versions_reads_only yaml_load vs
                         [header_note; PyText.newline]) w1) as E.
    now rewrite Hv in E. }
  exists vs, w1, result, w2. split; [exact Hg|]. split; [exact Hfs1|].
  split; [exact Hv|].
  apply bind_Ok in Hb. destruct Hb as (present & w3 & Hp & Hb).
  rewrite os_path_exists_run in Hp. injection Hp as <- <-.
  unfold archive_lines. rewrite <- Hfs2.
  destruct (Tree.lookup archive_changes_file (fs w2)) as [[text|es]|] eqn:Ha;
    cbn [Tree.is_some] in Hb.
  - apply bind_Ok in Hb. destruct Hb as (text' & w4 & Hr & Hb).
    apply read_file_Ok in Hr. destruct Hr as [Hr ->].
    rewrite Ha in Hr. injection Hr as <-. now injection Hb as <- _.
  - apply bind_Ok in Hb. destruct Hb as (text' & w4 & Hr & Hb).
    apply read_file_Ok in Hr. destruct Hr as [Hr _]. congruence.
  - injection Hb as <- _. now rewrite app_nil_r.
Qed.


End Shape.


(** ** What the aggregation reads *)

Lemma lookup_agree (c : string) (p : path) (t1 t2 : node) :
  agree_on c t1 t2 -> Tree.lookup (c :: p) t1 = Tree.lookup (c :: p) t2.
Proof.
  intros H. change (c :: p) with ([c] ++ p). rewrite !lookup_app.
  unfold agree_on in H. now rewrite H.
Qed.

Lemma reads_below_ret {A : Type} (c : string) (a : A) : reads_below c (ret a).
Proof. split; reflexivity. Qed.

Lemma reads_below_raise {A : Type} (c : string) (e : exn) : reads_below c (@raise A e).
Proof. split; reflexivity. Qed.

Lemma reads_below_exit {A : Type} (c : string) (code : Z) : reads_below c (@exit A code).
Proof. split; reflexivity. Qed.

Lemma reads_below_lift {A : Type} (c : string) (o : outcome A) : reads_below c (lift o).
Proof. split; reflexivity. Qed.

Lemma reads_below_print (c : string) (line : string) : reads_below c (print line).
Proof. split; reflexivity. Qed.

Lemma reads_below_exists (c : string) (p : path) : reads_below c (os_path_exists (c :: p)).
Proof.
  split; [reflexivity|]. intros w1 w2 H. unfold os_path_exists. cbn [fst].
  now rewrite (lookup_agree c p _ _ H).
Qed.

Lemma reads_below_isdir (c : string) (p : path) : reads_below c (os_path_isdir (c :: p)).
Proof.
  split; [reflexivity|]. intros w1 w2 H. unfold os_path_isdir. cbn [fst].
  now rewrite (lookup_agree c p _ _ H).
Qed.

Lemma reads_below_listdir (c : string) (p : path) : reads_below c (os_listdir (c :: p)).
Proof.
  split; [apply reads_only_listdir|]. intros w1 w2 H. unfold os_listdir.
  rewrite (lookup_agree c p _ _ H).
  now destruct (Tree.lookup (c :: p) (fs w2)) as [[|]|].
Qed.

Lemma reads_below_read_file (c : string) (p : path) : reads_below c (read_file (c :: p)).
Proof.
  split; [apply reads_only_read_file|]. intros w1 w2 H. unfold read_file.
  rewrite (lookup_agree c p _ _ H).
  now destruct (Tree.lookup (c :: p) (fs w2)) as [[|]|].
Qed.

Lemma reads_below_bind {A B : Type} (c : string) (m : M A) (k : A -> M B) :
  reads_below c m -> (forall a, reads_below c (k a)) -> reads_below c (bind m k).
Proof.
  intros [Hm1 Hm2] Hk. split.
  - intros w. unfold bind. specialize (Hm1 w).
    destruct (m w) as [[a|e|x] w1]; simpl in *; try assumption.
    rewrite <- Hm1. apply (Hk a).
  - intros w1 w2 H. unfold bind.
    pose proof (Hm2 w1 w2 H) as Hf. pose proof (Hm1 w1) as H1. pose proof (Hm1 w2) as H2.
    destruct (m w1) as [o1 u1], (m w2) as [o2 u2]; simpl in *. subst o2.
    destruct o1 as [a|e|x]; try reflexivity.
    apply (Hk a). unfold agree_on in *. congruence.
Qed.

Create HintDb below.
#[local] Hint Resolve reads_below_ret reads_below_raise reads_below_exit
  reads_below_lift reads_below_print : below.

Lemma scan_folders_reads_below (listing acc : list string) :
  reads_below "changelogs" (scan_folders listing acc).
Proof.
  revert acc. induction listing as [|folder rest IH]; intros acc;
    cbn [scan_folders]; [auto with below|].
  apply reads_below_bind; [apply (reads_below_isdir "changelogs" ["released"; folder])|].
  intros [|].
  - destruct (check_version folder) as [u|[]|x]; auto with below.
    apply reads_below_bind; auto with below.
  - apply reads_below_bind; auto with below.
Qed.

Lemma get_version_folders_reads_below : reads_below "changelogs" get_version_folders.
Proof.
  unfold get_version_folders.
  apply reads_below_bind; [apply (reads_below_listdir "changelogs" ["released"])|].
  intros listing. apply reads_below_bind; [apply scan_folders_reads_below|].
  auto with below.
Qed.

Section ReadsBelow.

Variable yaml_load : string -> option yaml_doc.

Lemma load_yaml_file_reads_below (p : path) :
  reads_below "changelogs" (load_yaml_file yaml_load ("changelogs" :: p)).
Proof.
  unfold load_yaml_file. apply reads_below_bind; [apply reads_below_read_file|].
  intros text. destruct (yaml_load text); auto with below.
Qed.

Lemma read_changes_reads_below (version : string) (files : list string)
    (changes : PyVal.changes_dict) :
  reads_below "changelogs"
    (read_changes yaml_load (released_folder ++ [version]) files changes).
Proof.
  revert changes. induction files as [|file rest IH]; intros changes;
    cbn [read_changes]; [auto with below|].
  apply reads_below_bind;
    [apply (load_yaml_file_reads_below ["released"; version; file])|].
  intros entry.
  repeat (apply reads_below_bind; [auto with below|]; intros ?).
  apply IH.
Qed.

Lemma build_versions_reads_below (versions result : list string) :
  reads_below "changelogs" (build_versions yaml_load versions result).
Proof.
  revert result. induction versions as [|v rest IH]; intros result;
    cbn [build_versions]; [auto with below|].
  apply reads_below_bind.
  { unfold get_release_info.
    apply reads_below_bind;
      [apply (reads_below_exists "changelogs" ["released"; v; "release-info"])|].
    intros [|]; cbn [negb]; [|auto with below].
    apply (load_yaml_file_reads_below ["released"; v; "release-info"]). }
  intros info. apply reads_below_bind; [auto with below|]. intros date.
  apply reads_below_bind.
  { unfold get_version_changes.
    apply reads_below_bind; [apply (reads_below_listdir "changelogs" ["released"; v])|].
    intros names. apply read_changes_reads_below. }
  intros changes. apply IH.
Qed.

Lemma build_changelog_reads_below : reads_below "changelogs" (build_changelog yaml_load).
Proof.
  unfold build_changelog.
  apply reads_below_bind; [apply get_version_folders_reads_below|]. intros versions.
  apply reads_below_bind; [apply build_versions_reads_below|]. intros result.
  apply reads_below_bind; [apply (reads_below_exists "changelogs" ["archive.md"])|].
  intros [|]; [|auto with below].
  apply reads_below_bind; [apply (reads_below_read_file "changelogs" ["archive.md"])|].
  auto with below.
Qed.

End ReadsBelow.

(** ** Components of the world a computation leaves alone *)

Lemma beside_tree_of_output {B : Type} (f : world -> B) :
  beside_tree_and_output f -> beside_tree f.
Proof. intros H w t. apply H. Qed.

Section TreeFields.

Context {B : Type} (f : world -> B).
Hypothesis Hf : beside_tree f.

Lemma field_with_fs (t : node) (w : world) : f (with_fs t w) = f w.
Proof. apply Hf. Qed.









Lemma keeps_field_get_git_root : keeps_field f get_git_root.
Proof. intros w. reflexivity. Qed.

Lemma keeps_field_get_author : keeps_field f get_author.
Proof. intros w. reflexivity. Qed.

Lemma keeps_field_date : keeps_field f date_today_isoformat.
Proof. intros w. reflexivity. Qed.

Lemma keeps_field_makedirs (p : path) : keeps_field f (os_makedirs p).
Proof.
  intros w. unfold os_makedirs.
  destruct (Tree.makedirs p (fs w)); try reflexivity. apply field_with_fs.
Qed.

Lemma keeps_field_write_file (p : path) (text : string) :
  keeps_field f (write_file p text).
Proof.
  intros w. unfold write_file.
  destruct (Tree.lookup p (fs w)) as [[|]|];
    destruct (Tree.put p (File text) (fs w)); try reflexivity; apply field_with_fs.
Qed.

Lemma keeps_field_shutil_move (src dst : path) : keeps_field f (shutil_move src dst).
Proof.
  intros w. unfold shutil_move.
  destruct (_ && _); [reflexivity|].
  destruct (Tree.lookup src (fs w)) as [n|]; [|reflexivity].
  destruct (Tree.remove src (fs w)) as [t1| |]; try reflexivity.
  destruct (Tree.put _ n t1); try reflexivity. apply field_with_fs.
Qed.

Lemma keeps_field_bind {A C : Type} (m : M A) (k : A -> M C) :
  keeps_field f m -> (forall a, keeps_field f (k a)) -> keeps_field f (bind m k).
Proof.
  intros Hm Hk w. unfold bind. specialize (Hm w).
  destruct (m w) as [[a|e|c] w1]; cbn [snd] in *; try assumption.
  rewrite <- Hm. apply Hk.
Qed.

Lemma keeps_field_for_each {A : Type} (l : list A) (body : A -> M unit) :
  (forall x, keeps_field f (body x)) -> keeps_field f (for_each l body).
Proof.
  intros H. induction l as [|x l IH]; cbn [for_each].
  - intros w. reflexivity.
  - apply keeps_field_bind; [apply H|]. intros _. exact IH.
Qed.

End TreeFields.

Section Fields.

Context {B : Type} (f : world -> B).
Hypothesis Hf : beside_tree_and_output f.




Variable yaml_load : string -> option yaml_doc.





End Fields.

(** ** A rebuild *)

Lemma put_lookup_same (p : path) (v t t' : node) :
  Tree.put p v t = Ok t' -> Tree.lookup p t' = Some v.
Proof.
  revert t t'. induction p as [|c p IH]; intros t t' H.
  - now injection H as <-.
  - destruct t as [text|es]; [destruct p; discriminate|].
    destruct p as [|x rest].
    + rewrite put_last in H. injection H as <-.
      now rewrite lookup_cons, assoc_set_entry_same.
    + rewrite put_deeper in H.
      destruct (Tree.assoc c es) as [child|]; [|discriminate].
      destruct (Tree.put (x :: rest) v child) as [child'| |] eqn:Hp; try discriminate.
      injection H as <-. rewrite lookup_cons, assoc_set_entry_same.
      exact (IH child child' Hp).
Qed.

Lemma set_entry_unchanged {A : Type} (c : string) (v : A) (es : list (string * A)) :
  Tree.assoc c es = Some v -> Tree.set_entry c v es = es.
Proof.
  induction es as [|[n v'] es IH]; [discriminate|]. cbn [Tree.assoc Tree.set_entry].
  destruct (String.eqb_spec c n) as [->|Hne].
  - intros H. now injection H as ->.
  - intros H. now rewrite IH.
Qed.

Lemma put_unchanged (c : string) (v : node) (es : list (string * node)) :
  Tree.lookup [c] (Dir es) = Some v -> Tree.put [c] v (Dir es) = Ok (Dir es).
Proof.
  rewrite lookup_cons, put_last. intros H.
  destruct (Tree.assoc c es) as [n|] eqn:Hn; [|discriminate].
  cbn [Tree.lookup] in H. injection H as ->. now rewrite set_entry_unchanged.
Qed.

Section Rebuild.

Variable yaml_load : string -> option yaml_doc.
Variable yaml_safe_dump : list (string * pyval) -> string.

Lemma main_rebuild_Ok (ignored : string) (w w1 : world) :
  main yaml_load yaml_safe_dump (mkArgs ignored true) w = (Ok tt, w1) ->
  exists lines w0,
    build_changelog yaml_load w = (Ok lines, w0)
    /\ fs w0 = fs w
    /\ write_file [CHANGELOG_FILE] (PyText.joined lines) w0 = (Ok tt, w1).
Proof.
  unfold main. cbn [rebuild negb when]. intros H.
  erewrite bind_run in H by reflexivity.
  apply bind_Ok in H. destruct H as (lines & w0 & Hb & Hw).
  exists lines, w0. split; [exact Hb|]. split; [|exact Hw].
  pose proof (proj1 (build_changelog_reads_only yaml_load) w) as E.
  now rewrite Hb in E.
Qed.

Lemma write_file_Ok (p : path) (text : string) (w w1 : world) :
  write_file p text w = (Ok tt, w1) ->
  exists t, Tree.put p (File text) (fs w) = Ok t /\ w1 = with_fs t w.
Proof.
  unfold write_file. intros H.
  destruct (Tree.lookup p (fs w)) as [[|]|];
    destruct (Tree.put p (File text) (fs w)) as [t| |]; try discriminate;
    injection H as <-; now exists t.
Qed.


End Rebuild.


Section RebuildAgain.

Variable yaml_load : string -> option yaml_doc.
Variable yaml_safe_dump : list (string * pyval) -> string.

(** X8. A rebuild can be repeated: after a rebuild that returned, a second
    one returns too and leaves the working tree, CHANGELOG.md included,
    exactly as the first one left it. *)
Theorem rebuild_twice_same_tree (ignored ignored' : string) (w w1 : world) :
  main yaml_load yaml_safe_dump (mkArgs ignored true) w = (Ok tt, w1) ->
  exists w2,
    main yaml_load yaml_safe_dump (mkArgs ignored' true) w1 = (Ok tt, w2)
    /\ fs w2 = fs w1.
Proof.
  intros H. destruct (main_rebuild_Ok _ _ _ _ _ H) as (lines & w0 & Hb & Hfs & Hw).
  apply write_file_Ok in Hw. destruct Hw as (t & Hput & ->).
  cbn [fs with_fs].
  assert (Hagree : agree_on "changelogs" t (fs w)).
  { unfold agree_on. rewrite <- Hfs.
    exact (put_diverge [CHANGELOG_FILE] ["changelogs"] _ _ _ eq_refl Hput). }
  pose proof (proj2 (build_changelog_reads_below yaml_load)
                (with_fs t w0) w Hagree) as Hsame.
  pose proof (proj1 (build_changelog_reads_only yaml_load) (with_fs t w0)) as Hfs'.
  rewrite Hb in Hsame. cbn [fst] in Hsame.
  destruct (build_changelog yaml_load (with_fs t w0)) as [o u] eqn:Hb2.
  cbn [fst snd fs with_fs] in *. subst o.
  assert (Hthere : Tree.lookup [CHANGELOG_FILE] t = Some (File (PyText.joined lines))).
  { exact (put_lookup_same _ _ _ _ Hput). }
  destruct t as [text|es]; [discriminate|].
  exists (with_fs (Dir es) u). split; [|reflexivity].
  unfold main. cbn [rebuild negb when]. erewrite bind_run by reflexivity.
  erewrite bind_run by exact Hb2.
  unfold write_file. rewrite Hfs', Hthere.
  now rewrite (put_unchanged _ _ _ Hthere).
Qed.

End RebuildAgain.

(** Two rebuilds of [pending_world]. *)
Lemma rebuild_twice_same_tree_witness :
  exists w2,
    main DemoYaml.load DemoYaml.safe_dump (mkArgs "v" true)
      (snd (main DemoYaml.load DemoYaml.safe_dump (mkArgs "v" true) pending_world))
    = (Ok tt, w2)
    /\ fs w2
       = fs (snd (main DemoYaml.load DemoYaml.safe_dump (mkArgs "v" true) pending_world)).
Proof.
  apply (rebuild_twice_same_tree DemoYaml.load DemoYaml.safe_dump "v" "v" pending_world).
  reflexivity.
Defined.

(** ** From a release to the changelog *)


Lemma beside_releaser_and_day : beside_tree_and_output releaser_and_day.
Proof. intros w t l. reflexivity. Qed.

Lemma release_info_file_same (dump : list (string * pyval) -> string) (w1 w2 : world) :
  releaser_and_day w1 = releaser_and_day w2 ->
  release_info_file dump w1 = release_info_file dump w2.
Proof.
  unfold releaser_and_day, release_info_file. intros H. injection H as -> ->.
  reflexivity.
Qed.


Section ReleaseToChangelog.

Variable yaml_load : string -> option yaml_doc.
Variable yaml_safe_dump : list (string * pyval) -> string.

Lemma write_release_info_Ok (folder : path) (w w1 : world) :
  write_release_info yaml_safe_dump folder w = (Ok tt, w1) ->
  Tree.lookup (folder ++ ["release-info"]) (fs w1)
  = Some (release_info_file yaml_safe_dump w).
Proof.
  unfold write_release_info. intros H.
  apply bind_Ok in H. destruct H as (present & w0 & Hp & H).
  rewrite os_path_exists_run in Hp. injection Hp as <- <-.
  apply bind_Ok in H. destruct H as ([] & w0 & Hwarn & H).
  assert (Hsame : releaser_and_day w0 = releaser_and_day w).
  { destruct (Tree.is_some _); cbn [when] in Hwarn;
      injection Hwarn as <-; reflexivity. }
  apply bind_Ok in H. destruct H as (date & w2 & Hd & H). injection Hd as <- <-.
  apply bind_Ok in H. destruct H as (author & w2 & Ha & H). injection Ha as <- <-.
  apply write_file_Ok in H. destruct H as (t & Hput & ->). cbn [fs with_fs].
  rewrite (put_lookup_same _ _ _ _ Hput).
  unfold releaser_and_day in Hsame. injection Hsame as -> ->. reflexivity.
Qed.

Lemma move_unreleased_changelogs_Ok (version : string) (w w1 : world) :
  move_unreleased_changelogs yaml_safe_dump version w = (Ok tt, w1) ->
  Tree.lookup (released_folder ++ [version; "release-info"]) (fs w1)
  = Some (release_info_file yaml_safe_dump w).
Proof.
  unfold move_unreleased_changelogs. intros H.
  apply bind_Ok in H. destruct H as (present & u0 & Hp & H).
  rewrite os_path_exists_run in Hp. injection Hp as <- <-.
  apply bind_Ok in H. destruct H as ([] & u1 & Hdup & H).
  assert (E1 : releaser_and_day u1 = releaser_and_day w).
  { destruct (Tree.is_some _); cbn [when] in Hdup; [discriminate|].
    now injection Hdup as <-. }
  apply bind_Ok in H. destruct H as ([] & u2 & Hmk & H).
  assert (E2 : releaser_and_day u2 = releaser_and_day u1).
  { pose proof (keeps_field_makedirs _
                  (beside_tree_of_output _ beside_releaser_and_day)
                  (released_folder ++ [version]) u1) as E.
    now rewrite Hmk in E. }
  apply bind_Ok in H. destruct H as (names & u3 & Hls & H).
  apply os_listdir_Ok in Hls. destruct Hls as (es & _ & -> & ->).
  apply bind_Ok in H. destruct H as ([] & u3 & Hnone & H).
  assert (E3 : releaser_and_day u3 = releaser_and_day u2).
  { destruct (_ =? _)%nat; cbn [when] in Hnone; [discriminate|].
    now injection Hnone as <-. }
  apply bind_Ok in H. destruct H as ([] & u4 & Hloop & H).
  assert (E4 : releaser_and_day u4 = releaser_and_day u3).
  { pose proof (keeps_field_for_each _ (filter is_yml (map fst es))
                  (fun f => shutil_move (unreleased_folder ++ [f])
                                        (released_folder ++ [version]))
                  (fun f => keeps_field_shutil_move _
                              (beside_tree_of_output _ beside_releaser_and_day) _ _)
                  u3) as E.
    now rewrite Hloop in E. }
  apply bind_Ok in H. destruct H as ([] & u5 & Hinfo & H).
  apply write_release_info_Ok in Hinfo.
  apply bind_Ok in H. destruct H as (root & u6 & Hroot & H).
  injection Hroot as <- <-. injection H as <-. cbn [fs].
  change (released_folder ++ [version; "release-info"])
    with ((released_folder ++ [version]) ++ ["release-info"]).
  rewrite Hinfo. f_equal. apply release_info_file_same. congruence.
Qed.

(** X9. The release-info of a release reads back. After
    [move_unreleased_changelogs] returned, the release-info of the version
    holds the dump of today's date and of the name [git config user.name]
    answered; when the decoder gives back the mapping the encoder was given,
    [get_release_info] returns that date and that name. *)
Theorem release_info_reads_back (version : string) (w w1 : world) :
  move_unreleased_changelogs yaml_safe_dump version w = (Ok tt, w1) ->
  yaml_load (yaml_safe_dump (release_info_fields w))
  = Some (YMap (release_info_fields w)) ->
  Tree.lookup (released_folder ++ [version; "release-info"]) (fs w1)
  = Some (File (yaml_safe_dump (release_info_fields w)))
  /\ get_release_info yaml_load version w1 = (Ok (YMap (release_info_fields w)), w1)
  /\ PyVal.get (YMap (release_info_fields w)) "date" (PyStr "") = Ok (PyStr (today w)).
Proof.
  intros H Hround. apply move_unreleased_changelogs_Ok in H.
  split; [exact H|]. split; [|reflexivity].
  unfold get_release_info. erewrite bind_run by apply os_path_exists_run.
  rewrite H. cbn [Tree.is_some negb]. unfold load_yaml_file.
  erewrite bind_run by (unfold read_file; rewrite H; reflexivity).
  unfold release_info_file. fold (release_info_fields w). now rewrite Hround.
Qed.



End ReleaseToChangelog.

(** ** The groups of a version *)

Lemma pyval_eqb_eq (a b : pyval) : PyVal.eqb a b = true <-> a = b.
Proof.
  destruct a, b; cbn; split; intros H; try discriminate; try reflexivity.
  - apply String.eqb_eq in H. now subst.
  - injection H as ->. apply String.eqb_refl.
  - apply Z.eqb_eq in H. now subst.
  - injection H as ->. apply Z.eqb_refl.
  - apply String.eqb_eq in H. now subst.
  - injection H as ->. apply String.eqb_refl.
Qed.

Lemma pyval_eqb_refl (a : pyval) : PyVal.eqb a a = true.
Proof. now apply pyval_eqb_eq. Qed.

Lemma pyval_eqb_sym (a b : pyval) : PyVal.eqb a b = PyVal.eqb b a.
Proof.
  destruct (PyVal.eqb a b) eqn:E1, (PyVal.eqb b a) eqn:E2; try reflexivity.
  - apply pyval_eqb_eq in E1. subst. now rewrite pyval_eqb_refl in E2.
  - apply pyval_eqb_eq in E2. subst. now rewrite pyval_eqb_refl in E1.
Qed.

Lemma pyval_eqb_spec (a b : pyval) : reflect (a = b) (PyVal.eqb a b).
Proof.
  destruct (PyVal.eqb a b) eqn:E; constructor.
  - now apply pyval_eqb_eq.
  - intros H. apply pyval_eqb_eq in H. congruence.
Qed.

Lemma has_cons (a k : pyval) (ls : list string) (changes : PyVal.changes_dict) :
  has a ((k, ls) :: changes) = PyVal.eqb a k || has a changes.
Proof. reflexivity. Qed.

Lemma has_In (a : pyval) (changes : PyVal.changes_dict) :
  has a changes = true <-> In a (map fst changes).
Proof.
  unfold has. rewrite existsb_exists, in_map_iff. split.
  - intros ([k ls] & Hin & E). apply pyval_eqb_eq in E. cbn in E. subst.
    now exists (k, ls).
  - intros ([k ls] & E & Hin). cbn in E. subst. exists (a, ls).
    split; [assumption|apply pyval_eqb_refl].
Qed.

Lemma has_same_keys (a : pyval) (c1 c2 : PyVal.changes_dict) :
  map fst c1 = map fst c2 -> has a c1 = has a c2.
Proof.
  intros E. apply eq_true_iff_eq. rewrite !has_In. now rewrite E.
Qed.

Lemma has_app (a : pyval) (c1 c2 : PyVal.changes_dict) :
  has a (c1 ++ c2) = has a c1 || has a c2.
Proof. apply existsb_app. Qed.

Lemma append_to_new (a : pyval) (line : string) (changes : PyVal.changes_dict) :
  has a changes = false ->
  PyVal.append_to a line (PyVal.add_key a changes) = changes ++ [(a, [line])].
Proof.
  unfold PyVal.add_key.
  induction changes as [|[k ls] rest IH].
  - intros _. cbn [PyVal.append_to]. change ([] ++ [(a, @nil string)]) with [(a, @nil string)].
    cbn [PyVal.append_to]. now rewrite pyval_eqb_refl.
  - rewrite has_cons. destruct (PyVal.eqb a k) eqn:E; [discriminate|]. cbn [orb].
    intros H.
    change (((k, ls) :: rest) ++ [(a, @nil string)])
      with ((k, ls) :: (rest ++ [(a, @nil string)])).
    cbn [PyVal.append_to]. rewrite E, IH by assumption. reflexivity.
Qed.

Lemma append_to_keys (a : pyval) (line : string) (changes : PyVal.changes_dict) :
  map fst (PyVal.append_to a line changes) = map fst changes.
Proof.
  induction changes as [|[k ls] rest IH]; [reflexivity|]. cbn [PyVal.append_to].
  destruct (PyVal.eqb a k); cbn [map fst]; [reflexivity|now rewrite IH].
Qed.

(** With distinct keys, [append_to] extends the lines of the key [a] and of
    no other. *)
Lemma append_to_map (a : pyval) (line : string) (changes : PyVal.changes_dict) :
  NoDup (map fst changes) ->
  PyVal.append_to a line changes
  = map (fun kv => (fst kv, if PyVal.eqb a (fst kv) then snd kv ++ [line] else snd kv))
        changes.
Proof.
  induction changes as [|[k ls] rest IH]; [reflexivity|]. cbn [map fst snd PyVal.append_to].
  intros Hnd. inversion Hnd as [|? ? Hnotin Hnd']; subst.
  destruct (pyval_eqb_spec a k) as [->|Hne].
  - f_equal. rewrite <- (map_id rest) at 1. apply map_ext_in.
    intros [k' ls'] Hin. cbn [fst snd].
    destruct (pyval_eqb_spec k k') as [->|_]; [|reflexivity].
    exfalso. apply Hnotin. apply in_map_iff. now exists (k', ls').
  - now rewrite IH.
Qed.

Lemma bullets_of_cons (a b : pyval) (t : string) (entries : list (pyval * string)) :
  bullets_of a ((b, t) :: entries)
  = if PyVal.eqb a b then bullet_line t :: bullets_of a entries
    else bullets_of a entries.
Proof. unfold bullets_of. cbn [filter fst]. now destruct (PyVal.eqb a b). Qed.

Lemma filter_filter_swap {A : Type} (f g : A -> bool) (l : list A) :
  filter f (filter g l) = filter g (filter f l).
Proof.
  induction l as [|x l IH]; [reflexivity|]. cbn [filter].
  destruct (f x) eqn:Ef, (g x) eqn:Eg; cbn [filter]; rewrite ?Ef, ?Eg, IH; reflexivity.
Qed.

(** The loop, started with the groups [acc] whose keys are distinct:
    the groups of [acc] get the bullets of their authors, and the authors not
    yet in [acc] follow in the order they are met. *)
Lemma fold_collect (entries : list (pyval * string)) :
  forall acc : PyVal.changes_dict,
    NoDup (map fst acc) ->
    fold_left collect entries acc
    = map (fun kv => (fst kv, snd kv ++ bullets_of (fst kv) entries)) acc
      ++ map (fun a => (a, bullets_of a entries))
             (filter (fun a => negb (has a acc)) (first_seen (map fst entries))).
Proof.
  induction entries as [|[a t] rest IH]; intros acc Hnd.
  - cbn [fold_left map first_seen filter]. rewrite app_nil_r.
    rewrite <- (map_id acc) at 1. apply map_ext. intros [k ls]. cbn.
    now rewrite app_nil_r.
  - cbn [fold_left map fst first_seen filter]. unfold collect at 2. cbn [fst snd].
    destruct (has a acc) eqn:Hin; cbn [negb].
    + rewrite IH by (now rewrite append_to_keys).
      rewrite append_to_map at 1 by assumption. rewrite map_map. cbn [fst snd].
      f_equal.
      * apply map_ext. intros [k ls]. cbn [fst snd]. rewrite bullets_of_cons.
        rewrite (pyval_eqb_sym k a).
        destruct (PyVal.eqb a k); [now rewrite <- app_assoc|reflexivity].
      * rewrite (filter_ext _ _ (fun b => f_equal negb
                   (has_same_keys b _ _ (append_to_keys a (bullet_line t) acc)))).
        rewrite filter_filter_swap.
        assert (Hsame : forall l,
                  filter (fun b => negb (PyVal.eqb a b))
                    (filter (fun a0 => negb (has a0 acc)) l)
                  = filter (fun a0 => negb (has a0 acc)) l).
        { intros l. induction l as [|b l IHl]; [reflexivity|]. cbn [filter].
          destruct (has b acc) eqn:Hb; cbn [negb filter]; [exact IHl|].
          destruct (pyval_eqb_spec a b) as [->|_]; [congruence|].
          cbn [negb]. now rewrite IHl. }
        rewrite Hsame.
        apply map_ext_in. intros b Hb. apply filter_In in Hb. destruct Hb as [_ Hb].
        rewrite bullets_of_cons.
        destruct (pyval_eqb_spec b a) as [->|_]; [|reflexivity].
        now rewrite Hin in Hb.
    + rewrite append_to_new by assumption.
      rewrite IH.
      2:{ rewrite map_app. cbn [map fst].
          apply NoDup_app; [assumption|repeat constructor; intros []|].
          intros x Hx [<-|[]]. apply has_In in Hx. congruence. }
      rewrite map_app. cbn [map fst snd]. rewrite <- app_assoc. f_equal.
      * apply map_ext_in. intros [k ls] Hk. cbn [fst snd]. rewrite bullets_of_cons.
        destruct (pyval_eqb_spec k a) as [->|_]; [|reflexivity].
        assert (has a acc = true); [|congruence].
        apply has_In. apply in_map_iff. now exists (a, ls).
      * change ([(a, [bullet_line t] ++ bullets_of a rest)] ++ ?x)
          with ((a, bullet_line t :: bullets_of a rest) :: x).
        rewrite bullets_of_cons, pyval_eqb_refl. f_equal.
        rewrite filter_filter_swap.
        assert (Hboth : forall l,
                  filter (fun a0 => negb (has a0 (acc ++ [(a, [bullet_line t])]))) l
                  = filter (fun b => negb (PyVal.eqb a b))
                      (filter (fun a0 => negb (has a0 acc)) l)).
        { intros l. induction l as [|b l IHl]; [reflexivity|]. cbn [filter].
          rewrite has_app. rewrite (has_cons b a). cbn [has existsb].
          rewrite orb_false_r. rewrite (pyval_eqb_sym b a).
          destruct (has b acc); cbn [orb negb filter]; [exact IHl|].
          destruct (PyVal.eqb a b); cbn [negb]; [exact IHl|now rewrite IHl]. }
        rewrite Hboth.
        apply map_ext_in. intros b Hb. apply filter_In in Hb. destruct Hb as [_ Hb].
        rewrite bullets_of_cons.
        destruct (pyval_eqb_spec b a) as [->|_]; [|reflexivity].
        now rewrite pyval_eqb_refl in Hb.
Qed.

Lemma filter_all {A : Type} (l : list A) : filter (fun _ => true) l = l.
Proof. induction l as [|x l IH]; [reflexivity|]. cbn. now rewrite IH. Qed.

Section Grouping.

Variable yaml_load : string -> option yaml_doc.

Lemma load_yaml_file_run (p : path) (w : world) (text : string) (doc : yaml_doc) :
  Tree.lookup p (fs w) = Some (File text) -> yaml_load text = Some doc ->
  load_yaml_file yaml_load p w = (Ok doc, w).
Proof.
  intros Hl Hy. unfold load_yaml_file.
  erewrite bind_run by (unfold read_file; rewrite Hl; reflexivity).
  now rewrite Hy.
Qed.

Lemma read_changes_run (folder : path) (w : world) (files : list string)
    (entries : list (pyval * string)) :
  Forall2 (decodes_to yaml_load w folder) files entries ->
  forall acc,
    read_changes yaml_load folder files acc w = (Ok (fold_left collect entries acc), w).
Proof.
  induction 1 as [|file [a t] files entries Hd _ IH]; intros acc; [reflexivity|].
  destruct Hd as (text & fields & Hl & Hy & Ha & Hh & Ht). cbn [fst snd] in *.
  cbn [read_changes fold_left].
  erewrite bind_run by (eapply load_yaml_file_run; eassumption).
  erewrite bind_run by (unfold lift, PyVal.getitem; rewrite Ha; reflexivity).
  erewrite bind_run by (unfold lift, PyVal.contains; rewrite Hh; reflexivity).
  erewrite bind_run by (unfold lift, PyVal.getitem; rewrite Ht; reflexivity).
  erewrite bind_run by reflexivity.
  apply IH.
Qed.

(** X11. The groups of a version. When every [.yml] file of a version folder
    decodes to a mapping with an author that can be a key and a title that is
    text, [get_version_changes] returns one group per author, the authors in
    the order in which each is met first in the listing, and in each group
    the bullets of that author's titles in the order of the listing. *)
Theorem get_version_changes_grouped (v : string) (w : world)
    (es : list (string * node)) (entries : list (pyval * string)) :
  Tree.lookup (released_folder ++ [v]) (fs w) = Some (Dir es) ->
  Forall2 (decodes_to yaml_load w (released_folder ++ [v]))
          (filter is_yml (map fst es)) entries ->
  get_version_changes yaml_load v w = (Ok (grouped entries), w).
Proof.
  intros Hl Hd. unfold get_version_changes.
  erewrite bind_run by (apply os_listdir_run; exact Hl).
  rewrite (read_changes_run _ _ _ _ Hd).
  rewrite fold_collect by constructor.
  cbn [map]. rewrite app_nil_l. unfold grouped.
  rewrite (filter_ext (fun a => negb (has a [])) (fun _ => true)) by reflexivity.
  now rewrite filter_all.
Qed.

End Grouping.

(** The three fragments of [team_world]: ana's two bullets are together,
    before bo's. *)
Lemma get_version_changes_grouped_witness :
  get_version_changes DemoYaml.load "v3.0.0" team_world
  = (Ok [(PyStr "ana", [bullet_line "Fix bug"; bullet_line "Tidy up"]);
         (PyStr "bo", [bullet_line "Add feature"])],
     team_world).
Proof.
  apply (get_version_changes_grouped DemoYaml.load "v3.0.0" team_world
           [("a.yml", DemoYaml.fragment "ana" "Fix bug");
            ("b.yml", DemoYaml.fragment "bo" "Add feature");
            ("release-info", File "date: 2026-03-01");
            ("c.yml", DemoYaml.fragment "ana" "Tidy up")]
           [(PyStr "ana", "Fix bug"); (PyStr "bo", "Add feature");
            (PyStr "ana", "Tidy up")]).
  - reflexivity.
  - repeat constructor; eexists; eexists; repeat split; reflexivity.
Defined.

(** ** What a release prints, and the record it overwrites *)

Lemma beside_tree_stdout : beside_tree stdout.
Proof. intros w t. reflexivity. Qed.

Lemma names_set_entry (P : string -> Prop) (c : string) (v : node)
    (es : list (string * node)) :
  P c -> Forall P (map fst es) -> Forall P (map fst (Tree.set_entry c v es)).
Proof.
  intros Hc. induction es as [|[n x] es IH]; intros H.
  - cbn. now constructor.
  - cbn [Tree.set_entry]. inversion H; subst.
    destruct (String.eqb c n); cbn [map fst]; constructor; auto.
Qed.

Lemma assoc_none_by_names (P : string -> bool) (c : string) (es : list (string * node)) :
  P c = false -> Forall (fun n => P n = true) (map fst es) -> Tree.assoc c es = None.
Proof.
  intros Hc H. destruct (Tree.assoc c es) eqn:E; [|reflexivity].
  assert (Hin : In c (map fst es)) by (apply assoc_In_names; congruence).
  rewrite Forall_forall in H. specialize (H c Hin). congruence.
Qed.

Lemma shutil_move_Ok_into (src dst : path) (f : string) (w w1 : world)
    (V : list (string * node)) :
  diverge src dst = true ->
  Tree.lookup dst (fs w) = Some (Dir V) ->
  shutil_move (src ++ [f]) dst w = (Ok tt, w1) ->
  exists n, Tree.lookup dst (fs w1) = Some (Dir (Tree.set_entry f n V)).
Proof.
  intros Hd Hdst. unfold shutil_move. rewrite Hdst. cbn [Tree.is_dir].
  rewrite last_app_one.
  destruct (true && _); [discriminate|].
  destruct (Tree.lookup (src ++ [f]) (fs w)) as [n|]; [|discriminate].
  destruct (Tree.remove (src ++ [f]) (fs w)) as [t1| |] eqn:Hrm; try discriminate.
  assert (Hdst1 : Tree.lookup dst t1 = Some (Dir V)).
  { rewrite <- Hdst. eapply remove_diverge; [|exact Hrm]. now apply diverge_app_l. }
  destruct (put_parent dst f n t1 V Hdst1) as (t2 & Hput & Hdst2).
  rewrite Hput. intros H. injection H as <-. now exists n.
Qed.

Lemma move_loop_names (src dst : path) (files : list string) :
  diverge src dst = true ->
  Forall (fun f => is_yml f = true) files ->
  forall (w w1 : world) (V : list (string * node)),
    Tree.lookup dst (fs w) = Some (Dir V) ->
    Forall (fun n => is_yml n = true) (map fst V) ->
    for_each files (fun f => shutil_move (src ++ [f]) dst) w = (Ok tt, w1) ->
    exists V', Tree.lookup dst (fs w1) = Some (Dir V')
               /\ Forall (fun n => is_yml n = true) (map fst V').
Proof.
  intros Hd. induction 1 as [|f files Hf _ IH]; intros w w1 V Hdst HV H.
  - injection H as <-. now exists V.
  - cbn [for_each] in H. apply bind_Ok in H. destruct H as ([] & w0 & Hmv & H).
    destruct (shutil_move_Ok_into _ _ _ _ _ _ Hd Hdst Hmv) as (n & Hdst0).
    apply (IH w0 w1 _ Hdst0); [|exact H]. now apply names_set_entry.
Qed.


Lemma bind_Raised {A B : Type} (m : M A) (k : A -> M B) (w w1 : world) (e : exn) :
  m w = (Raised e, w1) -> bind m k w = (Raised e, w1).
Proof. unfold bind. now intros ->. Qed.


Section ReleaseOutput.

Variable yaml_safe_dump : list (string * pyval) -> string.

(** X12. What a release prints. [move_unreleased_changelogs] prints nothing,
    or the one line of the duplicate release, or the one line of the release
    without pending changes. The warning of [write_release_info], that a
    release-info is already there and will be erased, is never printed by a
    release: the folder it writes into was created by the same run and holds
    only the [.yml] files just moved. *)
Theorem release_prints_at_most_one_line (version : string) (w : world) :
  stdout (snd (move_unreleased_changelogs yaml_safe_dump version w)) = stdout w
  \/ stdout (snd (move_unreleased_changelogs yaml_safe_dump version w))
     = stdout w ++ [msg_duplicate]
  \/ stdout (snd (move_unreleased_changelogs yaml_safe_dump version w))
     = stdout w ++ [msg_nothing].
Proof.
  unfold move_unreleased_changelogs. set (rv := released_folder ++ [version]).
  erewrite bind_run by apply os_path_exists_run.
  destruct (Tree.lookup rv (fs w)) as [n|] eqn:Hl; cbn [Tree.is_some when].
  { right. left. reflexivity. }
  erewrite bind_run by reflexivity.
  destruct (Tree.makedirs rv (fs w)) as [t0|e|c] eqn:Hmk.
  2:{ left. unfold bind, os_makedirs. now rewrite Hmk. }
  2:{ left. unfold bind, os_makedirs. now rewrite Hmk. }
  erewrite bind_run by (apply os_makedirs_run; exact Hmk).
  pose proof (makedirs_lookup_new _ _ _ Hmk) as Hrv0.
  destruct (Tree.lookup unreleased_folder t0) as [[text|es]|] eqn:Hun.
  1:{ left. erewrite bind_Raised
        by (unfold os_listdir; cbn [fs with_fs]; rewrite Hun; reflexivity).
      reflexivity. }
  2:{ left. erewrite bind_Raised
        by (unfold os_listdir; cbn [fs with_fs]; rewrite Hun; reflexivity).
      reflexivity. }
  erewrite bind_run by (apply os_listdir_run; exact Hun).
  set (files := filter is_yml (map fst es)).
  destruct files as [|f files'] eqn:Hfiles.
  { right. right. reflexivity. }
  rewrite <- Hfiles.
  replace (length files =? 0)%nat with false by (now rewrite Hfiles).
  cbn [when]. erewrite bind_run by reflexivity.
  set (loop := for_each files _).
  pose proof (keeps_field_for_each stdout files
                (fun f => shutil_move (unreleased_folder ++ [f]) rv))
    as Hquiet.
  specialize (Hquiet (fun f => keeps_field_shutil_move stdout beside_tree_stdout _ _)
                (with_fs t0 w)).
  fold loop in Hquiet. cbn [stdout with_fs] in Hquiet.
  destruct (loop (with_fs t0 w)) as [[[]|e|c] w4] eqn:Hloop; cbn [snd] in Hquiet.
  2:{ left. unfold bind. rewrite Hloop. exact Hquiet. }
  2:{ left. unfold bind. rewrite Hloop. exact Hquiet. }
  erewrite bind_run by exact Hloop.
  assert (Hkept : exists V', Tree.lookup rv (fs w4) = Some (Dir V')
                             /\ Forall (fun n => is_yml n = true) (map fst V')).
  { apply (move_loop_names unreleased_folder rv files eq_refl) with
      (w := with_fs t0 w) (V := @nil (string * node));
      [|exact Hrv0|constructor|exact Hloop].
    unfold files. apply Forall_forall. intros x Hx. apply filter_In in Hx. tauto. }
  destruct Hkept as (V' & Hrv4 & Hnames).
  left. rewrite <- Hquiet.
  destruct (write_release_info_run yaml_safe_dump rv w4 V' Hrv4
              (assoc_none_by_names is_yml "release-info" V' eq_refl Hnames))
    as (t' & Hrun & _).
  erewrite bind_run by exact Hrun. reflexivity.
Qed.


(** X14. In a repository that has no [changelogs] directory at all, a release
    creates [changelogs/released/<version>] and then fails with
    [FileNotFoundError], raised by the listing of the unreleased folder; the
    empty version folder is left behind and nothing is printed. *)
Theorem release_without_changelogs (version : string) (w : world)
    (root : list (string * node)) :
  fs w = Dir root ->
  Tree.assoc "changelogs" root = None ->
  move_unreleased_changelogs yaml_safe_dump version w
  = (Raised FileNotFoundError,
     with_fs (Dir (root ++ [("changelogs",
                             Dir [("released", Dir [(version, Dir [])])])])) w).
Proof.
  intros Hfs Hnone. unfold move_unreleased_changelogs.
  rewrite released_version_path.
  erewrite bind_run by apply os_path_exists_run.
  rewrite Hfs, lookup_cons, Hnone. cbn [Tree.is_some when].
  erewrite bind_run by reflexivity.
  erewrite bind_run.
  2:{ apply os_makedirs_run. rewrite Hfs, makedirs_cons, Hnone. reflexivity. }
  unfold bind, os_listdir. cbn [fs with_fs]. unfold unreleased_folder.
  rewrite lookup_cons, assoc_app_new by assumption.
  reflexivity.
Qed.

End ReleaseOutput.

(** ** Closed examples of the further properties *)

(** The release of v2.0.0 in [pending_world], read back. *)
Lemma release_info_reads_back_witness :
  Tree.lookup (released_folder ++ ["v2.0.0"; "release-info"])
    (fs (snd (move_unreleased_changelogs DemoYaml.safe_dump "v2.0.0" pending_world)))
  = Some (File (DemoYaml.safe_dump (release_info_fields pending_world)))
  /\ get_release_info DemoYaml.load "v2.0.0"
       (snd (move_unreleased_changelogs DemoYaml.safe_dump "v2.0.0" pending_world))
     = (Ok (YMap (release_info_fields pending_world)),
        snd (move_unreleased_changelogs DemoYaml.safe_dump "v2.0.0" pending_world))
  /\ PyVal.get (YMap (release_info_fields pending_world)) "date" (PyStr "")
     = Ok (PyStr (today pending_world)).
Proof.
  apply (release_info_reads_back DemoYaml.load DemoYaml.safe_dump "v2.0.0"
           pending_world); reflexivity.
Defined.



(** A first release in a repository that holds a README and nothing else. *)
Lemma release_without_changelogs_witness :
  move_unreleased_changelogs DemoYaml.safe_dump "v0.1"
    (with_fs (Dir [("README", File "hello")]) pending_world)
  = (Raised FileNotFoundError,
     with_fs (Dir ([("README", File "hello")]
                   ++ [("changelogs", Dir [("released", Dir [("v0.1", Dir [])])])]))
             (with_fs (Dir [("README", File "hello")]) pending_world)).
Proof.
  apply (release_without_changelogs DemoYaml.safe_dump "v0.1"
           (with_fs (Dir [("README", File "hello")]) pending_world)
           [("README", File "hello")]); reflexivity.
Defined.

(** ** When the groups of a version can be read *)

Section GroupsRead.

Variable yaml_load : string -> option yaml_doc.

Lemma read_changes_head (folder : path) (file : string) (rest : list string)
    (acc out : PyVal.changes_dict) (w w' : world) :
  read_changes yaml_load folder (file :: rest) acc w = (Ok out, w') ->
  exists e acc',
    decodes_to yaml_load w folder file e
    /\ read_changes yaml_load folder rest acc' w = (Ok out, w').
Proof.
  cbn [read_changes]. intros H.
  apply bind_Ok in H. destruct H as (entry & w1 & Hload & H).
  apply load_yaml_file_Ok in Hload. destruct Hload as (-> & text & Hl & Hy).
  apply bind_Ok in H. destruct H as (author & w1 & Ha & H).
  apply lift_Ok in Ha. destruct Ha as [Ha ->].
  apply bind_Ok in H. destruct H as (known & w1 & Hk & H).
  apply lift_Ok in Hk. destruct Hk as [Hk ->].
  apply bind_Ok in H. destruct H as (title & w1 & Ht & H).
  apply lift_Ok in Ht. destruct Ht as [Ht ->].
  apply bind_Ok in H. destruct H as (line & w1 & Hb & H).
  apply lift_Ok in Hb. destruct Hb as [Hb ->].
  destruct entry as [fields|]; [|discriminate].
  unfold PyVal.getitem in Ha, Ht.
  destruct (Tree.assoc "author" fields) as [a|] eqn:Hfa; [|discriminate].
  injection Ha as <-.
  destruct (Tree.assoc "title" fields) as [ti|] eqn:Hft; [|discriminate].
  injection Ht as <-.
  destruct ti as [t| | |]; try discriminate.
  unfold PyVal.contains in Hk.
  destruct (PyVal.hashable a) eqn:Hh; [|discriminate].
  exists (a, t). eexists. split; [|exact H].
  exists text, fields. cbn [fst snd]. repeat split; assumption.
Qed.

Lemma read_changes_Ok_entries (folder : path) (files : list string) :
  forall (acc out : PyVal.changes_dict) (w w' : world),
    read_changes yaml_load folder files acc w = (Ok out, w') ->
    exists entries, Forall2 (decodes_to yaml_load w folder) files entries.
Proof.
  induction files as [|file rest IH]; intros acc out w w' H.
  - exists []. constructor.
  - apply read_changes_head in H. destruct H as (e & acc' & Hd & H).
    destruct (IH _ _ _ _ H) as (entries & Hrest).
    exists (e :: entries). now constructor.
Qed.

(** X15. [get_version_changes] returns only when every [.yml] file of the
    folder is a file that decodes to a mapping with an author that can be a
    key and a title that is text; its result is then the groups of these
    entries, and the world is as it was. One fragment that is not of this
    kind is enough for the call to raise. *)
Theorem get_version_changes_returns_only_groups (v : string) (w w' : world)
    (es : list (string * node)) (changes : PyVal.changes_dict) :
  Tree.lookup (released_folder ++ [v]) (fs w) = Some (Dir es) ->
  get_version_changes yaml_load v w = (Ok changes, w') ->
  w' = w
  /\ exists entries,
       Forall2 (decodes_to yaml_load w (released_folder ++ [v]))
               (filter is_yml (map fst es)) entries
       /\ changes = grouped entries.
Proof.
  intros Hl H. unfold get_version_changes in H.
  erewrite bind_run in H by (apply os_listdir_run; exact Hl).
  destruct (read_changes_Ok_entries _ _ _ _ _ _ H) as (entries & Hd).
  rewrite (read_changes_run yaml_load _ _ _ _ Hd) in H.
  injection H as <- <-. split; [reflexivity|]. exists entries. split; [exact Hd|].
  rewrite fold_collect by constructor.
  cbn [map]. rewrite app_nil_l. unfold grouped.
  rewrite (filter_ext (fun a => negb (has a [])) (fun _ => true)) by reflexivity.
  now rewrite filter_all.
Qed.

(** ** A release-info that cannot be used *)

Lemma get_release_info_unusable (v : string) (n : node) (w w' : world)
    (date : pyval) (doc : yaml_doc) :
  Tree.lookup (released_folder ++ [v; "release-info"]) (fs w) = Some n ->
  unusable_release_info yaml_load n ->
  get_release_info yaml_load v w = (Ok doc, w') ->
  PyVal.get doc "date" (PyStr "") <> Ok date.
Proof.
  intros Hl Hbad H. unfold get_release_info in H.
  erewrite bind_run in H by apply os_path_exists_run.
  rewrite Hl in H. cbn [Tree.is_some negb] in H.
  apply load_yaml_file_Ok in H. destruct H as (_ & text & Hl' & Hy).
  rewrite Hl in Hl'. injection Hl' as ->. cbn in Hbad.
  destruct Hbad as [Hn|Ho]; rewrite Hy in *; [discriminate|].
  injection Ho as ->. discriminate.
Qed.

Lemma build_versions_unusable_info (v : string) (n t : node) (versions : list string) :
  In v versions ->
  Tree.lookup (released_folder ++ [v; "release-info"]) t = Some n ->
  unusable_release_info yaml_load n ->
  forall (result out : list string) (w w' : world),
    fs w = t ->
    build_versions yaml_load versions result w <> (Ok out, w').
Proof.
  intros Hin Hl Hbad. induction versions as [|u rest IH]; [contradiction|].
  intros result out w w' Hfs H.
  apply build_versions_step in H.
  destruct H as (info & date & changes & w1 & w2 & Hinfo & Hdate & Hch & H).
  assert (Hfs1 : fs w1 = t).
  { rewrite <- Hfs. pose proof (proj1 (get_release_info_reads_only yaml_load u) w) as E.
    now rewrite Hinfo in E. }
  assert (Hfs2 : fs w2 = t).
  { rewrite <- Hfs1.
    pose proof (proj1 (get_version_changes_reads_only yaml_load u) w1) as E.
    now rewrite Hch in E. }
  destruct Hin as [->|Hin].
  - revert Hdate. apply (get_release_info_unusable v n w w1 date info);
      [now rewrite Hfs|assumption|assumption].
  - exact (IH Hin _ out w2 w' Hfs2 H).
Qed.

(** X16. A release-info that cannot be used stops the aggregation like a
    malformed fragment does: when a version folder that passes
    [check_version] has, at the place of its release-info, a directory or a
    file that does not decode or decodes to something that is no mapping,
    [build_changelog] raises, and the working tree is as it was. *)
Theorem build_changelog_needs_usable_release_info (v : string) (w : world)
    (es : list (string * node)) (n : node) :
  check_version v = Ok tt ->
  Tree.lookup (released_folder ++ [v]) (fs w) = Some (Dir es) ->
  Tree.assoc "release-info" es = Some n ->
  unusable_release_info yaml_load n ->
  exists e w', build_changelog yaml_load w = (Raised e, w') /\ fs w' = fs w.
Proof.
  intros Hc Hl Hn Hbad.
  assert (Hinfo : Tree.lookup (released_folder ++ [v; "release-info"]) (fs w) = Some n).
  { change (released_folder ++ [v; "release-info"])
      with ((released_folder ++ [v]) ++ ["release-info"]).
    now rewrite lookup_app, Hl, lookup_cons, Hn. }
  pose proof (proj1 (build_changelog_reads_only yaml_load) w) as Hfs.
  pose proof (build_changelog_never_exits yaml_load w) as Hne.
  destruct (build_changelog yaml_load w) as [[out|e|c] w'] eqn:Hb; cbn [fst snd] in *.
  - exfalso.
    destruct (build_changelog_Ok_inv yaml_load _ _ _ Hb)
      as (vs & w1 & result & w2 & Hg & Hfs1 & Hv & _).
    revert Hv. apply (build_versions_unusable_info v n (fs w)); try assumption.
    eapply In_version_folders; eassumption.
  - now exists e, w'.
  - now destruct (Hne c).
Qed.

End GroupsRead.

(** The groups of v3.0.0 in [team_world], read from the call that returned. *)
Lemma get_version_changes_returns_only_groups_witness :
  team_world = team_world
  /\ exists entries,
       Forall2 (decodes_to DemoYaml.load team_world (released_folder ++ ["v3.0.0"]))
               ["a.yml"; "b.yml"; "c.yml"] entries
       /\ [(PyStr "ana", [bullet_line "Fix bug"; bullet_line "Tidy up"]);
           (PyStr "bo", [bullet_line "Add feature"])]
          = grouped entries.
Proof.
  apply (get_version_changes_returns_only_groups DemoYaml.load "v3.0.0"
           team_world team_world
           [("a.yml", DemoYaml.fragment "ana" "Fix bug");
            ("b.yml", DemoYaml.fragment "bo" "Add feature");
            ("release-info", File "date: 2026-03-01");
            ("c.yml", DemoYaml.fragment "ana" "Tidy up")]); reflexivity.
Defined.

(** The release-info of v1.0.0 in [broken_world] replaced by a directory. *)
Lemma build_changelog_needs_usable_release_info_witness :
  exists e w',
    build_changelog DemoYaml.load
      (with_fs (Dir [("changelogs",
                      Dir [("released",
                            Dir [("v1.0.0", Dir [("release-info", Dir [])])])])])
               broken_world)
    = (Raised e, w')
    /\ fs w'
       = fs (with_fs (Dir [("changelogs",
                            Dir [("released",
                                  Dir [("v1.0.0", Dir [("release-info", Dir [])])])])])
                     broken_world).
Proof.
  apply (build_changelog_needs_usable_release_info DemoYaml.load "v1.0.0"
           (with_fs (Dir [("changelogs",
                           Dir [("released",
                                 Dir [("v1.0.0", Dir [("release-info", Dir [])])])])])
                    broken_world)
           [("release-info", Dir [])] (Dir [])); first [reflexivity|exact I].
Defined.

(** ** How a run ends with [exit] *)






Lemma never_exits_when_false (b : bool) (m : M unit) :
  b = false -> never_exits (when b m).
Proof. intros ->. apply never_exits_ret. Qed.

Section Exits.

Variable yaml_load : string -> option yaml_doc.
Variable yaml_safe_dump : list (string * pyval) -> string.




(** X18. The archive goes into the changelog as it is. When a rebuild returns
    and the archive is a file without carriage return, CHANGELOG.md holds the
    lines built for the versions, one after the other, followed by the text
    of the archive, unchanged. *)
Theorem rebuild_appends_archive_verbatim (ignored : string) (w w1 : world)
    (text : string) :
  main yaml_load yaml_safe_dump (mkArgs ignored true) w = (Ok tt, w1) ->
  Tree.lookup archive_changes_file (fs w) = Some (File text) ->
  no_carriage_return text = true ->
  exists result,
    fst (build_changelog yaml_load w) = Ok (result ++ PyText.readlines text)
    /\ Tree.lookup [CHANGELOG_FILE] (fs w1)
       = Some (File (PyText.joined result ++ text)%string).
Proof.
  intros H Ha Hcr.
  destruct (main_rebuild_Ok _ _ _ _ _ H) as (lines & w0 & Hb & Hfs & Hw).
  destruct (build_changelog_Ok_inv yaml_load _ _ _ Hb)
    as (vs & u1 & result & u2 & _ & _ & _ & ->).
  unfold archive_lines in Hb, Hw. rewrite Ha in Hb, Hw.
  exists result. rewrite Hb. split; [reflexivity|].
  apply write_file_Ok in Hw. destruct Hw as (t & Hput & ->). cbn [fs with_fs].
  rewrite (put_lookup_same _ _ _ _ Hput). now rewrite joined_with_archive.
Qed.

End Exits.


(** A rebuild of [released_world] with an archive of two lines added. *)
Lemma rebuild_appends_archive_verbatim_witness :
  exists result,
    fst (build_changelog DemoYaml.load
           (with_fs (Dir [("changelogs",
                           Dir [("released", Dir [("v1.0", Dir [])]);
                                ("archive.md",
                                 File ("# Before" ++ PyText.newline ++ "- old"))])])
                    (released_world [])))
    = Ok (result ++ PyText.readlines ("# Before" ++ PyText.newline ++ "- old"))
    /\ Tree.lookup [CHANGELOG_FILE]
         (fs (snd (main DemoYaml.load DemoYaml.safe_dump (mkArgs "v" true)
                     (with_fs (Dir [("changelogs",
                                     Dir [("released", Dir [("v1.0", Dir [])]);
                                          ("archive.md",
                                           File ("# Before" ++ PyText.newline
                                                 ++ "- old"))])])
                              (released_world [])))))
       = Some (File (PyText.joined result
                     ++ ("# Before" ++ PyText.newline ++ "- old"))%string).
Proof.
  apply (rebuild_appends_archive_verbatim DemoYaml.load DemoYaml.safe_dump "v"
           (with_fs (Dir [("changelogs",
                           Dir [("released", Dir [("v1.0", Dir [])]);
                                ("archive.md",
                                 File ("# Before" ++ PyText.newline ++ "- old"))])])
                    (released_world [])));
    reflexivity.
Defined.

(** ** Folders with the same key *)

Lemma insert_desc_same_key {A : Type} (p : list Z * A -> bool) (k : list Z)
    (x : list Z * A) (l : list (list Z * A)) :
  (forall y, p y = true -> fst y = k) ->
  filter p (Py.insert_desc x l) = filter p (x :: l).
Proof.
  intros Hp. induction l as [|y l IH]; [reflexivity|]. cbn [Py.insert_desc].
  destruct (Py.tuple_lt (fst x) (fst y)) eqn:Hlt; [|reflexivity].
  cbn [filter] in *. rewrite IH.
  destruct (p x) eqn:Hx, (p y) eqn:Hy; try reflexivity.
  apply Hp in Hx. apply Hp in Hy. rewrite Hx, Hy, tuple_lt_irrefl in Hlt.
  discriminate.
Qed.

Lemma sorted_reverse_same_key {A : Type} (p : list Z * A -> bool) (k : list Z)
    (l : list (list Z * A)) :
  (forall y, p y = true -> fst y = k) ->
  filter p (Py.sorted_reverse l) = filter p l.
Proof.
  intros Hp. induction l as [|x l IH]; [reflexivity|].
  unfold Py.sorted_reverse in *. cbn [fold_right].
  rewrite (insert_desc_same_key p k) by assumption.
  cbn [filter]. now rewrite IH.
Qed.

Lemma filter_map_snd {A B : Type} (q : B -> bool) (l : list (A * B)) :
  filter q (map snd l) = map snd (filter (fun y => q (snd y)) l).
Proof.
  induction l as [|y l IH]; [reflexivity|]. cbn [map filter].
  destruct (q (snd y)); cbn [map]; now rewrite IH.
Qed.

(** X19. The sort is stable: among the result of [get_version_folders], the
    folders that have one and the same key come in the order in which the
    listing of the release area had them. *)
Theorem get_version_folders_stable (w w' : world) (vs : list string)
    (es : list (string * node)) (k : list Z) :
  get_version_folders w = (Ok vs, w') ->
  Tree.lookup released_folder (fs w) = Some (Dir es) ->
  filter (has_key k) vs = filter (has_key k) (filter (kept w) (map fst es)).
Proof.
  intros H Hl. unfold get_version_folders in H.
  apply bind_Ok in H. destruct H as (listing & w1 & Hls & H).
  apply os_listdir_Ok in Hls. destruct Hls as (es' & Hl' & -> & ->).
  rewrite Hl in Hl'. injection Hl' as <-.
  apply bind_Ok in H. destruct H as (folders & w2 & Hs & H).
  apply scan_folders_Ok in Hs. rewrite app_nil_l in Hs. subst folders.
  apply lift_Ok in H. destruct H as [H _]. unfold sorted_by_version_key in H.
  destruct (with_keys (filter (kept w) (map fst es))) as [keyed| |] eqn:Hk;
    try discriminate.
  injection H as <-. destruct (with_keys_Ok _ _ Hk) as [Hm Hf].
  rewrite <- Hm. rewrite !filter_map_snd. f_equal.
  rewrite (filter_ext_in (fun y => has_key k (snd y))
             (fun y => has_key k (snd y) && if list_eq_dec Z.eq_dec k (fst y) then true else false)
             (Py.sorted_reverse keyed)).
  2:{ intros y Hy. apply (Permutation_in _ (sorted_reverse_perm keyed)) in Hy.
      rewrite Forall_forall in Hf. specialize (Hf y Hy). unfold has_key. rewrite Hf.
      now destruct (list_eq_dec Z.eq_dec k (fst y)). }
  rewrite (sorted_reverse_same_key _ k).
  2:{ intros y Hy. apply andb_prop in Hy. destruct Hy as [_ Hy].
      now destruct (list_eq_dec Z.eq_dec k (fst y)). }
  apply filter_ext_in. intros y Hy.
  rewrite Forall_forall in Hf. specialize (Hf y Hy). unfold has_key. rewrite Hf.
  now destruct (list_eq_dec Z.eq_dec k (fst y)).
Qed.

(** Three spellings of one version around another version. *)
Lemma get_version_folders_stable_witness :
  filter (has_key [1%Z; 2%Z]) ["v2"; "v01.2"; "v1.2"; "v1.02"]
  = filter (has_key [1%Z; 2%Z])
      (filter (kept (released_world ["v01.2"; "v2"; "v1.2"; "v1.02"]))
              (map fst (map (fun f => (f, Dir [])) ["v01.2"; "v2"; "v1.2"; "v1.02"]))).
Proof.
  apply (get_version_folders_stable
           (released_world ["v01.2"; "v2"; "v1.2"; "v1.02"])
           (released_world ["v01.2"; "v2"; "v1.2"; "v1.02"])
           ["v2"; "v01.2"; "v1.2"; "v1.02"]
           (map (fun f => (f, Dir [])) ["v01.2"; "v2"; "v1.2"; "v1.02"])
           [1%Z; 2%Z]); reflexivity.
Defined.
